(** * Corpus resolution and session cache of the RAG agent tools

    A shallow embedding of [src/tools/utils.ts] (identifier
    canonicalisation, existence check, ranked substring resolver, session
    cache helpers) and of the target selection of [src/tools/rag_query.ts],
    followed by the properties of the specification that were checked
    against it.

    Conventions of the embedding.
    - A JavaScript string is a [string]: a sequence of code units, here the
      code units U+0000..U+00FF (Latin-1).  [toLowerCase], [trim] and the
      character class of the canonicaliser are written out for that range.
    - [undefined]/[null] fields are [None].
    - The registry (listRagCorpora) and the retrieval service are external:
      an operation is a tree of type [prog] whose nodes are the calls it
      makes and whose leaves are its results.
    - The session state is a finite map from keys to JavaScript values. *)

From Stdlib Require Import ZArith NArith Ascii String List Bool Lia DecimalString.
From stdpp Require Import base option gmap strings.

Local Open Scope string_scope.
Local Open Scope Z_scope.

(** ** Strings *)

Module Js.

(** Code unit of a character. *)
Definition code (c : ascii) : N := N_of_ascii c.

Definition between (lo hi n : N) : bool := ((lo <=? n) && (n <=? hi))%N.

Definition is_slash (c : ascii) : bool := (code c =? 47)%N.

(** White space and line terminators removed by [String.prototype.trim]:
    TAB, LF, VT, FF, CR, SPACE and NO-BREAK SPACE. *)
Definition is_space (c : ascii) : bool :=
  (between 9 13 (code c) || (code c =? 32) || (code c =? 160))%N.

(** [String.prototype.toLowerCase] on one code unit: A-Z and the Latin-1
    capitals U+00C0..U+00DE (without the multiplication sign U+00D7). *)
Definition lower_char (c : ascii) : ascii :=
  let n := code c in
  if (between 65 90 n || (between 192 222 n && negb (n =? 215)))%N
  then ascii_of_N (n + 32) else c.

Fixpoint map_chars (f : ascii -> ascii) (s : string) : string :=
  match s with
  | EmptyString => EmptyString
  | String c r => String (f c) (map_chars f r)
  end.

Definition toLowerCase (s : string) : string := map_chars lower_char s.

Fixpoint trimStart (s : string) : string :=
  match s with
  | String c r => if is_space c then trimStart r else s
  | EmptyString => EmptyString
  end.

Fixpoint trimEnd (s : string) : string :=
  match s with
  | EmptyString => EmptyString
  | String c r =>
      match trimEnd r with
      | EmptyString => if is_space c then EmptyString else String c EmptyString
      | r' => String c r'
      end
  end.

Definition trim (s : string) : string := trimEnd (trimStart s).

(** A string is falsy exactly when it is empty. *)
Definition nonempty (s : string) : bool :=
  match s with EmptyString => false | String _ _ => true end.

(** [a || b] on strings. *)
Definition or_else (a b : string) : string := if nonempty a then a else b.

(** [s.split('/')]: never an empty array. *)
Fixpoint split_slash (s : string) : list string :=
  match s with
  | EmptyString => [EmptyString]
  | String c r =>
      if is_slash c then EmptyString :: split_slash r
      else match split_slash r with
           | h :: t => String c h :: t
           | [] => [String c EmptyString]
           end
  end.

(** [arr.pop()] read as a value: the last element. *)
Definition pop (l : list string) : string := List.last l EmptyString.

(** [hay.startsWith(needle)]. *)
Fixpoint starts_with (needle hay : string) : bool :=
  match needle, hay with
  | EmptyString, _ => true
  | String a n', String b h' => if Ascii.eqb a b then starts_with n' h' else false
  | String _ _, EmptyString => false
  end.

(** [hay.indexOf(needle)]; [None] stands for -1. *)
Fixpoint indexOf (needle hay : string) : option nat :=
  if starts_with needle hay then Some O
  else match hay with
       | EmptyString => None
       | String _ h' => S <$> indexOf needle h'
       end.

End Js.

(** ** The resource-name pattern

    [/^projects\/[^/]+\/locations\/[^/]+\/ragCorpora\/[^/]+$/], matched
    from left to right.  A segment [[^/]+] is followed by a slash or by the
    end of the input, neither of which it can consume, so the greedy
    reading is the only one. *)

Module Pattern.

(** A literal piece of the pattern: the rest of the input after it. *)
Fixpoint literal (lit s : string) : option string :=
  match lit, s with
  | EmptyString, _ => Some s
  | String a l', String b s' => if Ascii.eqb a b then literal l' s' else None
  | String _ _, EmptyString => None
  end.

Fixpoint skip_segment (s : string) : string :=
  match s with
  | String c r => if Js.is_slash c then s else skip_segment r
  | EmptyString => EmptyString
  end.

(** [[^/]+]: at least one code unit other than the slash. *)
Definition segment (s : string) : option string :=
  match s with
  | String c r => if Js.is_slash c then None else Some (skip_segment r)
  | EmptyString => None
  end.

(** Sequencing of two pieces of the pattern. *)
Definition next (o : option string) (piece : string -> option string) : option string :=
  match o with Some rest => piece rest | None => None end.

Definition isFullResourceName (s : string) : bool :=
  match next (next (next (next (next (literal "projects/" s) segment)
          (literal "/locations/")) segment) (literal "/ragCorpora/")) segment with
  | Some EmptyString => true
  | _ => false
  end.

End Pattern.

(** ** Configuration ([src/config.ts])

    Both values are read from the process environment and may be
    undefined. *)

Record Config := {
  PROJECT_ID : option string;
  LOCATION : option string
}.

(** What a template literal prints for an environment value. *)
Definition interpolate (v : option string) : string := default "undefined" v.

(** [!v] for an environment value. *)
Definition unset (v : option string) : bool :=
  match v with Some s => negb (Js.nonempty s) | None => true end.

Definition unconfigured (cfg : Config) : bool :=
  unset (PROJECT_ID cfg) || unset (LOCATION cfg).

(** ** Identifier canonicaliser ([getCorpusResourceName]) *)

Definition is_id_char (c : ascii) : bool :=
  let n := Js.code c in
  (Js.between 97 122 n || Js.between 65 90 n || Js.between 48 57 n
   || (n =? 95) || (n =? 45))%N.

(** [replace(/[^a-zA-Z0-9_-]/g, '_')]. *)
Definition clean_char (c : ascii) : ascii := if is_id_char c then c else "_"%char.

Definition resource_prefix (cfg : Config) : string :=
  "projects/" +:+ interpolate (PROJECT_ID cfg) +:+ "/locations/"
  +:+ interpolate (LOCATION cfg) +:+ "/ragCorpora/".

Definition getCorpusResourceName (cfg : Config) (corpusName : string) : string :=
  if Pattern.isFullResourceName corpusName then corpusName
  else
    let corpusId := Js.or_else (Js.pop (Js.split_slash corpusName)) corpusName in
    let cleanId := Js.map_chars clean_char corpusId in
    resource_prefix cfg +:+ cleanId.

(** ** Registry records and the calls an operation makes *)

(** An entry of the listing ([IRagCorpus]); only the two fields the tools
    compare are kept. *)
Record CorpusRecord := {
  corpus_name : option string;
  corpus_displayName : option string
}.

Record CorpusMatchResult := {
  resourceName : string;
  displayName : option string
}.

Record CorpusMatchCandidate := {
  value : string;
  preference : Z
}.

(** Outcome of [client.listRagCorpora]: the corpora, or an exception. *)
Inductive listing :=
| Listed (corpora : list CorpusRecord)
| ListingFailed.

(** A retrieved context, as [ragQuery] maps it. *)
Record RagContext := {
  source_uri : string;
  source_name : string;
  text : string
}.

(** Outcome of [ragServiceClient.retrieveContexts]. *)
Inductive retrieval :=
| Retrieved (contexts : list RagContext)
| RetrievalFailed (errorMessage : string).

(** An asynchronous operation: the remote calls it awaits, each with the
    rest of the operation as a function of the answer, down to the value
    it returns.  [Throw] is an exception nobody catches. *)
Inductive prog (A : Type) : Type :=
| Ret (a : A)
| ListRagCorpora (parent : string) (k : listing -> prog A)
| RetrieveContexts (ragCorpus : string) (queryText : string) (k : retrieval -> prog A)
| Throw.

Arguments Ret {A} a.
Arguments ListRagCorpora {A} parent k.
Arguments RetrieveContexts {A} ragCorpus queryText k.
Arguments Throw {A}.

(** [await p] followed by [f]. *)
Fixpoint bind {A B : Type} (p : prog A) (f : A -> prog B) : prog B :=
  match p with
  | Ret a => f a
  | ListRagCorpora parent k => ListRagCorpora parent (fun r => bind (k r) f)
  | RetrieveContexts c q k => RetrieveContexts c q (fun r => bind (k r) f)
  | Throw => Throw
  end.

(** The remote services, as they answer during one operation. *)
Record World := {
  registry : listing;
  retriever : retrieval
}.

(** The value an operation returns in a given world; [None] when it throws. *)
Fixpoint exec {A : Type} (w : World) (p : prog A) : option A :=
  match p with
  | Ret a => Some a
  | ListRagCorpora _ k => exec w (k (registry w))
  | RetrieveContexts _ _ k => exec w (k (retriever w))
  | Throw => None
  end.

(** Number of listing calls the operation makes in a given world. *)
Fixpoint listing_calls {A : Type} (w : World) (p : prog A) : nat :=
  match p with
  | Ret _ => O
  | ListRagCorpora _ k => S (listing_calls w (k (registry w)))
  | RetrieveContexts _ _ k => listing_calls w (k (retriever w))
  | Throw => O
  end.

(** ** Session state *)

(** The JavaScript values the tools store. *)
Inductive jsval :=
| VBool (b : bool)
| VStr (s : string).

Definition truthy (v : jsval) : bool :=
  match v with
  | VBool b => b
  | VStr s => Js.nonempty s
  end.

(** Modelled from the spec: the [State] class of the agent runtime is not
    part of the sources; the specification describes it as a mapping from
    string keys to values, read with [get] and written with [set]. *)
Abbreviation State := (gmap string jsval).

(** [state.get(key)] used as a condition: a missing key reads [undefined]. *)
Definition holds (st : State) (key : string) : bool :=
  match st !! key with Some v => truthy v | None => false end.

(** [ToolContext]: the state may be missing ([toolContext?.state]). *)
Record ToolContext := { state : option State }.

Definition with_state (st : State) : option ToolContext := Some {| state := Some st |}.

(** [toolContext?.state]. *)
Definition state_of (toolContext : option ToolContext) : option State :=
  match toolContext with Some tc => state tc | None => None end.

Definition exists_key (corpusName : string) : string := "corpus_exists_" +:+ corpusName.

Definition parent_of (cfg : Config) : string :=
  "projects/" +:+ interpolate (PROJECT_ID cfg) +:+ "/locations/" +:+ interpolate (LOCATION cfg).

(** ** Existence check ([checkCorpusExists]) *)

(** [field === s] for an optional string field. *)
Definition field_is (field : option string) (s : string) : bool :=
  match field with Some x => String.eqb x s | None => false end.

(** Lines 81-87: the state update once a listed corpus matched. *)
Definition record_match (corpusName : string) (toolContext : option ToolContext)
  : option ToolContext :=
  match state_of toolContext with
  | Some st =>
      let st1 := <[exists_key corpusName := VBool true]> st in
      let st2 := if negb (holds st1 "current_corpus")
                 then <["current_corpus" := VStr corpusName]> st1 else st1 in
      Some {| state := Some st2 |}
  | None => toolContext
  end.

(** The [for] loop over the listing, with the final [return false]. *)
Fixpoint scan_corpora (corpusResourceName corpusName : string)
    (toolContext : option ToolContext) (corpora : list CorpusRecord)
  : bool * option ToolContext :=
  match corpora with
  | [] => (false, toolContext)
  | corpus :: rest =>
      if field_is (corpus_name corpus) corpusResourceName
         || field_is (corpus_displayName corpus) corpusName
      then (true, record_match corpusName toolContext)
      else scan_corpora corpusResourceName corpusName toolContext rest
  end.

(** [toolContext?.state?.get(`corpus_exists_${corpusName}`)] as a condition. *)
Definition cache_hit (corpusName : string) (toolContext : option ToolContext) : bool :=
  match state_of toolContext with
  | Some st => holds st (exists_key corpusName)
  | None => false
  end.

Definition checkCorpusExists (cfg : Config) (corpusName : string)
    (toolContext : option ToolContext) : prog (bool * option ToolContext) :=
  if unconfigured cfg then Ret (false, toolContext)
  else if cache_hit corpusName toolContext then Ret (true, toolContext)
  else
    let corpusResourceName := getCorpusResourceName cfg corpusName in
    ListRagCorpora (parent_of cfg) (fun answer =>
      match answer with
      | Listed corpora =>
          Ret (scan_corpora corpusResourceName corpusName toolContext corpora)
      | ListingFailed => Ret (false, toolContext)
      end).

(** ** Ranked substring resolver ([findBestMatchingCorpus]) *)

(** [corpus.name || ''] and [corpus.displayName || '']. *)
Definition text_of (field : option string) : string := default EmptyString field.

Definition candidates (corpus : CorpusRecord) : list CorpusMatchCandidate :=
  let resourceName := text_of (corpus_name corpus) in
  let displayName := text_of (corpus_displayName corpus) in
  let resourceId := Js.or_else (Js.pop (Js.split_slash resourceName)) resourceName in
  [ {| value := displayName; preference := 30 |};
    {| value := resourceId; preference := 20 |};
    {| value := resourceName; preference := 10 |} ].

(** The result built for a corpus: [displayName || undefined]. *)
Definition match_of (corpus : CorpusRecord) : CorpusMatchResult :=
  let displayName := text_of (corpus_displayName corpus) in
  {| resourceName := text_of (corpus_name corpus);
     displayName := if Js.nonempty displayName then Some displayName else None |}.

(** [normalizedQuery.length * 100 + candidate.preference - index], when the
    candidate contains the query. *)
Definition score_of (normalizedQuery : string) (candidate : CorpusMatchCandidate)
  : option Z :=
  let normalizedCandidate := Js.toLowerCase (Js.or_else (value candidate) EmptyString) in
  match Js.indexOf normalizedQuery normalizedCandidate with
  | None => None
  | Some index =>
      Some (Z.of_nat (String.length normalizedQuery) * 100
            + preference candidate - Z.of_nat index)
  end.

(** [bestMatch] and [bestScore]; the score [None] is [-Infinity]. *)
Definition Best : Type := option CorpusMatchResult * option Z.

(** [score > bestScore]. *)
Definition beats (score : Z) (bestScore : option Z) : bool :=
  match bestScore with Some b => b <? score | None => true end.

(** Body of the inner loop for one candidate of [corpus]. *)
Definition consider (normalizedQuery : string) (corpus : CorpusRecord)
    (best : Best) (candidate : CorpusMatchCandidate) : Best :=
  match score_of normalizedQuery candidate with
  | None => best
  | Some score =>
      if beats score (snd best) then (Some (match_of corpus), Some score) else best
  end.

(** Body of the outer loop for one corpus. *)
Definition consider_corpus (normalizedQuery : string) (best : Best)
    (corpus : CorpusRecord) : Best :=
  fold_left (consider normalizedQuery corpus) (candidates corpus) best.

(** Both loops, from [bestMatch = null] and [bestScore = -Infinity]. *)
Definition best_of (normalizedQuery : string) (corpora : list CorpusRecord) : Best :=
  fold_left (consider_corpus normalizedQuery) corpora (None, None).

Definition normalize (corpusName : string) : string := Js.toLowerCase (Js.trim corpusName).

Definition findBestMatchingCorpus (cfg : Config) (corpusName : string)
  : prog (option CorpusMatchResult) :=
  let normalizedQuery := normalize corpusName in
  if negb (Js.nonempty normalizedQuery) then Ret None
  else if unconfigured cfg then Ret None
  else
    ListRagCorpora (parent_of cfg) (fun answer =>
      match answer with
      | Listed corpora => Ret (fst (best_of normalizedQuery corpora))
      | ListingFailed => Ret None
      end).

(** ** Session cache helpers *)

Definition setCurrentCorpus (corpusName : string) (toolContext : option ToolContext)
  : bool * option ToolContext :=
  match state_of toolContext with
  | Some st => (true, Some {| state := Some (<["current_corpus" := VStr corpusName]> st) |})
  | None => (false, toolContext)
  end.

Definition invalidateCorpusExistsState (corpusName : string)
    (toolContext : option ToolContext) : option ToolContext :=
  match state_of toolContext with
  | None => toolContext
  | Some st =>
      let stateKey := exists_key corpusName in
      if holds st stateKey
      then Some {| state := Some (<[stateKey := VBool false]> st) |}
      else toolContext
  end.

(** ** Exact resolution ([resolveCorpusResourceName])

    Every caller in the sources passes the client it already built, so the
    operation goes straight to the listing. *)

Definition find_corpus (p : CorpusRecord -> bool) (corpora : list CorpusRecord)
  : option CorpusRecord := List.find p corpora.

Definition resolveCorpusResourceName (cfg : Config) (corpusName : string)
  : prog (option CorpusMatchResult) :=
  if Pattern.isFullResourceName corpusName
  then Ret (Some {| resourceName := corpusName; displayName := None |})
  else
    ListRagCorpora (parent_of cfg) (fun answer =>
      match answer with
      | Listed corpora =>
          let constructed := getCorpusResourceName cfg corpusName in
          let found :=
            match find_corpus (fun c => field_is (corpus_name c) constructed) corpora with
            | Some c => Some c
            | None => find_corpus (fun c => field_is (corpus_displayName c) corpusName) corpora
            end in
          match found with
          | Some c =>
              match corpus_name c with
              | Some n =>
                  if Js.nonempty n
                  then Ret (Some {| resourceName := n; displayName := corpus_displayName c |})
                  else Ret None
              | None => Ret None
              end
          | None => Ret None
          end
      | ListingFailed => Ret None
      end).

(** ** Target selection of the query tool ([ragQuery]) *)

Inductive Status := success | error | info | warning.

(** [buildResponse]: the status and the message; the echoed inputs and the
    result list are left out. *)
Record ToolResult := {
  status : Status;
  message : string
}.

Definition buildResponse (st : Status) (msg : string) : ToolResult :=
  {| status := st; message := msg |}.

(** [corpusName?.trim() || stateCorpus]: a value, or [undefined]. *)
Definition resolved_input (corpusName : string) (toolContext : ToolContext)
  : option jsval :=
  let stateCorpus :=
    match state toolContext with Some st => st !! "current_corpus" | None => None end in
  if Js.nonempty (Js.trim corpusName) then Some (VStr (Js.trim corpusName))
  else stateCorpus.

Definition ragQuery (cfg : Config) (corpusName query : string)
    (tool_context : option ToolContext) : prog (ToolResult * option ToolContext) :=
  let trimmedQuery := Js.trim query in
  if negb (Js.nonempty trimmedQuery)
  then Ret (buildResponse error "A non-empty query is required.", tool_context)
  else if unconfigured cfg
  then Ret (buildResponse error
              "PROJECT_ID or LOCATION are not set. Please set environment variables.",
            tool_context)
  else
  match tool_context with
  | None => Ret (buildResponse error "Tool context is required for rag_query", tool_context)
  | Some toolContext =>
    match resolved_input corpusName toolContext with
    | None | Some (VBool false) | Some (VStr EmptyString) =>
        Ret (buildResponse error
               "No corpus specified. Provide a corpus_name or set the current_corpus in the tool context.",
             tool_context)
    | Some (VBool true) => Throw
    | Some (VStr resolvedCorpusInput) =>
        bind (findBestMatchingCorpus cfg resolvedCorpusInput) (fun found =>
          match found with
          | None =>
              Ret (buildResponse error
                     ("No corpus matching '" +:+ resolvedCorpusInput
                      +:+ "' was found. Please create it using the create_corpus tool or list available corpora."),
                   tool_context)
          | Some m =>
              let corpusResourceName := resourceName m in
              let canonicalCorpusName :=
                Js.or_else (text_of (displayName m)) (resourceName m) in
              RetrieveContexts corpusResourceName trimmedQuery (fun answer =>
                match answer with
                | RetrievalFailed errorMessage =>
                    Ret (buildResponse error ("Error querying corpus: " +:+ errorMessage),
                         tool_context)
                | Retrieved [] =>
                    Ret (buildResponse warning
                           ("No results found in corpus '" +:+ canonicalCorpusName
                            +:+ "' for query: '" +:+ trimmedQuery +:+ "'"),
                         tool_context)
                | Retrieved (_ :: _) =>
                    Ret (buildResponse success
                           ("Successfully queried corpus '" +:+ canonicalCorpusName +:+ "'"),
                         snd (setCurrentCorpus canonicalCorpusName tool_context))
                end)
          end)
    end
  end.

(** ** Path parsing ([parsePaths] of [src/tools/shared.ts]) *)

Module Url.

(** The longest run of [[a-zA-Z0-9_-]] at the start, and what follows. *)
Fixpoint id_run (s : string) : string * string :=
  match s with
  | String c r =>
      if is_id_char c then (String c (fst (id_run r)), snd (id_run r))
      else (EmptyString, s)
  | EmptyString => (EmptyString, EmptyString)
  end.

(** [(?:\/|$)]: a slash or the end of the input. *)
Definition at_boundary (rest : string) : bool :=
  match rest with
  | EmptyString => true
  | String c _ => Js.is_slash c
  end.

(** [([a-zA-Z0-9_-]+)(?:\/|$)]: the captured id.  A run shorter than the
    longest one is followed by a character of the class, never by a slash
    or the end, so only the longest run can match. *)
Definition captured_id (s : string) : option string :=
  if Js.nonempty (fst (id_run s)) && at_boundary (snd (id_run s))
  then Some (fst (id_run s)) else None.

(** [(?:a|b|c)]: the alternatives in order.  None of the alternatives used
    below is a prefix of another, so at most one applies. *)
Fixpoint one_of (alternatives : list string) (s : string) : option string :=
  match alternatives with
  | [] => None
  | a :: others =>
      match Pattern.literal a s with
      | Some rest => Some rest
      | None => one_of others s
      end
  end.

(** [docsRe] tried at the start of [s]. *)
Definition docs_at (s : string) : option string :=
  Pattern.next (Pattern.next (Pattern.next (Pattern.literal "https://docs.google.com/" s)
     (one_of ["document"; "spreadsheets"; "presentation"])) (Pattern.literal "/d/"))
     captured_id.

(** [driveRe] tried at the start of [s]. *)
Definition drive_at (s : string) : option string :=
  Pattern.next (Pattern.next (Pattern.literal "https://drive.google.com/" s)
     (one_of ["file/d/"; "open?id="])) captured_id.

(** [p.match(re)] for a pattern without anchor: the leftmost position at
    which it matches; the result is group 1. *)
Fixpoint search (at_start : string -> option string) (s : string) : option string :=
  match at_start s with
  | Some id => Some id
  | None =>
      match s with
      | EmptyString => None
      | String _ r => search at_start r
      end
  end.

Definition drive_url (id : string) : string :=
  "https://drive.google.com/file/d/" +:+ id +:+ "/view".

End Url.

(** A reported conversion; the tool prints [original], an arrow and
    [converted] in one text. *)
Record Conversion := {
  original : string;
  converted : string
}.

Record ParsedPaths := {
  validated : list string;
  invalid : list string;
  conversions : list Conversion;
  gcsPaths : list string;
  driveFileIds : list string
}.

(** [arr.push(x)]. *)
Definition push {X : Type} (arr : list X) (x : X) : list X := (arr ++ [x])%list.

(** One turn of the loop of [parsePaths]. *)
Definition parse_path (acc : ParsedPaths) (p : string) : ParsedPaths :=
  if negb (Js.nonempty p) || String.eqb (Js.trim p) EmptyString
  then {| validated := validated acc;
          invalid := push (invalid acc) (p +:+ " (Not a valid or empty string)");
          conversions := conversions acc;
          gcsPaths := gcsPaths acc;
          driveFileIds := driveFileIds acc |}
  else
    match Url.search Url.docs_at p with
    | Some id =>
        let driveUrl := Url.drive_url id in
        {| validated := push (validated acc) driveUrl;
           invalid := invalid acc;
           conversions := push (conversions acc) {| original := p; converted := driveUrl |};
           gcsPaths := gcsPaths acc;
           driveFileIds := push (driveFileIds acc) id |}
    | None =>
        match Url.search Url.drive_at p with
        | Some id =>
            let driveUrl := Url.drive_url id in
            {| validated := push (validated acc) driveUrl;
               invalid := invalid acc;
               conversions :=
                 if String.eqb driveUrl p then conversions acc
                 else push (conversions acc) {| original := p; converted := driveUrl |};
               gcsPaths := gcsPaths acc;
               driveFileIds := push (driveFileIds acc) id |}
        | None =>
            if Js.starts_with "gs://" p
            then {| validated := push (validated acc) p;
                    invalid := invalid acc;
                    conversions := conversions acc;
                    gcsPaths := push (gcsPaths acc) p;
                    driveFileIds := driveFileIds acc |}
            else {| validated := validated acc;
                    invalid := push (invalid acc) (p +:+ " (Invalid format)");
                    conversions := conversions acc;
                    gcsPaths := gcsPaths acc;
                    driveFileIds := driveFileIds acc |}
        end
    end.

Definition no_paths : ParsedPaths :=
  {| validated := []; invalid := []; conversions := []; gcsPaths := []; driveFileIds := [] |}.

Definition parsePaths (paths : list string) : ParsedPaths :=
  fold_left parse_path paths no_paths.

(** ** The tools that change the registry

    [createCorpus], [deleteCorpus], [deleteDocument] and [addData] await,
    besides the listing, the mutations of the registry.  A mutation is
    awaited to its completion ([operation.promise()]); whatever is thrown
    on the way is caught by the tool and becomes an error message. *)

(** Outcome of a deletion awaited to completion. *)
Inductive completion :=
| Completed
| Failed (errorMessage : string).

(** Outcome of [createRagCorpus] awaited to completion: the new corpus. *)
Inductive creation :=
| Created (response : CorpusRecord)
| CreationFailed (errorMessage : string).

(** What [resp.importedRagFilesCount] reads as.  The field is a 64-bit
    integer of the service's protocol; the client library decodes the
    response of an operation with such a field as a [Long] object, not as
    a number.  [NoCount] is a response without the field ([undefined]). *)
Inductive files_count :=
| LongCount (value : Z)
| NoCount.

(** What an import operation resolves to: a response with the count it
    reports, or a rejection. *)
Inductive import_result :=
| Resolved (importedRagFilesCount : files_count)
| Rejected.

(** Outcome of [client.importRagFiles]: an exception, no operation, or an
    operation with what its promise will give. *)
Inductive import_call :=
| ImportCallFailed (errorMessage : string)
| NoOperation
| Started (operation : import_result).

(** Outcome of [getRagCorpus]. *)
Inductive fetched :=
| Fetched (corpus : CorpusRecord)
| FetchFailed (errorMessage : string).

(** A file of a corpus, as listed ([IRagFile]; the time stamps are left
    out). *)
Record RagFile := {
  file_name : option string;
  file_displayName : option string
}.

(** Outcome of [listRagFiles]. *)
Inductive file_listing :=
| FilesListed (files : list RagFile)
| FileListingFailed.

(** [IImportRagFilesConfig] as [addData] fills it. *)
Record ImportConfig := {
  resourceIds : list string;
  chunkSize : nat;
  chunkOverlap : nat;
  maxEmbeddingRequestsPerMin : nat
}.

Inductive tool (A : Type) : Type :=
| Done (a : A)
| CallListRagCorpora (parent : string) (k : listing -> tool A)
| CallRetrieveContexts (ragCorpus : string) (queryText : string) (k : retrieval -> tool A)
| CallCreateRagCorpus (parent : string) (newDisplayName : string) (k : creation -> tool A)
| CallDeleteRagCorpus (name : string) (k : completion -> tool A)
| CallDeleteRagFile (name : string) (k : completion -> tool A)
| CallImportRagFiles (parent : string) (config : ImportConfig) (k : import_call -> tool A)
| CallGetRagCorpus (name : string) (k : fetched -> tool A)
| CallListRagFiles (parent : string) (k : file_listing -> tool A)
| Uncaught.

Arguments Done {A} a.
Arguments CallListRagCorpora {A} parent k.
Arguments CallRetrieveContexts {A} ragCorpus queryText k.
Arguments CallCreateRagCorpus {A} parent newDisplayName k.
Arguments CallDeleteRagCorpus {A} name k.
Arguments CallDeleteRagFile {A} name k.
Arguments CallImportRagFiles {A} parent config k.
Arguments CallGetRagCorpus {A} name k.
Arguments CallListRagFiles {A} parent k.
Arguments Uncaught {A}.

(** An operation of the resolution core, used inside a tool. *)
Fixpoint lift {A : Type} (p : prog A) : tool A :=
  match p with
  | Ret a => Done a
  | ListRagCorpora parent k => CallListRagCorpora parent (fun answer => lift (k answer))
  | RetrieveContexts c q k => CallRetrieveContexts c q (fun answer => lift (k answer))
  | Throw => Uncaught
  end.

(** [await t] followed by [f]. *)
Fixpoint and_then {A B : Type} (t : tool A) (f : A -> tool B) : tool B :=
  match t with
  | Done a => f a
  | CallListRagCorpora parent k => CallListRagCorpora parent (fun r => and_then (k r) f)
  | CallRetrieveContexts c q k => CallRetrieveContexts c q (fun r => and_then (k r) f)
  | CallCreateRagCorpus parent d k => CallCreateRagCorpus parent d (fun r => and_then (k r) f)
  | CallDeleteRagCorpus n k => CallDeleteRagCorpus n (fun r => and_then (k r) f)
  | CallDeleteRagFile n k => CallDeleteRagFile n (fun r => and_then (k r) f)
  | CallImportRagFiles parent c k => CallImportRagFiles parent c (fun r => and_then (k r) f)
  | CallGetRagCorpus n k => CallGetRagCorpus n (fun r => and_then (k r) f)
  | CallListRagFiles parent k => CallListRagFiles parent (fun r => and_then (k r) f)
  | Uncaught => Uncaught
  end.

Definition not_configured : string :=
  "PROJECT_ID or LOCATION are not set. Please set environment variables.".

(** The message of the [TypeError] raised by [toolContext.state.set] or
    [.get] on a context without state, as the V8 engine words it. *)
Definition no_state_error (member : string) : string :=
  "Cannot read properties of undefined (reading '" +:+ member +:+ "')".

(** *** [runImportOperations] ([src/tools/shared.ts]) *)

(** The first loop: one call per configuration, keeping the operations
    that were started.  An exception of a call leaves the function. *)
Fixpoint start_imports (parent : string) (configs : list ImportConfig)
    (operations : list import_result) : tool (string + list import_result) :=
  match configs with
  | [] => Done (inr operations)
  | cfg :: rest =>
      CallImportRagFiles parent cfg (fun answer =>
        match answer with
        | ImportCallFailed errorMessage => Done (inl errorMessage)
        | NoOperation => start_imports parent rest operations
        | Started op => start_imports parent rest (push operations op)
        end)
  end.

(** A number inside a template literal or converted by [+]. *)
Definition decimal (n : nat) : string := NilEmpty.string_of_uint (Nat.to_uint n).

(** [Long.prototype.toString()]: the decimal digits, after a minus sign
    for a negative value. *)
Definition long_text (value : Z) : string := NilZero.string_of_int (Z.to_int value).

(** The value of [total]: the number it starts as, or a text. *)
Inductive jstotal :=
| JsNumber (n : nat)
| JsText (s : string).

(** [String(total)]. *)
Definition total_text (total : jstotal) : string :=
  match total with
  | JsNumber n => decimal n
  | JsText s => s
  end.

(** [total += count || 0].  A [Long] is an object: it is truthy whatever
    its value, and [+] converts it with [toString] and concatenates.
    Without count the right-hand side is the number [0]. *)
Definition add_count (total : jstotal) (count : files_count) : jstotal :=
  match count with
  | LongCount value => JsText (total_text total +:+ long_text value)
  | NoCount =>
      match total with
      | JsNumber n => JsNumber (n + 0)
      | JsText s => JsText (s +:+ decimal 0)
      end
  end.

(** The second loop, from [total = 0]; a rejection is ignored. *)
Definition count_imported (operations : list import_result) : jstotal :=
  fold_left (fun total op =>
               match op with
               | Resolved count => add_count total count
               | Rejected => total
               end) operations (JsNumber 0).

Definition runImportOperations (parent : string) (configs : list ImportConfig)
  : tool (string + jstotal) :=
  and_then (start_imports parent configs []) (fun started =>
    match started with
    | inl errorMessage => Done (inl errorMessage)
    | inr operations => Done (inr (count_imported operations))
    end).

(** *** [deleteCorpus] *)

Definition deleteCorpus (cfg : Config) (corpusName : string)
    (tool_context : option ToolContext) : tool (ToolResult * option ToolContext) :=
  if unconfigured cfg then Done (buildResponse error not_configured, tool_context)
  else
    and_then
      match tool_context with
      | Some _ => lift (checkCorpusExists cfg corpusName tool_context)
      | None => Done (true, tool_context)
      end
      (fun checked =>
         let toolContext := snd checked in
         if negb (fst checked)
         then Done (buildResponse error ("Corpus '" +:+ corpusName +:+ "' does not exist"),
                    toolContext)
         else
           and_then (lift (resolveCorpusResourceName cfg corpusName)) (fun resolved =>
             match resolved with
             | None =>
                 Done (buildResponse error ("Corpus '" +:+ corpusName +:+ "' not found"),
                       toolContext)
             | Some r =>
                 CallDeleteRagCorpus (resourceName r) (fun answer =>
                   match answer with
                   | Completed =>
                       Done (buildResponse success
                               ("Successfully deleted corpus '" +:+ corpusName +:+ "'"),
                             invalidateCorpusExistsState corpusName toolContext)
                   | Failed errorMessage =>
                       Done (buildResponse error
                               ("Error deleting corpus: " +:+ errorMessage),
                             toolContext)
                   end)
             end)).

(** *** [deleteDocument] *)

Definition deleteDocument (cfg : Config) (corpusName documentId : string)
    (tool_context : option ToolContext) : tool (ToolResult * option ToolContext) :=
  if unconfigured cfg then Done (buildResponse error not_configured, tool_context)
  else
    and_then
      match tool_context with
      | Some _ => lift (checkCorpusExists cfg corpusName tool_context)
      | None => Done (true, tool_context)
      end
      (fun checked =>
         let toolContext := snd checked in
         if negb (fst checked)
         then Done (buildResponse error ("Corpus '" +:+ corpusName +:+ "' does not exist"),
                    toolContext)
         else
           and_then (lift (resolveCorpusResourceName cfg corpusName)) (fun resolved =>
             match resolved with
             | None =>
                 Done (buildResponse error ("Corpus '" +:+ corpusName +:+ "' not found"),
                       toolContext)
             | Some r =>
                 let ragFilePath := resourceName r +:+ "/ragFiles/" +:+ documentId in
                 CallDeleteRagFile ragFilePath (fun answer =>
                   match answer with
                   | Completed =>
                       Done (buildResponse success
                               ("Successfully deleted document '" +:+ documentId
                                +:+ "' from corpus '" +:+ corpusName +:+ "'"),
                             toolContext)
                   | Failed errorMessage =>
                       Done (buildResponse error
                               ("Error deleting document: " +:+ errorMessage),
                             toolContext)
                   end)
             end)).

(** *** [createCorpus] *)

Definition createCorpus (cfg : Config) (corpusName : string)
    (tool_context : option ToolContext) : tool (ToolResult * option ToolContext) :=
  if unconfigured cfg then Done (buildResponse error not_configured, tool_context)
  else
    and_then
      match tool_context with
      | Some _ => lift (checkCorpusExists cfg corpusName tool_context)
      | None => Done (false, tool_context)
      end
      (fun checked =>
         let toolContext := snd checked in
         if fst checked
         then Done (buildResponse info ("Corpus '" +:+ corpusName +:+ "' already exists"),
                    toolContext)
         else
           let displayName := Js.map_chars clean_char corpusName in
           CallCreateRagCorpus (parent_of cfg) displayName (fun answer =>
             match answer with
             | CreationFailed errorMessage =>
                 Done (buildResponse error ("Error creating corpus: " +:+ errorMessage),
                       toolContext)
             | Created _ =>
                 match toolContext with
                 | Some tc =>
                     match state tc with
                     | Some st =>
                         let st1 := <[exists_key corpusName := VBool true]> st in
                         Done (buildResponse success
                                 ("Successfully created corpus '" +:+ corpusName +:+ "'"),
                               snd (setCurrentCorpus corpusName
                                      (Some {| state := Some st1 |})))
                     | None =>
                         Done (buildResponse error
                                 ("Error creating corpus: " +:+ no_state_error "set"),
                               toolContext)
                     end
                 | None =>
                     Done (buildResponse success
                             ("Successfully created corpus '" +:+ corpusName +:+ "'"),
                           toolContext)
                 end
             end)).

(** *** [getCorpusInfo]

    The list of file details is not part of the result kept here, so the
    answer of [listRagFiles] (whose failure the tool ignores) does not
    show in it. *)

Definition getCorpusInfo (cfg : Config) (corpusName : string)
    (tool_context : option ToolContext) : tool (ToolResult * option ToolContext) :=
  if unconfigured cfg then Done (buildResponse error not_configured, tool_context)
  else
    and_then
      match tool_context with
      | Some _ => lift (checkCorpusExists cfg corpusName tool_context)
      | None => Done (true, tool_context)
      end
      (fun checked =>
         let toolContext := snd checked in
         if negb (fst checked)
         then Done (buildResponse error ("Corpus '" +:+ corpusName +:+ "' does not exist"),
                    toolContext)
         else
           and_then (lift (resolveCorpusResourceName cfg corpusName)) (fun resolved =>
             match resolved with
             | None =>
                 Done (buildResponse error ("Corpus '" +:+ corpusName +:+ "' not found"),
                       toolContext)
             | Some r =>
                 let corpusResourceName := resourceName r in
                 let corpusDisplayName := Js.or_else (text_of (displayName r)) corpusName in
                 CallGetRagCorpus corpusResourceName (fun answer =>
                   match answer with
                   | FetchFailed errorMessage =>
                       Done (buildResponse error
                               ("Error getting corpus information: " +:+ errorMessage),
                             toolContext)
                   | Fetched corpus =>
                       let corpusDisplayName :=
                         Js.or_else (text_of (corpus_displayName corpus))
                                    corpusDisplayName in
                       CallListRagFiles corpusResourceName (fun _ =>
                         Done (buildResponse success
                                 ("Successfully retrieved information for corpus '"
                                  +:+ corpusDisplayName +:+ "'"),
                               toolContext))
                   end)
             end)).

(** *** [addData] *)

Definition DEFAULT_CHUNK_SIZE : nat := 512.
Definition DEFAULT_CHUNK_OVERLAP : nat := 100.
Definition DEFAULT_EMBEDDING_REQUESTS_PER_MIN : nat := 1000.

(** [configs]: one Drive source with all the file ids, if there is any. *)
Definition import_configs (pathsInfo : ParsedPaths) : list ImportConfig :=
  match driveFileIds pathsInfo with
  | [] => []
  | _ :: _ =>
      [ {| resourceIds := driveFileIds pathsInfo;
           chunkSize := DEFAULT_CHUNK_SIZE;
           chunkOverlap := DEFAULT_CHUNK_OVERLAP;
           maxEmbeddingRequestsPerMin := DEFAULT_EMBEDDING_REQUESTS_PER_MIN |} ]
  end.

(** [totalAdded || pathsInfo.validated.length], as the template literal
    prints it: the number [0] and the empty text are falsy. *)
Definition files_added (totalAdded : jstotal) (pathsInfo : ParsedPaths) : string :=
  match totalAdded with
  | JsNumber O => decimal (length (validated pathsInfo))
  | JsNumber (S _ as n) => decimal n
  | JsText s => if Js.nonempty s then s else decimal (length (validated pathsInfo))
  end.

Definition added_message (corpusName : string) (totalAdded : jstotal)
    (pathsInfo : ParsedPaths) : string :=
  let conversionMsg :=
    match conversions pathsInfo with
    | [] => EmptyString
    | _ :: _ => " (Converted Google Docs URLs to Drive format)"
    end in
  "Successfully added " +:+ files_added totalAdded pathsInfo
  +:+ " file(s) to corpus '" +:+ corpusName +:+ "'" +:+ conversionMsg.

Definition addData (cfg : Config) (corpusName : string) (paths : list string)
    (tool_context : option ToolContext) : tool (ToolResult * option ToolContext) :=
  if unconfigured cfg then Done (buildResponse error not_configured, tool_context)
  else
    let pathsInfo := parsePaths paths in
    match validated pathsInfo with
    | [] =>
        Done (buildResponse error
                "No valid paths provided. Please provide Google Drive URLs or GCS paths.",
              tool_context)
    | _ :: _ =>
        and_then
          match tool_context with
          | Some _ => lift (checkCorpusExists cfg corpusName tool_context)
          | None => Done (false, tool_context)
          end
          (fun checked =>
             let toolContext := snd checked in
             if negb (fst checked)
             then Done (buildResponse error
                          ("Corpus '" +:+ corpusName
                           +:+ "' does not exist. Please create it first using the create_corpus tool."),
                        toolContext)
             else
               and_then (lift (resolveCorpusResourceName cfg corpusName)) (fun resolved =>
                 match resolved with
                 | None =>
                     Done (buildResponse error
                             ("Corpus '" +:+ corpusName +:+ "' not found"),
                           toolContext)
                 | Some r =>
                     and_then (runImportOperations (resourceName r)
                                 (import_configs pathsInfo)) (fun imported =>
                       match imported with
                       | inl errorMessage =>
                           Done (buildResponse error
                                   ("Error adding data to corpus: " +:+ errorMessage),
                                 toolContext)
                       | inr totalAdded =>
                           match toolContext with
                           | Some tc =>
                               match state tc with
                               | Some st =>
                                   Done (buildResponse success
                                           (added_message corpusName totalAdded pathsInfo),
                                         if negb (holds st "current_corpus")
                                         then snd (setCurrentCorpus corpusName toolContext)
                                         else toolContext)
                               | None =>
                                   Done (buildResponse error
                                           ("Error adding data to corpus: "
                                            +:+ no_state_error "get"),
                                         toolContext)
                               end
                           | None =>
                               Done (buildResponse success
                                       (added_message corpusName totalAdded pathsInfo),
                                     toolContext)
                           end
                       end)
                 end))
    end.

(** *** What a run of a tool shows *)

(** A call with the answer it got. *)
Inductive event :=
| ListedCorpora (parent : string) (answer : listing)
| RetrievedContexts (ragCorpus : string) (queryText : string) (answer : retrieval)
| CreatedCorpus (parent : string) (newDisplayName : string) (answer : creation)
| DeletedCorpus (name : string) (answer : completion)
| DeletedFile (name : string) (answer : completion)
| ImportedFiles (parent : string) (config : ImportConfig) (answer : import_call)
| FetchedCorpus (name : string) (answer : fetched)
| ListedFiles (parent : string) (answer : file_listing).

(** [runs t trace result]: the tool [t] can make the calls of [trace], in
    that order and with those answers, and end with [result] ([None] for
    an exception nobody caught).  The answers are free: every behaviour of
    the services is a run. *)
Fixpoint runs {A : Type} (t : tool A) (trace : list event) (result : option A) : Prop :=
  match t with
  | Done a => trace = [] /\ result = Some a
  | Uncaught => trace = [] /\ result = None
  | CallListRagCorpora parent k =>
      exists answer rest, trace = ListedCorpora parent answer :: rest
                          /\ runs (k answer) rest result
  | CallRetrieveContexts c q k =>
      exists answer rest, trace = RetrievedContexts c q answer :: rest
                          /\ runs (k answer) rest result
  | CallCreateRagCorpus parent d k =>
      exists answer rest, trace = CreatedCorpus parent d answer :: rest
                          /\ runs (k answer) rest result
  | CallDeleteRagCorpus n k =>
      exists answer rest, trace = DeletedCorpus n answer :: rest
                          /\ runs (k answer) rest result
  | CallDeleteRagFile n k =>
      exists answer rest, trace = DeletedFile n answer :: rest
                          /\ runs (k answer) rest result
  | CallImportRagFiles parent c k =>
      exists answer rest, trace = ImportedFiles parent c answer :: rest
                          /\ runs (k answer) rest result
  | CallGetRagCorpus n k =>
      exists answer rest, trace = FetchedCorpus n answer :: rest
                          /\ runs (k answer) rest result
  | CallListRagFiles parent k =>
      exists answer rest, trace = ListedFiles parent answer :: rest
                          /\ runs (k answer) rest result
  end.

(** ** Vocabulary of the statements *)

(** A string without any slash. *)
Fixpoint slash_free (s : string) : bool :=
  match s with
  | EmptyString => true
  | String c r => negb (Js.is_slash c) && slash_free r
  end.

(** What may follow a segment: the end of the input or a slash. *)
Definition boundary (r : string) : Prop := r = "" \/ exists r', r = String "/" r'.

(** A string made of white space only (the empty string included). *)
Fixpoint blank (s : string) : bool :=
  match s with
  | EmptyString => true
  | String c r => Js.is_space c && blank r
  end.

(** The candidates of a corpus that contain the query, with their scores,
    in the order the inner loop visits them. *)
Definition hits (normalizedQuery : string) (corpus : CorpusRecord)
  : list (Z * CorpusMatchResult) :=
  flat_map (fun candidate =>
              match score_of normalizedQuery candidate with
              | Some score => [(score, match_of corpus)]
              | None => []
              end) (candidates corpus).

Definition all_hits (normalizedQuery : string) (corpora : list CorpusRecord)
  : list (Z * CorpusMatchResult) := flat_map (hits normalizedQuery) corpora.

(** One update of [bestMatch]/[bestScore]. *)
Definition pick (best : Best) (hit : Z * CorpusMatchResult) : Best :=
  if beats (fst hit) (snd best) then (Some (snd hit), Some (fst hit)) else best.

(** The first hit of a list whose score no other hit exceeds. *)
Definition first_highest (l : list (Z * CorpusMatchResult)) (hit : Z * CorpusMatchResult)
  : Prop :=
  exists l1 l2, l = (l1 ++ hit :: l2)%list
    /\ (forall x, In x l1 -> fst x < fst hit)
    /\ (forall x, In x l2 -> fst x <= fst hit).

(** A world whose registry lists [corpora]. *)
Definition lists (w : World) (corpora : list CorpusRecord) : Prop :=
  registry w = Listed corpora.

(** The same world with another answer of the registry. *)
Definition with_registry (answer : listing) (w : World) : World :=
  {| registry := answer; retriever := retriever w |}.

(** [state.get('current_corpus')], when the context has a state. *)
Definition current_corpus_of (toolContext : option ToolContext) : option jsval :=
  match state_of toolContext with Some st => st !! "current_corpus" | None => None end.

(** The match is confirmed by the exact comparison of [checkCorpusExists]. *)
Definition exact_match (cfg : Config) (corpusName : string) (corpus : CorpusRecord) : bool :=
  field_is (corpus_name corpus) (getCorpusResourceName cfg corpusName)
  || field_is (corpus_displayName corpus) corpusName.




(** A string made of the characters [a-zA-Z0-9_-] only. *)
Fixpoint all_id_chars (s : string) : bool :=
  match s with
  | EmptyString => true
  | String c r => is_id_char c && all_id_chars r
  end.

(** Some candidate of the corpus contains the query. *)
Definition has_hit (normalizedQuery : string) (corpus : CorpusRecord) : Prop :=
  exists candidate, In candidate (candidates corpus)
                    /\ score_of normalizedQuery candidate <> None.

(** The name kept as [current_corpus] after a successful query on
    [corpus]: [match.displayName || match.resourceName]. *)
Definition canonical_name (corpus : CorpusRecord) : string :=
  Js.or_else (text_of (corpus_displayName corpus)) (text_of (corpus_name corpus)).

(** Field by field concatenation of two results of [parsePaths]. *)
Definition merge (a b : ParsedPaths) : ParsedPaths :=
  {| validated := validated a ++ validated b;
     invalid := invalid a ++ invalid b;
     conversions := conversions a ++ conversions b;
     gcsPaths := gcsPaths a ++ gcsPaths b;
     driveFileIds := driveFileIds a ++ driveFileIds b |}.

(** A result in which nothing was rejected nor converted. *)
Definition settled (r : ParsedPaths) : ParsedPaths :=
  {| validated := validated r; invalid := []; conversions := [];
     gcsPaths := gcsPaths r; driveFileIds := driveFileIds r |}.

(** A string without any colon. *)
Fixpoint colon_free (s : string) : bool :=
  match s with
  | EmptyString => true
  | String c r => negb (Ascii.eqb c ":"%char) && colon_free r
  end.

(** The four ways a single path can end. *)
Inductive path_outcome (p : string) : ParsedPaths -> Prop :=
| path_blank :
    path_outcome p {| validated := []; invalid := [p +:+ " (Not a valid or empty string)"];
                      conversions := []; gcsPaths := []; driveFileIds := [] |}
| path_unknown :
    path_outcome p {| validated := []; invalid := [p +:+ " (Invalid format)"];
                      conversions := []; gcsPaths := []; driveFileIds := [] |}
| path_drive id convs :
    id <> "" -> all_id_chars id = true -> (length convs <= 1)%nat ->
    path_outcome p {| validated := [Url.drive_url id]; invalid := [];
                      conversions := convs; gcsPaths := []; driveFileIds := [id] |}
| path_gcs :
    Js.starts_with "gs://" p = true ->
    parse_path no_paths p = {| validated := [p]; invalid := []; conversions := [];
                               gcsPaths := [p]; driveFileIds := [] |} ->
    path_outcome p {| validated := [p]; invalid := []; conversions := [];
                      gcsPaths := [p]; driveFileIds := [] |}.

(** What the existence check shows and returns, in any run. *)
Definition check_answer (cfg : Config) (corpusName : string)
    (toolContext : option ToolContext) (answer : listing) : bool * option ToolContext :=
  match answer with
  | Listed corpora =>
      if existsb (exact_match cfg corpusName) corpora
      then (true, record_match corpusName toolContext)
      else (false, toolContext)
  | ListingFailed => (false, toolContext)
  end.

(** A match of the exact resolution was read in a listing. *)
Definition resolved_in (cfg : Config) (corpusName : string) (answer : listing)
    (h : CorpusMatchResult) : Prop :=
  exists corpora corpus,
    answer = Listed corpora /\ In corpus corpora
    /\ corpus_name corpus = Some (resourceName h)
    /\ exact_match cfg corpusName corpus = true.

(** A trace made of listing calls only. *)
Definition only_listings (trace : list event) : Prop :=
  forall e, In e trace -> exists parent answer, e = ListedCorpora parent answer.

(** Some listing of the trace holds an exact match of the identifier. *)
Definition confirmed_by (cfg : Config) (corpusName : string) (trace : list event) : Prop :=
  exists parent corpora,
    In (ListedCorpora parent (Listed corpora)) trace
    /\ existsb (exact_match cfg corpusName) corpora = true.

(** Where a resolved name comes from: the identifier itself when it is of
    the full pattern, else a listed corpus that matches it exactly. *)
Definition resolved_from (cfg : Config) (corpusName : string) (trace : list event)
    (h : CorpusMatchResult) : Prop :=
  (Pattern.isFullResourceName corpusName = true /\ resourceName h = corpusName)
  \/ exists parent answer,
       In (ListedCorpora parent answer) trace /\ resolved_in cfg corpusName answer h.

(** The guard of the tools: the existence check when there is a context,
    else the answer [otherwise]. *)
Definition guard (cfg : Config) (corpusName : string) (tool_context : option ToolContext)
    (otherwise : bool) : tool (bool * option ToolContext) :=
  match tool_context with
  | Some _ => lift (checkCorpusExists cfg corpusName tool_context)
  | None => Done (otherwise, tool_context)
  end.

(** The configuration [addData] sends for the Drive files of [pathsInfo]. *)
Definition drive_config (pathsInfo : ParsedPaths) : ImportConfig :=
  {| resourceIds := driveFileIds pathsInfo;
     chunkSize := DEFAULT_CHUNK_SIZE;
     chunkOverlap := DEFAULT_CHUNK_OVERLAP;
     maxEmbeddingRequestsPerMin := DEFAULT_EMBEDDING_REQUESTS_PER_MIN |}.

(** A path in which the parser finds nothing to validate. *)
Definition unusable (p : string) : Prop :=
  Url.search Url.docs_at p = None /\ Url.search Url.drive_at p = None
  /\ Js.starts_with "gs://" p = false.

(** The operations kept by the first loop. *)
Definition kept (answers : list import_call) : list import_result :=
  flat_map (fun answer => match answer with Started op => [op] | _ => [] end) answers.

(** The counts read in the second loop: those of the operations that
    resolve, in order. *)
Definition counts_of (operations : list import_result) : list files_count :=
  flat_map (fun op => match op with Resolved count => [count] | Rejected => [] end)
           operations.

(** A count as it is appended to a text. *)
Definition count_text (count : files_count) : string :=
  match count with
  | LongCount value => long_text value
  | NoCount => "0"
  end.

Fixpoint counts_text (counts : list files_count) : string :=
  match counts with
  | [] => EmptyString
  | count :: rest => count_text count +:+ counts_text rest
  end.

(** What the counts leave in [total]: the number 0 as long as no response
    carries a count, and from the first one that does the text made of
    [0] and of the counts, one after the other. *)
Fixpoint reported_total (counts : list files_count) : jstotal :=
  match counts with
  | [] => JsNumber 0
  | NoCount :: rest => reported_total rest
  | LongCount value :: rest => JsText ("0" +:+ long_text value +:+ counts_text rest)
  end.

(** The answer is not an exception of the call. *)
Definition call_went_through (answer : import_call) : Prop :=
  forall errorMessage, answer <> ImportCallFailed errorMessage.

(** The import calls for [configs] with their answers, in order. *)
Definition import_events (parent : string) (configs : list ImportConfig)
    (answers : list import_call) : list event :=
  map (fun ca => ImportedFiles parent (fst ca) (snd ca)) (combine configs answers).

(** ** Sample data used by the instances below *)

Definition sample_cfg : Config := {| PROJECT_ID := Some "p"; LOCATION := Some "l" |}.

Definition world_of (answer : listing) : World :=
  {| registry := answer; retriever := Retrieved [] |}.

Definition notes_a : CorpusRecord :=
  {| corpus_name := Some "projects/p/locations/l/ragCorpora/1";
     corpus_displayName := Some "Notes A" |}.

Definition notes : CorpusRecord :=
  {| corpus_name := Some "projects/p/locations/l/ragCorpora/2";
     corpus_displayName := Some "Notes" |}.

Definition research_notes : CorpusRecord :=
  {| corpus_name := Some "projects/p/locations/l/ragCorpora/3";
     corpus_displayName := Some "Research Notes" |}.

(** The session after a check of [Notes] that the listing confirmed, and
    after the corpus was then deleted under its resource name. *)
Definition notes_checked : option ToolContext := record_match "Notes" (with_state ∅).

Definition notes_deleted : option ToolContext :=
  invalidateCorpusExistsState "projects/p/locations/l/ragCorpora/2"
    (record_match "projects/p/locations/l/ragCorpora/2" notes_checked).

(** * Properties *)

(** ** Strings *)

Section StringFacts.

Lemma append_cons (x : ascii) (a b : string) : String x a +:+ b = String x (a +:+ b).
Proof. reflexivity. Qed.

Lemma append_nil (b : string) : "" +:+ b = b.
Proof. reflexivity. Qed.

Lemma append_assoc (a b c : string) : (a +:+ b) +:+ c = a +:+ (b +:+ c).
Proof.
  induction a as [|x a IH]; [reflexivity |].
  rewrite !append_cons. now rewrite IH.
Qed.

Lemma append_empty_r (a : string) : a +:+ "" = a.
Proof.
  induction a as [|x a IH]; [reflexivity |].
  rewrite append_cons. now rewrite IH.
Qed.

Lemma nonempty_true (s : string) : Js.nonempty s = true <-> s <> "".
Proof. destruct s; simpl; split; congruence. Qed.

Lemma nonempty_false (s : string) : Js.nonempty s = false <-> s = "".
Proof. destruct s; simpl; split; congruence. Qed.

Lemma nonempty_map_chars f (s : string) : Js.nonempty (Js.map_chars f s) = Js.nonempty s.
Proof. now destruct s. Qed.

Lemma length_map_chars f (s : string) :
  String.length (Js.map_chars f s) = String.length s.
Proof. induction s as [|c s IH]; simpl; [reflexivity | now rewrite IH]. Qed.

Lemma get_map_chars f (s : string) (n : nat) :
  String.get n (Js.map_chars f s) = f <$> String.get n s.
Proof.
  revert n; induction s as [|c s IH]; intros [|n]; simpl; try reflexivity.
  apply IH.
Qed.

Lemma map_chars_idem f (s : string) :
  (forall c, f (f c) = f c) -> Js.map_chars f (Js.map_chars f s) = Js.map_chars f s.
Proof.
  intros Hf; induction s as [|c s IH]; simpl; [reflexivity | now rewrite Hf, IH].
Qed.

Lemma split_slash_not_nil (s : string) : Js.split_slash s <> [].
Proof.
  induction s as [|c s IH]; simpl; [discriminate |].
  destruct (Js.is_slash c); [discriminate |].
  destruct (Js.split_slash s); discriminate.
Qed.

Lemma split_slash_free (s : string) : slash_free s = true -> Js.split_slash s = [s].
Proof.
  induction s as [|c s IH]; simpl; [reflexivity |].
  intros [Hc Hs]%andb_prop. apply negb_true_iff in Hc. rewrite Hc, (IH Hs). reflexivity.
Qed.

(** Splitting at a slash: the segments after it are those of the rest. *)
Lemma split_slash_after (x y : string) :
  exists front, front <> [] /\
    Js.split_slash (x +:+ String "/" y) = (front ++ Js.split_slash y)%list.
Proof.
  induction x as [|c x (front & Hne & IH)].
  - exists [""]. split; [discriminate | reflexivity].
  - rewrite append_cons. simpl. destruct (Js.is_slash c).
    + exists ("" :: front). split; [discriminate |]. now rewrite IH.
    + rewrite IH. destruct front as [|h t]; [contradiction |].
      exists (String c h :: t). split; [discriminate | reflexivity].
Qed.

Lemma last_app_nonempty (l1 l2 : list string) d :
  l2 <> [] -> List.last (l1 ++ l2)%list d = List.last l2 d.
Proof.
  intros H. induction l1 as [|a l1 IH]; simpl; [reflexivity |].
  rewrite IH. destruct (l1 ++ l2)%list eqn:E; [|reflexivity].
  apply app_eq_nil in E. destruct E; contradiction.
Qed.

(** The segment after the last slash of [x/y] is that of [y]. *)
Lemma pop_split_after (x y : string) :
  Js.pop (Js.split_slash (x +:+ String "/" y)) = Js.pop (Js.split_slash y).
Proof.
  destruct (split_slash_after x y) as (front & _ & ->).
  unfold Js.pop. apply last_app_nonempty, split_slash_not_nil.
Qed.

Lemma pop_split_slash_free (x y : string) :
  slash_free y = true -> Js.pop (Js.split_slash (x +:+ String "/" y)) = y.
Proof.
  intros H. rewrite pop_split_after, (split_slash_free _ H). reflexivity.
Qed.

End StringFacts.

(** ** The resource-name pattern *)

Section PatternFacts.

Lemma is_slash_true (c : ascii) : Js.is_slash c = true <-> c = "/"%char.
Proof.
  split; [| now intros ->].
  destruct c as [[] [] [] [] [] [] [] []]; vm_compute; intros H;
    first [reflexivity | discriminate H].
Qed.

Lemma literal_spec (lit s r : string) : Pattern.literal lit s = Some r <-> s = lit +:+ r.
Proof.
  revert s; induction lit as [|a lit IH]; intros s; simpl.
  - rewrite append_nil. split; congruence.
  - rewrite append_cons. destruct s as [|b s]; [split; discriminate |].
    destruct (Ascii.eqb_spec a b) as [->|Hab].
    + rewrite IH. split; congruence.
    + split; [discriminate | congruence].
Qed.

Lemma skip_segment_spec (s : string) :
  exists p, slash_free p = true /\ s = p +:+ Pattern.skip_segment s
            /\ boundary (Pattern.skip_segment s).
Proof.
  induction s as [|c s (p & Hp & Hs & Hb)]; simpl.
  - exists "". repeat split. now left.
  - destruct (Js.is_slash c) eqn:E.
    + apply is_slash_true in E as ->. exists "". repeat split. right. now exists s.
    + exists (String c p). simpl. rewrite E, Hp, append_cons, <- Hs. now repeat split.
Qed.

Lemma skip_segment_app (p r : string) :
  slash_free p = true -> boundary r -> Pattern.skip_segment (p +:+ r) = r.
Proof.
  intros Hp Hr. induction p as [|c p IH].
  - rewrite append_nil. destruct Hr as [->|[r' ->]]; reflexivity.
  - simpl in Hp. apply andb_prop in Hp as [Hc Hp]. apply negb_true_iff in Hc.
    rewrite append_cons. simpl. rewrite Hc. now apply IH.
Qed.

Lemma segment_spec (s r : string) :
  Pattern.segment s = Some r <->
  exists p, p <> "" /\ slash_free p = true /\ s = p +:+ r /\ boundary r.
Proof.
  split.
  - destruct s as [|c s]; simpl; [discriminate |].
    destruct (Js.is_slash c) eqn:E; [discriminate |].
    intros [= <-]. destruct (skip_segment_spec s) as (p & Hp & Hs & Hb).
    exists (String c p). simpl. rewrite E, Hp, append_cons, <- Hs.
    repeat split; [discriminate | exact Hb].
  - intros (p & Hne & Hp & -> & Hb). destruct p as [|c p]; [contradiction |].
    simpl in Hp. apply andb_prop in Hp as [Hc Hp]. apply negb_true_iff in Hc.
    rewrite append_cons. simpl. rewrite Hc. f_equal. now apply skip_segment_app.
Qed.

(** The matcher accepts exactly the strings
    [projects/<p>/locations/<l>/ragCorpora/<id>] whose three segments are
    non-empty and free of slashes. *)
Lemma isFullResourceName_spec (s : string) :
  Pattern.isFullResourceName s = true <->
  exists p l id,
    (p <> "" /\ slash_free p = true) /\ (l <> "" /\ slash_free l = true)
    /\ (id <> "" /\ slash_free id = true)
    /\ s = "projects/" +:+ p +:+ "/locations/" +:+ l +:+ "/ragCorpora/" +:+ id.
Proof.
  unfold Pattern.isFullResourceName, Pattern.next. split.
  - destruct (Pattern.literal "projects/" s) as [s1|] eqn:E1; [|discriminate].
    destruct (Pattern.segment s1) as [s2|] eqn:E2; [|discriminate].
    destruct (Pattern.literal "/locations/" s2) as [s3|] eqn:E3; [|discriminate].
    destruct (Pattern.segment s3) as [s4|] eqn:E4; [|discriminate].
    destruct (Pattern.literal "/ragCorpora/" s4) as [s5|] eqn:E5; [|discriminate].
    destruct (Pattern.segment s5) as [[|c s6]|] eqn:E6; [|discriminate..].
    intros _.
    apply literal_spec in E1, E3, E5.
    apply segment_spec in E2 as (p & Hp1 & Hp2 & E2 & _).
    apply segment_spec in E4 as (l & Hl1 & Hl2 & E4 & _).
    apply segment_spec in E6 as (id & Hi1 & Hi2 & E6 & _).
    exists p, l, id. repeat split; try assumption.
    rewrite E1, E2, E3, E4, E5, E6, append_empty_r. reflexivity.
  - intros (p & l & id & [Hp1 Hp2] & [Hl1 Hl2] & [Hi1 Hi2] & ->).
    assert (L1 : Pattern.literal "projects/"
                   ("projects/" +:+ p +:+ "/locations/" +:+ l +:+ "/ragCorpora/" +:+ id)
                 = Some (p +:+ "/locations/" +:+ l +:+ "/ragCorpora/" +:+ id))
      by now apply literal_spec.
    rewrite L1.
    assert (S1 : Pattern.segment (p +:+ "/locations/" +:+ l +:+ "/ragCorpora/" +:+ id)
                 = Some ("/locations/" +:+ l +:+ "/ragCorpora/" +:+ id)).
    { apply segment_spec. exists p. repeat split; try assumption. right. eexists. reflexivity. }
    rewrite S1.
    assert (L2 : Pattern.literal "/locations/" ("/locations/" +:+ l +:+ "/ragCorpora/" +:+ id)
                 = Some (l +:+ "/ragCorpora/" +:+ id))
      by now apply literal_spec.
    rewrite L2.
    assert (S2 : Pattern.segment (l +:+ "/ragCorpora/" +:+ id)
                 = Some ("/ragCorpora/" +:+ id)).
    { apply segment_spec. exists l. repeat split; try assumption. right. eexists. reflexivity. }
    rewrite S2.
    assert (L3 : Pattern.literal "/ragCorpora/" ("/ragCorpora/" +:+ id) = Some id)
      by now apply literal_spec.
    rewrite L3.
    assert (S3 : Pattern.segment id = Some "").
    { apply segment_spec. exists id. repeat split; try assumption.
      - now rewrite append_empty_r.
      - now left. }
    now rewrite S3.
Qed.

Lemma full_name_last_segment (s : string) :
  Pattern.isFullResourceName s = true -> Js.pop (Js.split_slash s) <> "".
Proof.
  intros (p & l & id & _ & _ & [Hid Hfree] & ->)%isFullResourceName_spec.
  replace ("projects/" +:+ p +:+ "/locations/" +:+ l +:+ "/ragCorpora/" +:+ id)
    with (("projects/" +:+ p +:+ "/locations/" +:+ l +:+ "/ragCorpora") +:+ String "/" id)
    by (now rewrite !append_assoc).
  now rewrite (pop_split_slash_free _ _ Hfree).
Qed.

End PatternFacts.

(** ** The canonicaliser *)

Section Canonicaliser.

Variable cfg : Config.

Lemma id_char_not_slash (c : ascii) : is_id_char c = true -> Js.is_slash c = false.
Proof.
  destruct c as [[] [] [] [] [] [] [] []]; vm_compute; intros H;
    first [reflexivity | discriminate H].
Qed.

Lemma clean_char_is_id (c : ascii) : is_id_char (clean_char c) = true.
Proof. unfold clean_char. destruct (is_id_char c) eqn:E; [exact E | reflexivity]. Qed.

Lemma clean_char_idem (c : ascii) : clean_char (clean_char c) = clean_char c.
Proof. unfold clean_char at 1. now rewrite clean_char_is_id. Qed.

Lemma clean_slash_free (s : string) : slash_free (Js.map_chars clean_char s) = true.
Proof.
  induction s as [|c s IH]; simpl; [reflexivity |].
  now rewrite (id_char_not_slash _ (clean_char_is_id c)), IH.
Qed.

(** The constructed name ends in a slash followed by the cleaned id. *)
Lemma resource_prefix_slash :
  exists x, forall y, resource_prefix cfg +:+ y = x +:+ String "/" y.
Proof.
  exists ("projects/" +:+ interpolate (PROJECT_ID cfg) +:+ "/locations/"
          +:+ interpolate (LOCATION cfg) +:+ "/ragCorpora").
  intros y. unfold resource_prefix.
  repeat rewrite append_assoc. reflexivity.
Qed.

(** A constructed name with a non-empty id is a fixed point. *)
Lemma constructed_fixed (id : string) :
  id <> "" ->
  getCorpusResourceName cfg (resource_prefix cfg +:+ Js.map_chars clean_char id)
  = resource_prefix cfg +:+ Js.map_chars clean_char id.
Proof.
  intros Hid. unfold getCorpusResourceName.
  destruct (Pattern.isFullResourceName _); [reflexivity |].
  destruct resource_prefix_slash as [x Hx]. rewrite (Hx (Js.map_chars clean_char id)).
  rewrite pop_split_slash_free by apply clean_slash_free.
  unfold Js.or_else. rewrite nonempty_map_chars.
  apply nonempty_true in Hid. rewrite Hid.
  rewrite map_chars_idem by apply clean_char_idem.
  now rewrite <- Hx.
Qed.

Lemma corpus_id_nonempty (s : string) :
  s <> "" -> Js.or_else (Js.pop (Js.split_slash s)) s <> "".
Proof.
  intros Hs. unfold Js.or_else.
  destruct (Js.nonempty _) eqn:E; [now apply nonempty_true | exact Hs].
Qed.

Lemma canonical_idempotent (s : string) :
  s <> "" ->
  getCorpusResourceName cfg (getCorpusResourceName cfg s) = getCorpusResourceName cfg s.
Proof.
  intros Hs. unfold getCorpusResourceName at 2 3.
  destruct (Pattern.isFullResourceName s) eqn:E.
  - unfold getCorpusResourceName. now rewrite E.
  - apply constructed_fixed, corpus_id_nonempty, Hs.
Qed.

End Canonicaliser.

(** ** Substring search *)

Section IndexOf.





End IndexOf.

(** ** The ranked resolver *)

Section Resolver.

Lemma fold_left_flat_map {X Y S : Type} (f : S -> Y -> S) (g : X -> list Y) (l : list X) (s0 : S) :
  fold_left f (flat_map g l) s0 = fold_left (fun s x => fold_left f (g x) s) l s0.
Proof.
  revert s0; induction l as [|x l IH]; intros s0; simpl; [reflexivity |].
  now rewrite fold_left_app, IH.
Qed.

Lemma consider_corpus_hits (nq : string) (corpus : CorpusRecord) (best : Best) :
  consider_corpus nq best corpus = fold_left pick (hits nq corpus) best.
Proof.
  unfold consider_corpus, hits. rewrite fold_left_flat_map.
  generalize (candidates corpus) as cands. intros cands. revert best.
  induction cands as [|cand cands IH]; intros best; simpl; [reflexivity |].
  rewrite IH. f_equal. unfold consider.
  destruct (score_of nq cand); reflexivity.
Qed.

(** The two nested loops visit the hits in listing order. *)
Lemma best_of_hits (nq : string) (corpora : list CorpusRecord) :
  best_of nq corpora = fold_left pick (all_hits nq corpora) (None, None).
Proof.
  unfold best_of, all_hits. rewrite fold_left_flat_map.
  generalize ((None, None) : Best) as best.
  induction corpora as [|c corpora IH]; intros best; simpl; [reflexivity |].
  now rewrite consider_corpus_hits, IH.
Qed.

Lemma pick_below (s : Z) (l : list (Z * CorpusMatchResult)) (best : Best) :
  (forall x, In x l -> fst x < s) ->
  beats s (snd best) = true -> beats s (snd (fold_left pick l best)) = true.
Proof.
  revert best; induction l as [|x l IH]; intros best Hl Hb; simpl; [exact Hb |].
  apply IH; [intros y Hy; apply Hl; now right |].
  unfold pick. destruct (beats (fst x) (snd best)); [|exact Hb].
  simpl. apply Z.ltb_lt, Hl. now left.
Qed.

Lemma pick_keeps (s : Z) (h : CorpusMatchResult) (l : list (Z * CorpusMatchResult)) :
  (forall x, In x l -> fst x <= s) -> fold_left pick l (Some h, Some s) = (Some h, Some s).
Proof.
  induction l as [|x l IH]; intros Hl; simpl; [reflexivity |].
  unfold pick at 2. simpl.
  assert (E : (s <? fst x) = false) by (apply Z.ltb_ge, Hl; now left).
  rewrite E. apply IH. intros y Hy. apply Hl. now right.
Qed.

(** The loop ends on the first hit of highest score. *)
Lemma pick_first_highest (l : list (Z * CorpusMatchResult)) (hit : Z * CorpusMatchResult) :
  first_highest l hit -> fold_left pick l (None, None) = (Some (snd hit), Some (fst hit)).
Proof.
  intros (l1 & l2 & -> & H1 & H2).
  rewrite fold_left_app. simpl.
  assert (Hb : beats (fst hit) (snd (fold_left pick l1 (None, None))) = true)
    by (apply pick_below; [exact H1 | reflexivity]).
  unfold pick at 2. rewrite Hb. now apply pick_keeps.
Qed.

Lemma first_highest_exists (l : list (Z * CorpusMatchResult)) :
  l <> [] -> exists hit, first_highest l hit.
Proof.
  induction l as [|x l IH]; [congruence | intros _].
  destruct l as [|y l].
  - exists x, [], []. repeat split; intros z [].
  - destruct IH as (hit & l1 & l2 & E & H1 & H2); [discriminate |].
    destruct (Z_lt_le_dec (fst x) (fst hit)) as [Hlt|Hge].
    + exists hit, (x :: l1), l2. rewrite E. repeat split; [|exact H2].
      intros z [<-|Hz]; [exact Hlt | now apply H1].
    + exists x, [], (y :: l). repeat split; [intros z [] |].
      intros z Hz. rewrite E in Hz. apply in_app_or in Hz as [Hz|[<-|Hz]].
      * apply H1 in Hz. lia.
      * exact Hge.
      * apply H2 in Hz. lia.
Qed.

Lemma in_hits (nq : string) (corpus : CorpusRecord) (x : Z * CorpusMatchResult) :
  In x (hits nq corpus) <->
  exists candidate, In candidate (candidates corpus)
    /\ score_of nq candidate = Some (fst x) /\ snd x = match_of corpus.
Proof.
  unfold hits. rewrite in_flat_map. split.
  - intros (cand & Hin & Hx). exists cand. destruct (score_of nq cand); [|destruct Hx].
    destruct Hx as [<-|[]]. now repeat split.
  - intros (cand & Hin & Hs & Hm). exists cand. split; [exact Hin |].
    rewrite Hs. left. destruct x; simpl in *; now subst.
Qed.

Lemma in_all_hits (nq : string) (corpora : list CorpusRecord) (x : Z * CorpusMatchResult) :
  In x (all_hits nq corpora) <->
  exists corpus candidate, In corpus corpora /\ In candidate (candidates corpus)
    /\ score_of nq candidate = Some (fst x) /\ snd x = match_of corpus.
Proof.
  unfold all_hits. rewrite in_flat_map. split.
  - intros (c & Hc & Hx). apply in_hits in Hx as (cand & H). now exists c, cand.
  - intros (c & cand & Hc & H). exists c. split; [exact Hc |]. apply in_hits. now exists cand.
Qed.

(** What the loops leave in [bestMatch]. *)
Lemma best_of_spec (nq : string) (corpora : list CorpusRecord) :
  (all_hits nq corpora = [] /\ fst (best_of nq corpora) = None)
  \/ (exists hit, first_highest (all_hits nq corpora) hit
                  /\ fst (best_of nq corpora) = Some (snd hit)).
Proof.
  rewrite best_of_hits. destruct (all_hits nq corpora) as [|x l] eqn:E.
  - left. now split.
  - right. destruct (first_highest_exists (x :: l)) as [hit Hhit]; [discriminate |].
    exists hit. split; [exact Hhit |]. now rewrite (pick_first_highest _ _ Hhit).
Qed.

Lemma first_highest_in (l : list (Z * CorpusMatchResult)) (hit : Z * CorpusMatchResult) :
  first_highest l hit -> In hit l /\ forall x, In x l -> fst x <= fst hit.
Proof.
  intros (l1 & l2 & -> & H1 & H2). split.
  - apply in_or_app. right. now left.
  - intros x Hx. apply in_app_or in Hx as [Hx|[<-|Hx]].
    + apply H1 in Hx. lia.
    + lia.
    + now apply H2.
Qed.

(** On a configured system with a non-blank query the resolver makes one
    listing call and returns what the loops found. *)
Lemma findBest_listed (cfg : Config) (q : string) (w : World) (corpora : list CorpusRecord) :
  unconfigured cfg = false -> normalize q <> "" -> lists w corpora ->
  exec w (findBestMatchingCorpus cfg q) = Some (fst (best_of (normalize q) corpora)).
Proof.
  intros Hc Hq Hw. unfold findBestMatchingCorpus.
  apply nonempty_true in Hq. rewrite Hq, Hc. simpl. now rewrite Hw.
Qed.

End Resolver.

(** ** Claims on the ranked resolver *)

Section ResolverClaims.







Lemma score_bound (nq : string) (candidate : CorpusMatchCandidate) (sc : Z) :
  score_of nq candidate = Some sc ->
  sc <= Z.of_nat (String.length nq) * 100 + preference candidate.
Proof.
  unfold score_of. destruct (Js.indexOf nq _) as [i|]; [|discriminate].
  intros [= <-]. lia.
Qed.

Lemma hit_bound (nq : string) (corpora : list CorpusRecord) (x : Z * CorpusMatchResult) :
  In x (all_hits nq corpora) -> fst x <= Z.of_nat (String.length nq) * 100 + 30.
Proof.
  intros (corpus & cand & _ & Hcand & Hs & _)%in_all_hits.
  apply score_bound in Hs.
  destruct Hcand as [<-|[<-|[<-|[]]]]; simpl in Hs; lia.
Qed.

(** A corpus whose display name starts with the query wins over every
    corpus listed after it. *)
Lemma display_prefix_first (nq : string) (corpus : CorpusRecord) (rest : list CorpusRecord) :
  score_of nq {| value := text_of (corpus_displayName corpus); preference := 30 |}
  = Some (Z.of_nat (String.length nq) * 100 + 30) ->
  fst (best_of nq (corpus :: rest)) = Some (match_of corpus).
Proof.
  intros Hs. rewrite best_of_hits.
  set (top := (Z.of_nat (String.length nq) * 100 + 30, match_of corpus)).
  assert (E : exists tail, all_hits nq (corpus :: rest) = top :: tail).
  { unfold all_hits. simpl. unfold hits at 1. simpl. rewrite Hs. simpl. eauto. }
  destruct E as [tail E].
  rewrite (pick_first_highest _ top); [reflexivity |].
  exists [], tail. split; [exact E |]. split; [intros x [] |].
  intros x Hx. apply (hit_bound nq (corpus :: rest)). rewrite E. now right.
Qed.

(** C2 (as amended).  For two listed corpora with the display names
    [Notes A] and [Notes], the query [Notes] gives both display names the
    same score 530 (both matches are at offset 0), so the match on [Notes]
    scores at least as high as the one on [Notes A]; the corpus returned
    is the one listed first, whichever it is. *)
Theorem notes_tie_first_listed_wins (cfg : Config) (a b : CorpusRecord) (w1 w2 : World) :
  unconfigured cfg = false ->
  corpus_displayName a = Some "Notes A" -> corpus_displayName b = Some "Notes" ->
  lists w1 [a; b] -> lists w2 [b; a] ->
  score_of (normalize "Notes") {| value := "Notes"; preference := 30 |} = Some 530
  /\ score_of (normalize "Notes") {| value := "Notes A"; preference := 30 |} = Some 530
  /\ exec w1 (findBestMatchingCorpus cfg "Notes") = Some (Some (match_of a))
  /\ exec w2 (findBestMatchingCorpus cfg "Notes") = Some (Some (match_of b)).
Proof.
  intros Hcfg Ha Hb H1 H2. split; [reflexivity |]. split; [reflexivity |].
  assert (Hq : normalize "Notes" <> "") by (vm_compute; discriminate).
  rewrite (findBest_listed _ _ _ _ Hcfg Hq H1), (findBest_listed _ _ _ _ Hcfg Hq H2).
  split; f_equal; apply display_prefix_first.
  - now rewrite Ha.
  - now rewrite Hb.
Qed.

Lemma notes_tie_first_listed_wins_witness :
  score_of (normalize "Notes") {| value := "Notes"; preference := 30 |} = Some 530
  /\ score_of (normalize "Notes") {| value := "Notes A"; preference := 30 |} = Some 530
  /\ exec (world_of (Listed [notes_a; notes])) (findBestMatchingCorpus sample_cfg "Notes")
     = Some (Some (match_of notes_a))
  /\ exec (world_of (Listed [notes; notes_a])) (findBestMatchingCorpus sample_cfg "Notes")
     = Some (Some (match_of notes)).
Proof.
  apply (notes_tie_first_listed_wins sample_cfg notes_a notes
           (world_of (Listed [notes_a; notes])) (world_of (Listed [notes; notes_a])));
    reflexivity.
Defined.

(** C2 (as stated) fails: when [Notes A] is listed before [Notes], the
    query [Notes] returns the corpus named [Notes A]. *)
Lemma notes_a_listed_first_counterexample :
  exec (world_of (Listed [notes_a; notes])) (findBestMatchingCorpus sample_cfg "Notes")
  = Some (Some {| resourceName := "projects/p/locations/l/ragCorpora/1";
                  displayName := Some "Notes A" |}).
Proof. reflexivity. Qed.

End ResolverClaims.

(** ** The session cache *)

Section SessionCache.

Lemma exists_key_not_current (corpusName : string) :
  exists_key corpusName <> "current_corpus".
Proof. unfold exists_key. intros H. cbv in H. discriminate H. Qed.

Lemma holds_insert_ne (st : State) (k k' : string) (v : jsval) :
  k <> k' -> holds (<[k := v]> st) k' = holds st k'.
Proof. intros H. unfold holds. now rewrite lookup_insert_ne. Qed.

Lemma holds_false_cases (st : State) (k : string) :
  st !! k = None \/ st !! k = Some (VBool false) -> holds st k = false.
Proof. unfold holds. intros [->| ->]; reflexivity. Qed.

(** The state after a confirmed match. *)
Lemma record_match_state (corpusName : string) (st : State) :
  record_match corpusName (with_state st)
  = with_state (if holds st "current_corpus"
                then <[exists_key corpusName := VBool true]> st
                else <["current_corpus" := VStr corpusName]>
                       (<[exists_key corpusName := VBool true]> st)).
Proof.
  unfold record_match, with_state. simpl.
  rewrite holds_insert_ne by apply exists_key_not_current.
  destruct (holds st "current_corpus"); reflexivity.
Qed.

Lemma scan_corpora_spec (cfg : Config) (corpusName : string)
    (toolContext : option ToolContext) (corpora : list CorpusRecord) :
  scan_corpora (getCorpusResourceName cfg corpusName) corpusName toolContext corpora
  = if existsb (exact_match cfg corpusName) corpora
    then (true, record_match corpusName toolContext)
    else (false, toolContext).
Proof.
  induction corpora as [|c corpora IH]; simpl; [reflexivity |].
  unfold exact_match at 1.
  destruct (field_is (corpus_name c) _ || field_is (corpus_displayName c) _);
    [reflexivity | exact IH].
Qed.

(** The existence check when it reaches the listing. *)
Lemma check_listed (cfg : Config) (corpusName : string)
    (toolContext : option ToolContext) (w : World) (corpora : list CorpusRecord) :
  unconfigured cfg = false -> cache_hit corpusName toolContext = false ->
  lists w corpora ->
  exec w (checkCorpusExists cfg corpusName toolContext)
  = Some (if existsb (exact_match cfg corpusName) corpora
          then (true, record_match corpusName toolContext)
          else (false, toolContext)).
Proof.
  intros Hcfg Hmiss Hw. unfold checkCorpusExists. rewrite Hcfg, Hmiss. simpl.
  rewrite Hw. simpl. now rewrite scan_corpora_spec.
Qed.

Lemma field_is_true (field : option string) (s : string) :
  field_is field s = true <-> field = Some s.
Proof.
  destruct field as [x|]; simpl; [|split; discriminate].
  rewrite String.eqb_eq. split; congruence.
Qed.

Lemma exact_match_spec (cfg : Config) (corpusName : string) (corpora : list CorpusRecord) :
  existsb (exact_match cfg corpusName) corpora = true <->
  exists corpus, In corpus corpora
    /\ (corpus_name corpus = Some (getCorpusResourceName cfg corpusName)
        \/ corpus_displayName corpus = Some corpusName).
Proof.
  rewrite existsb_exists. split; intros (c & Hin & H); exists c; (split; [exact Hin |]).
  - unfold exact_match in H. apply orb_prop in H as [H|H]; apply field_is_true in H; auto.
  - unfold exact_match. apply orb_true_iff.
    destruct H as [H|H]; apply field_is_true in H; auto.
Qed.

Lemma invalidate_state (corpusName : string) (st : State) :
  invalidateCorpusExistsState corpusName (with_state st)
  = with_state (if holds st (exists_key corpusName)
                then <[exists_key corpusName := VBool false]> st else st).
Proof.
  unfold invalidateCorpusExistsState, with_state. simpl.
  destruct (holds st (exists_key corpusName)); reflexivity.
Qed.

End SessionCache.

(** ** Claims on the existence check and the session cache *)

Section CacheClaims.

(** C5 (as amended).  When the listing confirms the identifier, the
    existence check sets [corpus_exists_<identifier>] to true and sets
    [current_corpus] to the identifier if and only if the stored
    [current_corpus] is missing or falsy (the empty string, [false]); a
    truthy [current_corpus] is kept, and no other key changes. *)
Theorem confirmed_existence_recorded
    (cfg : Config) (corpusName : string) (st : State) (w : World)
    (corpora : list CorpusRecord) :
  unconfigured cfg = false -> holds st (exists_key corpusName) = false ->
  lists w corpora -> existsb (exact_match cfg corpusName) corpora = true ->
  exists st',
    exec w (checkCorpusExists cfg corpusName (with_state st)) = Some (true, with_state st')
    /\ st' !! exists_key corpusName = Some (VBool true)
    /\ st' !! "current_corpus"
       = (if holds st "current_corpus" then st !! "current_corpus"
          else Some (VStr corpusName))
    /\ forall k, k <> exists_key corpusName -> k <> "current_corpus" -> st' !! k = st !! k.
Proof.
  intros Hcfg Hmiss Hw Hex.
  rewrite (check_listed cfg corpusName (with_state st) w corpora Hcfg Hmiss Hw), Hex.
  rewrite record_match_state.
  pose proof (exists_key_not_current corpusName) as Hne.
  destruct (holds st "current_corpus"); eexists; (split; [reflexivity |]).
  - split; [apply lookup_insert_eq |]. split; [now apply lookup_insert_ne |].
    intros k Hk _. now apply lookup_insert_ne.
  - split; [rewrite lookup_insert_ne by congruence; apply lookup_insert_eq |].
    split; [apply lookup_insert_eq |].
    intros k Hk Hc. rewrite lookup_insert_ne by congruence. now apply lookup_insert_ne.
Qed.

Lemma confirmed_existence_recorded_witness :
  exists st',
    exec (world_of (Listed [notes_a; notes]))
         (checkCorpusExists sample_cfg "Notes" (with_state ∅)) = Some (true, with_state st')
    /\ st' !! exists_key "Notes" = Some (VBool true)
    /\ st' !! "current_corpus"
       = (if holds (∅ : State) "current_corpus" then (∅ : State) !! "current_corpus"
          else Some (VStr "Notes"))
    /\ forall k, k <> exists_key "Notes" -> k <> "current_corpus" ->
                 st' !! k = (∅ : State) !! k.
Proof.
  apply (confirmed_existence_recorded sample_cfg "Notes" ∅
           (world_of (Listed [notes_a; notes])) [notes_a; notes]); reflexivity.
Defined.

(** C5 (as stated) fails: a session whose [current_corpus] holds the empty
    string has a value set, and the check overwrites it. *)
Lemma empty_current_corpus_counterexample :
  ({["current_corpus" := VStr ""]} : State) !! "current_corpus" = Some (VStr "")
  /\ exists st',
       exec (world_of (Listed [notes]))
            (checkCorpusExists sample_cfg "Notes"
               (with_state {["current_corpus" := VStr ""]}))
       = Some (true, with_state st')
       /\ st' !! "current_corpus" = Some (VStr "Notes").
Proof.
  split; [reflexivity |]. eexists. split; [reflexivity |]. reflexivity.
Qed.

(** That state is one the check itself produces: the empty identifier is
    confirmed by a listed corpus without display name (the registry sends
    the empty string for it). *)
Lemma empty_current_corpus_reachable :
  exec (world_of (Listed [{| corpus_name := Some "projects/p/locations/l/ragCorpora/9";
                             corpus_displayName := Some "" |}]))
       (checkCorpusExists sample_cfg "" (with_state ∅))
  = Some (true, with_state (<["current_corpus" := VStr ""]>
                              (<[exists_key "" := VBool true]> ∅))).
Proof. reflexivity. Qed.

(** C6.  [invalidateCorpusExistsState] turns a true existence flag into
    false, changes nothing at all when the flag is missing or already
    false (or when there is no state), and never touches [current_corpus]
    or any other key. *)
Theorem invalidate_resets_flag_only (corpusName : string) (st : State) :
  exists st',
    invalidateCorpusExistsState corpusName (with_state st) = with_state st'
    /\ (st !! exists_key corpusName = Some (VBool true) ->
        st' !! exists_key corpusName = Some (VBool false))
    /\ (st !! exists_key corpusName = None \/ st !! exists_key corpusName = Some (VBool false) ->
        st' = st)
    /\ st' !! "current_corpus" = st !! "current_corpus"
    /\ (forall k, k <> exists_key corpusName -> st' !! k = st !! k)
    /\ invalidateCorpusExistsState corpusName None = None
    /\ invalidateCorpusExistsState corpusName (Some {| state := None |})
       = Some {| state := None |}.
Proof.
  rewrite invalidate_state. eexists. split; [reflexivity |].
  assert (Hother : forall k, k <> exists_key corpusName ->
            (if holds st (exists_key corpusName)
             then <[exists_key corpusName := VBool false]> st else st) !! k = st !! k).
  { intros k Hk. destruct (holds st (exists_key corpusName)); [|reflexivity].
    now apply lookup_insert_ne. }
  repeat split.
  - intros H. unfold holds. rewrite H. simpl. apply lookup_insert_eq.
  - intros H. now rewrite (holds_false_cases _ _ H).
  - apply Hother. pose proof (exists_key_not_current corpusName). congruence.
  - exact Hother.
Qed.

Lemma invalidate_resets_flag_only_witness :
  exists st',
    invalidateCorpusExistsState "Notes"
      (with_state (<[exists_key "Notes" := VBool true]> {["current_corpus" := VStr "Notes"]}))
    = with_state st'
    /\ st' !! exists_key "Notes" = Some (VBool false)
    /\ st' !! "current_corpus" = Some (VStr "Notes").
Proof.
  destruct (invalidate_resets_flag_only "Notes"
              (<[exists_key "Notes" := VBool true]> {["current_corpus" := VStr "Notes"]}))
    as (st' & E & Hset & _ & Hcur & _).
  exists st'. split; [exact E |]. split.
  - apply Hset. reflexivity.
  - rewrite Hcur. reflexivity.
Defined.

End CacheClaims.

(** ** Claims on failures and on what resolution returns *)

Section ResolutionClaims.

Lemma exec_bind {A B : Type} (w : World) (p : prog A) (f : A -> prog B) :
  exec w (bind p f) = match exec w p with Some a => exec w (f a) | None => None end.
Proof. induction p as [a|parent k IH|c q k IH|]; simpl; auto. Qed.

Lemma no_score_no_hit (nq : string) (corpora : list CorpusRecord) :
  (forall corpus candidate, In corpus corpora -> In candidate (candidates corpus) ->
     score_of nq candidate = None) ->
  all_hits nq corpora = [].
Proof.
  intros H. destruct (all_hits nq corpora) as [|x l] eqn:E; [reflexivity |].
  assert (Hin : In x (all_hits nq corpora)) by (rewrite E; now left).
  apply in_all_hits in Hin as (c & cand & Hc & Hcand & Hs & _).
  rewrite (H c cand Hc Hcand) in Hs. discriminate Hs.
Qed.

(** The resolver finds nothing when no candidate contains the query. *)
Lemma findBest_nothing (cfg : Config) (q : string) (w : World) (corpora : list CorpusRecord) :
  lists w corpora ->
  (forall corpus candidate, In corpus corpora -> In candidate (candidates corpus) ->
     score_of (normalize q) candidate = None) ->
  exec w (findBestMatchingCorpus cfg q) = Some None.
Proof.
  intros Hw Hnone. unfold findBestMatchingCorpus.
  destruct (Js.nonempty (normalize q)); [|reflexivity].
  destruct (unconfigured cfg); [reflexivity |]. simpl. rewrite Hw. simpl.
  rewrite best_of_hits, (no_score_no_hit _ _ Hnone). reflexivity.
Qed.

(** A corpus returned by the resolver was built from a listed record. *)
Lemma findBest_from_listing (cfg : Config) (q : string) (w : World)
    (corpora : list CorpusRecord) (h : CorpusMatchResult) :
  lists w corpora -> exec w (findBestMatchingCorpus cfg q) = Some (Some h) ->
  exists corpus, In corpus corpora /\ h = match_of corpus.
Proof.
  intros Hw. unfold findBestMatchingCorpus.
  destruct (Js.nonempty (normalize q)); [|discriminate].
  destruct (unconfigured cfg); [discriminate |]. simpl. rewrite Hw. simpl.
  destruct (best_of_spec (normalize q) corpora) as [[_ ->]|(hit & Hhit & ->)];
    [discriminate |].
  intros [= <-]. apply first_highest_in in Hhit as [Hin _].
  apply in_all_hits in Hin as (c & _ & Hc & _ & _ & Hm). now exists c.
Qed.

(** C3 (as amended).  When the listing call fails, the existence check
    returns false (true only on a cache hit, which makes no call) and the
    two resolution operations return null (the exact resolution still
    returns an identifier of the full pattern, which makes no call): these
    are the outcomes of an empty listing, so the failure is not told apart
    from non-existence by what is returned; the session state is left as
    it was. *)
Theorem listing_failure_reads_as_absence
    (cfg : Config) (corpusName : string) (toolContext : option ToolContext) (w : World) :
  registry w = ListingFailed ->
  exec w (checkCorpusExists cfg corpusName toolContext)
  = Some (negb (unconfigured cfg) && cache_hit corpusName toolContext, toolContext)
  /\ exec w (findBestMatchingCorpus cfg corpusName) = Some None
  /\ exec w (resolveCorpusResourceName cfg corpusName)
     = Some (if Pattern.isFullResourceName corpusName
             then Some {| resourceName := corpusName; displayName := None |} else None)
  /\ exec w (checkCorpusExists cfg corpusName toolContext)
     = exec (with_registry (Listed []) w) (checkCorpusExists cfg corpusName toolContext)
  /\ exec w (findBestMatchingCorpus cfg corpusName)
     = exec (with_registry (Listed []) w) (findBestMatchingCorpus cfg corpusName)
  /\ exec w (resolveCorpusResourceName cfg corpusName)
     = exec (with_registry (Listed []) w) (resolveCorpusResourceName cfg corpusName).
Proof.
  intros Hw. unfold checkCorpusExists, findBestMatchingCorpus, resolveCorpusResourceName.
  destruct (unconfigured cfg), (cache_hit corpusName toolContext),
    (Js.nonempty (normalize corpusName)), (Pattern.isFullResourceName corpusName);
    simpl; rewrite ?Hw; repeat split; reflexivity.
Qed.

Lemma listing_failure_reads_as_absence_witness :
  exec (world_of ListingFailed) (checkCorpusExists sample_cfg "Notes" (with_state ∅))
  = Some (false, with_state ∅)
  /\ exec (world_of ListingFailed) (findBestMatchingCorpus sample_cfg "Notes") = Some None
  /\ exec (world_of ListingFailed) (resolveCorpusResourceName sample_cfg "Notes") = Some None.
Proof.
  destruct (listing_failure_reads_as_absence sample_cfg "Notes" (with_state ∅)
              (world_of ListingFailed) eq_refl) as (H1 & H2 & H3 & _).
  exact (conj H1 (conj H2 H3)).
Defined.

(** C3 (as stated) fails: for a session that never saw the identifier, the
    existence check and the resolver return with a failing registry
    exactly what they return with an empty one. *)
Lemma failure_indistinguishable_counterexample :
  exec (world_of ListingFailed) (checkCorpusExists sample_cfg "ghost" (with_state ∅))
  = exec (world_of (Listed [])) (checkCorpusExists sample_cfg "ghost" (with_state ∅))
  /\ exec (world_of ListingFailed) (findBestMatchingCorpus sample_cfg "ghost")
     = exec (world_of (Listed [])) (findBestMatchingCorpus sample_cfg "ghost")
  /\ exec (world_of ListingFailed) (resolveCorpusResourceName sample_cfg "ghost")
     = exec (world_of (Listed [])) (resolveCorpusResourceName sample_cfg "ghost")
  /\ listing_calls (world_of ListingFailed)
       (checkCorpusExists sample_cfg "ghost" (with_state ∅)) = 1%nat.
Proof. repeat split. Qed.

(** C4 (as amended).  A match returned by [findBestMatchingCorpus] is
    built from a record of the listing obtained in that call, and so is a
    match returned by [resolveCorpusResourceName] for an identifier that
    is not of the full pattern; for an identifier of the full pattern
    [resolveCorpusResourceName] returns the identifier itself and makes no
    listing call. *)
Theorem handles_come_from_listing
    (cfg : Config) (corpusName : string) (w : World) (corpora : list CorpusRecord)
    (h : CorpusMatchResult) :
  lists w corpora ->
  (exec w (findBestMatchingCorpus cfg corpusName) = Some (Some h) ->
   exists corpus, In corpus corpora /\ h = match_of corpus)
  /\ (Pattern.isFullResourceName corpusName = false ->
      exec w (resolveCorpusResourceName cfg corpusName) = Some (Some h) ->
      exists corpus, In corpus corpora
        /\ corpus_name corpus = Some (resourceName h)
        /\ corpus_displayName corpus = displayName h)
  /\ (Pattern.isFullResourceName corpusName = true ->
      resolveCorpusResourceName cfg corpusName
      = Ret (Some {| resourceName := corpusName; displayName := None |})).
Proof.
  intros Hw. split; [now apply findBest_from_listing |]. split.
  - intros Hpat. unfold resolveCorpusResourceName, find_corpus. rewrite Hpat. simpl.
    rewrite Hw.
    set (byName := fun c => field_is (corpus_name c) (getCorpusResourceName cfg corpusName)).
    set (byDisplay := fun c => field_is (corpus_displayName c) corpusName).
    assert (Hfound : forall c, In c corpora ->
              exec w match corpus_name c with
                     | Some n => if Js.nonempty n
                                 then Ret (Some {| resourceName := n;
                                                   displayName := corpus_displayName c |})
                                 else Ret None
                     | None => Ret None
                     end = Some (Some h) ->
              exists corpus, In corpus corpora /\ corpus_name corpus = Some (resourceName h)
                             /\ corpus_displayName corpus = displayName h).
    { intros c Hin. destruct (corpus_name c) as [n|] eqn:En; [|discriminate].
      destruct (Js.nonempty n); [|discriminate].
      intros [= <-]. exists c. now repeat split. }
    simpl. destruct (find byName corpora) as [c|] eqn:E1.
    + apply find_some in E1 as [Hin _]. now apply (Hfound c Hin).
    + destruct (find byDisplay corpora) as [c|] eqn:E2; [|discriminate].
      apply find_some in E2 as [Hin _]. now apply (Hfound c Hin).
  - intros Hpat. unfold resolveCorpusResourceName. now rewrite Hpat.
Qed.

Lemma handles_come_from_listing_witness :
  (exists corpus, In corpus [notes_a; research_notes]
                  /\ match_of research_notes = match_of corpus)
  /\ (exists corpus, In corpus [notes_a; research_notes]
         /\ corpus_name corpus = Some "projects/p/locations/l/ragCorpora/3"
         /\ corpus_displayName corpus = Some "Research Notes").
Proof.
  split.
  - apply (proj1 (handles_come_from_listing sample_cfg "research"
                    (world_of (Listed [notes_a; research_notes]))
                    [notes_a; research_notes] (match_of research_notes) eq_refl)).
    reflexivity.
  - apply (proj1 (proj2 (handles_come_from_listing sample_cfg "Research Notes"
                    (world_of (Listed [notes_a; research_notes]))
                    [notes_a; research_notes] (match_of research_notes) eq_refl)));
      reflexivity.
Defined.

(** C4 (as stated) fails: an identifier of the full pattern comes back as
    a match although the listing is empty (and is not even asked for). *)
Lemma unlisted_handle_counterexample :
  exec (world_of (Listed []))
       (resolveCorpusResourceName sample_cfg "projects/p/locations/l/ragCorpora/ghost")
  = Some (Some {| resourceName := "projects/p/locations/l/ragCorpora/ghost";
                  displayName := None |})
  /\ listing_calls (world_of (Listed []))
       (resolveCorpusResourceName sample_cfg "projects/p/locations/l/ragCorpora/ghost")
     = O.
Proof. split; reflexivity. Qed.

(** C7 (as amended).  An identifier that no listed corpus matches leaves
    the session state as it was, and gives a not-found outcome unless the
    session already holds the flag of the identifier: the existence check
    returns the context it was given and answers true exactly when (on a
    configured system) a true [corpus_exists_] flag is cached, which it
    does not compare with the listing; the query tool answers that no
    corpus matches, with the state unchanged. *)
Theorem unmatched_identifier_changes_nothing
    (cfg : Config) (w : World) (corpora : list CorpusRecord) :
  lists w corpora ->
  (forall corpusName toolContext,
      existsb (exact_match cfg corpusName) corpora = false ->
      exists found,
        exec w (checkCorpusExists cfg corpusName toolContext) = Some (found, toolContext)
        /\ (found = true <->
            unconfigured cfg = false /\ cache_hit corpusName toolContext = true))
  /\ (forall corpusName query toolContext identifier,
         Js.trim query <> "" -> unconfigured cfg = false ->
         resolved_input corpusName toolContext = Some (VStr identifier) ->
         identifier <> "" ->
         (forall corpus candidate,
             In corpus corpora -> In candidate (candidates corpus) ->
             score_of (normalize identifier) candidate = None) ->
         exec w (ragQuery cfg corpusName query (Some toolContext))
         = Some (buildResponse error
                   ("No corpus matching '" +:+ identifier
                    +:+ "' was found. Please create it using the create_corpus tool or list available corpora."),
                 Some toolContext)).
Proof.
  intros Hw. split.
  - intros corpusName toolContext Hno. unfold checkCorpusExists.
    destruct (unconfigured cfg).
    { exists false. split; [reflexivity |]. split; [discriminate | now intros [? _]]. }
    destruct (cache_hit corpusName toolContext).
    { exists true. now repeat split. }
    exists false. simpl. rewrite Hw. simpl. rewrite scan_corpora_spec, Hno.
    split; [reflexivity |]. split; [discriminate | now intros [_ ?]].
  - intros corpusName query toolContext identifier Hq Hcfg Hin Hid Hnone.
    unfold ragQuery. apply nonempty_true in Hq. rewrite Hq, Hcfg, Hin. simpl.
    destruct identifier as [|c identifier]; [contradiction |].
    rewrite exec_bind, (findBest_nothing cfg _ w corpora Hw Hnone). reflexivity.
Qed.

Lemma unmatched_identifier_changes_nothing_witness :
  (exists found,
      exec (world_of (Listed [notes_a; notes]))
           (checkCorpusExists sample_cfg "Reports" (with_state ∅))
      = Some (found, with_state ∅)
      /\ (found = true <->
          unconfigured sample_cfg = false /\ cache_hit "Reports" (with_state ∅) = true))
  /\ exec (world_of (Listed []))
          (ragQuery sample_cfg "Reports" "what is new" (Some {| state := Some ∅ |}))
     = Some (buildResponse error
               "No corpus matching 'Reports' was found. Please create it using the create_corpus tool or list available corpora.",
             Some {| state := Some ∅ |}).
Proof.
  split.
  - apply (proj1 (unmatched_identifier_changes_nothing sample_cfg
                    (world_of (Listed [notes_a; notes])) [notes_a; notes] eq_refl));
      reflexivity.
  - apply (proj2 (unmatched_identifier_changes_nothing sample_cfg
                    (world_of (Listed [])) [] eq_refl)
             "Reports" "what is new" {| state := Some ∅ |} "Reports").
    + vm_compute. discriminate.
    + reflexivity.
    + reflexivity.
    + discriminate.
    + intros corpus candidate [].
Defined.

(** C7 (as stated) fails for the existence check.  A check of [Notes]
    confirmed by the listing records the flag; the corpus is then deleted
    under its resource name, which resets the flag of that name only;
    after that the registry lists nothing, so [Notes] matches no corpus,
    yet the check of [Notes] answers true. *)
Lemma stale_flag_counterexample :
  exec (world_of (Listed [notes])) (checkCorpusExists sample_cfg "Notes" (with_state ∅))
  = Some (true, notes_checked)
  /\ runs (deleteCorpus sample_cfg "projects/p/locations/l/ragCorpora/2" notes_checked)
          [ListedCorpora "projects/p/locations/l" (Listed [notes]);
           DeletedCorpus "projects/p/locations/l/ragCorpora/2" Completed]
          (Some (buildResponse success
                   "Successfully deleted corpus 'projects/p/locations/l/ragCorpora/2'",
                 notes_deleted))
  /\ existsb (exact_match sample_cfg "Notes") [] = false
  /\ exec (world_of (Listed [])) (checkCorpusExists sample_cfg "Notes" notes_deleted)
     = Some (true, notes_deleted).
Proof.
  split; [reflexivity |]. split; [|split; reflexivity].
  hnf. eexists (Listed [notes]), _. split; [reflexivity |].
  hnf. eexists Completed, _. split; [reflexivity |].
  hnf. split; reflexivity.
Qed.

Lemma trimStart_blank (s : string) : blank s = true -> Js.trimStart s = "".
Proof.
  induction s as [|c s IH]; simpl; [reflexivity |].
  intros [Hc Hs]%andb_prop. rewrite Hc. now apply IH.
Qed.

Lemma trim_blank (s : string) : blank s = true -> Js.trim s = "".
Proof. intros H. unfold Js.trim. now rewrite (trimStart_blank _ H). Qed.

(** C8.  A query that is empty or made of white space only makes the
    resolver return null at once, without any listing call; the query
    tool called without a corpus name in a session without
    [current_corpus] returns an error at once, without any call, and that
    error is the missing-target one as soon as its own preconditions (a
    question, a configuration) hold. *)
Theorem blank_input_makes_no_call (cfg : Config) :
  (forall q, blank q = true ->
      findBestMatchingCorpus cfg q = Ret None
      /\ forall w, listing_calls w (findBestMatchingCorpus cfg q) = O)
  /\ (forall corpusName query tool_context,
         blank corpusName = true -> current_corpus_of tool_context = None ->
         (exists r, ragQuery cfg corpusName query tool_context = Ret (r, tool_context)
                    /\ status r = error)
         /\ (forall toolContext,
                tool_context = Some toolContext ->
                Js.trim query <> "" -> unconfigured cfg = false ->
                ragQuery cfg corpusName query tool_context
                = Ret (buildResponse error
                         "No corpus specified. Provide a corpus_name or set the current_corpus in the tool context.",
                       tool_context))).
Proof.
  split.
  - intros q Hq. unfold findBestMatchingCorpus, normalize.
    rewrite (trim_blank _ Hq). now split.
  - intros corpusName query tool_context Hblank Hcur.
    assert (Hin : forall tc, tool_context = Some tc -> resolved_input corpusName tc = None).
    { intros tc ->. unfold resolved_input. rewrite (trim_blank _ Hblank). exact Hcur. }
    split.
    + unfold ragQuery. destruct (Js.nonempty (Js.trim query)); simpl; [|eauto].
      destruct (unconfigured cfg); [eauto |].
      destruct tool_context as [tc|]; [|eauto].
      rewrite (Hin tc eq_refl). eauto.
    + intros tc -> Hq Hcfg. unfold ragQuery. apply nonempty_true in Hq.
      now rewrite Hq, Hcfg, (Hin tc eq_refl).
Qed.

Lemma blank_input_makes_no_call_witness :
  findBestMatchingCorpus sample_cfg "   " = Ret None
  /\ ragQuery sample_cfg " " "what is new" (Some {| state := Some ∅ |})
     = Ret (buildResponse error
              "No corpus specified. Provide a corpus_name or set the current_corpus in the tool context.",
            Some {| state := Some ∅ |}).
Proof.
  split.
  - apply (proj1 (blank_input_makes_no_call sample_cfg) "   "). reflexivity.
  - refine (proj2 (proj2 (blank_input_makes_no_call sample_cfg) " " "what is new"
                     (Some {| state := Some ∅ |}) _ _)
              {| state := Some ∅ |} _ _ _).
    + reflexivity.
    + reflexivity.
    + reflexivity.
    + vm_compute. discriminate.
    + reflexivity.
Defined.

(** C10.  Once it reads the listing, the existence check answers true
    exactly when some listed corpus has the canonicalised identifier as
    resource name or the identifier itself, letter for letter, as display
    name; so there are identifiers the resolver matches and the check
    rejects on the same listing: [notes] against the display name
    [Research Notes], [NOTES] against [Notes]. *)
Theorem existence_check_exact_resolver_fuzzy :
  (forall cfg corpusName toolContext w corpora,
      unconfigured cfg = false -> cache_hit corpusName toolContext = false ->
      lists w corpora ->
      exists found toolContext',
        exec w (checkCorpusExists cfg corpusName toolContext) = Some (found, toolContext')
        /\ (found = true <->
            exists corpus, In corpus corpora
              /\ (corpus_name corpus = Some (getCorpusResourceName cfg corpusName)
                  \/ corpus_displayName corpus = Some corpusName)))
  /\ (exec (world_of (Listed [research_notes])) (findBestMatchingCorpus sample_cfg "notes")
      = Some (Some (match_of research_notes))
      /\ exec (world_of (Listed [research_notes]))
              (checkCorpusExists sample_cfg "notes" (with_state ∅))
         = Some (false, with_state ∅))
  /\ (exec (world_of (Listed [notes])) (findBestMatchingCorpus sample_cfg "NOTES")
      = Some (Some (match_of notes))
      /\ exec (world_of (Listed [notes]))
              (checkCorpusExists sample_cfg "NOTES" (with_state ∅))
         = Some (false, with_state ∅)).
Proof.
  split; [|repeat split].
  intros cfg corpusName toolContext w corpora Hcfg Hmiss Hw.
  rewrite (check_listed cfg corpusName toolContext w corpora Hcfg Hmiss Hw).
  pose proof (exact_match_spec cfg corpusName corpora) as Hspec.
  destruct (existsb (exact_match cfg corpusName) corpora); eexists _, _;
    (split; [reflexivity |]).
  - split; [intros _; now apply Hspec | reflexivity].
  - split; [discriminate | intros H; apply Hspec in H; discriminate H].
Qed.

Lemma existence_check_exact_resolver_fuzzy_witness :
  exists found toolContext',
    exec (world_of (Listed [notes_a; notes]))
         (checkCorpusExists sample_cfg "Notes" (with_state ∅)) = Some (found, toolContext')
    /\ (found = true <->
        exists corpus, In corpus [notes_a; notes]
          /\ (corpus_name corpus = Some (getCorpusResourceName sample_cfg "Notes")
              \/ corpus_displayName corpus = Some "Notes")).
Proof.
  apply (proj1 existence_check_exact_resolver_fuzzy sample_cfg "Notes" (with_state ∅)
           (world_of (Listed [notes_a; notes])) [notes_a; notes]); reflexivity.
Defined.

End ResolutionClaims.

(** ** Claims on the canonicaliser *)

Section CanonicaliserClaims.

Lemma canonical_empty (cfg : Config) : getCorpusResourceName cfg "" = resource_prefix cfg.
Proof. unfold getCorpusResourceName. simpl. apply append_empty_r. Qed.

Lemma prefix_not_full (cfg : Config) :
  Pattern.isFullResourceName (resource_prefix cfg) = false.
Proof.
  destruct (Pattern.isFullResourceName (resource_prefix cfg)) eqn:E; [|reflexivity].
  apply full_name_last_segment in E. exfalso. apply E.
  destruct (resource_prefix_slash cfg) as [x Hx].
  rewrite <- (append_empty_r (resource_prefix cfg)), (Hx ""), pop_split_after.
  reflexivity.
Qed.

(** For no configuration is the canonical form of the empty identifier a
    fixed point. *)
Lemma empty_identifier_not_fixed (cfg : Config) :
  getCorpusResourceName cfg (getCorpusResourceName cfg "") <> getCorpusResourceName cfg "".
Proof.
  rewrite canonical_empty. unfold getCorpusResourceName. rewrite prefix_not_full.
  destruct (resource_prefix_slash cfg) as [x Hx].
  assert (Hpop : Js.pop (Js.split_slash (resource_prefix cfg)) = "").
  { rewrite <- (append_empty_r (resource_prefix cfg)), (Hx ""), pop_split_after.
    reflexivity. }
  rewrite Hpop. unfold Js.or_else. simpl.
  intros H.
  assert (H' : resource_prefix cfg +:+ Js.map_chars clean_char (resource_prefix cfg)
               = resource_prefix cfg +:+ "")
    by (now rewrite append_empty_r).
  apply String.app_inj in H'. apply nonempty_false in H'.
  rewrite nonempty_map_chars in H'. discriminate H'.
Qed.

(** C9 (as amended).  An identifier of the full pattern is returned
    unchanged; any other identifier becomes the configured prefix followed
    by its trailing segment (the whole identifier when that segment is
    empty) in which every character outside [a-zA-Z0-9_-] is replaced by
    an underscore and every other character is kept; and for every
    non-empty identifier the result is a fixed point:
    canonicalising it again changes nothing. *)
Theorem canonical_form_fixed_point (cfg : Config) (s : string) :
  (Pattern.isFullResourceName s = true -> getCorpusResourceName cfg s = s)
  /\ (Pattern.isFullResourceName s = false ->
      getCorpusResourceName cfg s
      = resource_prefix cfg
        +:+ Js.map_chars clean_char (Js.or_else (Js.pop (Js.split_slash s)) s)
      /\ String.length (Js.map_chars clean_char (Js.or_else (Js.pop (Js.split_slash s)) s))
         = String.length (Js.or_else (Js.pop (Js.split_slash s)) s)
      /\ forall n c,
           String.get n (Js.or_else (Js.pop (Js.split_slash s)) s) = Some c ->
           String.get n (Js.map_chars clean_char (Js.or_else (Js.pop (Js.split_slash s)) s))
           = Some (if is_id_char c then c else "_"%char))
  /\ (s <> "" ->
      getCorpusResourceName cfg (getCorpusResourceName cfg s) = getCorpusResourceName cfg s).
Proof.
  split; [|split].
  - intros H. unfold getCorpusResourceName. now rewrite H.
  - intros H. unfold getCorpusResourceName. rewrite H. split; [reflexivity |].
    split; [apply length_map_chars |].
    intros n c Hc. now rewrite get_map_chars, Hc.
  - apply canonical_idempotent.
Qed.

Lemma canonical_form_fixed_point_witness :
  getCorpusResourceName sample_cfg "team a/my notes"
  = "projects/p/locations/l/ragCorpora/my_notes"
  /\ getCorpusResourceName sample_cfg (getCorpusResourceName sample_cfg "team a/my notes")
     = getCorpusResourceName sample_cfg "team a/my notes".
Proof.
  destruct (canonical_form_fixed_point sample_cfg "team a/my notes") as (_ & Hshape & Hfix).
  split.
  - rewrite (proj1 (Hshape eq_refl)). reflexivity.
  - apply Hfix. discriminate.
Defined.

(** C9 (as stated) fails at the empty identifier: its canonical form ends
    in a slash, is not of the full pattern, and is canonicalised again
    into a longer name. *)
Lemma empty_identifier_counterexample :
  getCorpusResourceName sample_cfg "" = "projects/p/locations/l/ragCorpora/"
  /\ getCorpusResourceName sample_cfg (getCorpusResourceName sample_cfg "")
     = "projects/p/locations/l/ragCorpora/projects_p_locations_l_ragCorpora_"
  /\ getCorpusResourceName sample_cfg (getCorpusResourceName sample_cfg "")
     <> getCorpusResourceName sample_cfg "".
Proof.
  split; [reflexivity |]. split; [reflexivity |]. apply empty_identifier_not_fixed.
Qed.

End CanonicaliserClaims.

(** * Further properties of the resolution core *)

(** ** The canonicaliser gives well-formed names *)

Section CanonicalNames.

Lemma clean_all_id_chars (s : string) : all_id_chars (Js.map_chars clean_char s) = true.
Proof.
  induction s as [|c s IH]; simpl; [reflexivity |].
  now rewrite clean_char_is_id, IH.
Qed.

(** X1.  With a project and a location that print as non-empty texts
    without slash, the canonical name of a non-empty identifier is always
    of the full pattern; unless the identifier already was, it is the
    configured prefix followed by a non-empty id made of [a-zA-Z0-9_-]. *)
Theorem canonical_name_well_formed (cfg : Config) (s : string) :
  s <> "" ->
  interpolate (PROJECT_ID cfg) <> "" -> slash_free (interpolate (PROJECT_ID cfg)) = true ->
  interpolate (LOCATION cfg) <> "" -> slash_free (interpolate (LOCATION cfg)) = true ->
  Pattern.isFullResourceName (getCorpusResourceName cfg s) = true
  /\ (Pattern.isFullResourceName s = false ->
      exists id, id <> "" /\ all_id_chars id = true
                 /\ getCorpusResourceName cfg s = resource_prefix cfg +:+ id).
Proof.
  intros Hs Hp1 Hp2 Hl1 Hl2.
  destruct (Pattern.isFullResourceName s) eqn:E.
  - split; [|discriminate]. unfold getCorpusResourceName. now rewrite E.
  - set (id := Js.map_chars clean_char (Js.or_else (Js.pop (Js.split_slash s)) s)).
    assert (Hid : id <> "").
    { apply nonempty_true. unfold id. rewrite nonempty_map_chars.
      apply nonempty_true. now apply corpus_id_nonempty. }
    assert (Hget : getCorpusResourceName cfg s = resource_prefix cfg +:+ id)
      by (unfold getCorpusResourceName; now rewrite E).
    split.
    + rewrite Hget. apply isFullResourceName_spec.
      exists (interpolate (PROJECT_ID cfg)), (interpolate (LOCATION cfg)), id.
      repeat split; try assumption.
      * apply clean_slash_free.
      * unfold resource_prefix. now rewrite !append_assoc.
    + intros _. exists id. repeat split; [exact Hid | apply clean_all_id_chars | exact Hget].
Qed.

Lemma canonical_name_well_formed_witness :
  Pattern.isFullResourceName (getCorpusResourceName sample_cfg "drafts/My Notes!") = true
  /\ exists id, id <> "" /\ all_id_chars id = true
                /\ getCorpusResourceName sample_cfg "drafts/My Notes!"
                   = resource_prefix sample_cfg +:+ id.
Proof.
  destruct (canonical_name_well_formed sample_cfg "drafts/My Notes!") as [Hfull Hid];
    try reflexivity; try discriminate.
  split; [exact Hfull | now apply Hid].
Defined.

End CanonicalNames.

(** ** The existence cache across calls *)

Section CacheAcrossCalls.

Lemma cache_hit_record_match (corpusName : string) (st : State) :
  cache_hit corpusName (record_match corpusName (with_state st)) = true.
Proof.
  rewrite record_match_state. unfold cache_hit, with_state, holds. simpl.
  destruct (match st !! "current_corpus" with Some v => truthy v | None => false end).
  - now rewrite lookup_insert_eq.
  - rewrite lookup_insert_ne by (intros H; now apply (exists_key_not_current corpusName)).
    now rewrite lookup_insert_eq.
Qed.

(** X2.  A positive answer is remembered: once the check has returned true
    for a context that has a state, the check of the same identifier with
    the resulting context returns true at once, without any call (so it
    does not notice a corpus deleted elsewhere, nor a failing registry). *)
Theorem positive_check_is_memoised
    (cfg : Config) (corpusName : string) (st : State) (w : World)
    (toolContext' : option ToolContext) :
  exec w (checkCorpusExists cfg corpusName (with_state st)) = Some (true, toolContext') ->
  checkCorpusExists cfg corpusName toolContext' = Ret (true, toolContext').
Proof.
  unfold checkCorpusExists. destruct (unconfigured cfg); [discriminate |].
  destruct (cache_hit corpusName (with_state st)) eqn:Hhit.
  - intros [= <-]. now rewrite Hhit.
  - simpl. destruct (registry w) as [corpora|]; [|discriminate]. simpl.
    rewrite scan_corpora_spec.
    destruct (existsb (exact_match cfg corpusName) corpora); [|discriminate].
    intros [= <-]. now rewrite cache_hit_record_match.
Qed.

Lemma positive_check_is_memoised_witness :
  checkCorpusExists sample_cfg "Notes"
    (record_match "Notes" (with_state ∅))
  = Ret (true, record_match "Notes" (with_state ∅)).
Proof.
  apply (positive_check_is_memoised sample_cfg "Notes" ∅
           (world_of (Listed [notes_a; notes]))).
  reflexivity.
Defined.

Lemma cache_miss_after_invalidate (corpusName : string) (toolContext : option ToolContext) :
  cache_hit corpusName (invalidateCorpusExistsState corpusName toolContext) = false.
Proof.
  unfold invalidateCorpusExistsState, cache_hit.
  destruct (state_of toolContext) as [st|] eqn:E; [|now rewrite E].
  destruct (holds st (exists_key corpusName)) eqn:H.
  - simpl. unfold holds. now rewrite lookup_insert_eq.
  - now rewrite E, H.
Qed.

(** X3.  After an invalidation the check reads the registry again: on a
    configured system it makes exactly one listing call, and its answer is
    the one of the listing, whatever the cache held before. *)
Theorem invalidation_forces_listing
    (cfg : Config) (corpusName : string) (toolContext : option ToolContext)
    (w : World) (corpora : list CorpusRecord) :
  unconfigured cfg = false -> lists w corpora ->
  listing_calls w (checkCorpusExists cfg corpusName
                     (invalidateCorpusExistsState corpusName toolContext)) = 1%nat
  /\ fst <$> exec w (checkCorpusExists cfg corpusName
                       (invalidateCorpusExistsState corpusName toolContext))
     = Some (existsb (exact_match cfg corpusName) corpora).
Proof.
  intros Hcfg Hw. split.
  - unfold checkCorpusExists. rewrite Hcfg, cache_miss_after_invalidate. simpl.
    now rewrite Hw.
  - rewrite (check_listed cfg corpusName _ w corpora Hcfg
               (cache_miss_after_invalidate corpusName toolContext) Hw).
    now destruct (existsb (exact_match cfg corpusName) corpora).
Qed.

Lemma invalidation_forces_listing_witness :
  listing_calls (world_of (Listed [notes_a]))
    (checkCorpusExists sample_cfg "Notes"
       (invalidateCorpusExistsState "Notes" (record_match "Notes" (with_state ∅)))) = 1%nat
  /\ fst <$> exec (world_of (Listed [notes_a]))
       (checkCorpusExists sample_cfg "Notes"
          (invalidateCorpusExistsState "Notes" (record_match "Notes" (with_state ∅))))
     = Some (existsb (exact_match sample_cfg "Notes") [notes_a]).
Proof.
  apply (invalidation_forces_listing sample_cfg "Notes"
           (record_match "Notes" (with_state ∅)) (world_of (Listed [notes_a])) [notes_a]);
    reflexivity.
Defined.

(** X4.  An explicit selection is not displaced by a later existence
    check: after [setCurrentCorpus] with a non-empty name, a check of any
    identifier that the listing (or the cache) confirms leaves
    [current_corpus] on the selected name. *)
Theorem selection_survives_checks
    (cfg : Config) (selected corpusName : string) (st : State) (w : World)
    (toolContext' : option ToolContext) :
  selected <> "" ->
  exec w (checkCorpusExists cfg corpusName
            (snd (setCurrentCorpus selected (with_state st)))) = Some (true, toolContext') ->
  current_corpus_of toolContext' = Some (VStr selected).
Proof.
  intros Hsel. unfold setCurrentCorpus. simpl.
  change (Some {| state := Some (<["current_corpus" := VStr selected]> st) |})
    with (with_state (<["current_corpus" := VStr selected]> st)).
  set (st1 := <["current_corpus" := VStr selected]> st).
  assert (Hcur : st1 !! "current_corpus" = Some (VStr selected)) by apply lookup_insert_eq.
  assert (Hholds : holds st1 "current_corpus" = true).
  { unfold holds. rewrite Hcur. simpl. now apply nonempty_true. }
  unfold checkCorpusExists. destruct (unconfigured cfg); [discriminate |].
  destruct (cache_hit corpusName (with_state st1)).
  - intros [= <-]. exact Hcur.
  - simpl. destruct (registry w) as [corpora|]; [|discriminate]. simpl.
    rewrite scan_corpora_spec.
    destruct (existsb (exact_match cfg corpusName) corpora); [|discriminate].
    intros [= <-]. rewrite record_match_state, Hholds.
    unfold current_corpus_of, with_state. simpl.
    rewrite lookup_insert_ne by apply exists_key_not_current. exact Hcur.
Qed.

Lemma selection_survives_checks_witness :
  current_corpus_of
    (record_match "Notes" (snd (setCurrentCorpus "Notes A" (with_state ∅))))
  = Some (VStr "Notes A").
Proof.
  apply (selection_survives_checks sample_cfg "Notes A" "Notes" ∅
           (world_of (Listed [notes_a; notes]))).
  - discriminate.
  - reflexivity.
Defined.

End CacheAcrossCalls.

(** ** Exact resolution against the existence check *)

Section ExactResolution.

Lemma constructed_nonempty (cfg : Config) (s : string) :
  Pattern.isFullResourceName s = false ->
  Js.nonempty (getCorpusResourceName cfg s) = true.
Proof.
  intros E. unfold getCorpusResourceName. rewrite E. reflexivity.
Qed.

Lemma find_is_some {X : Type} (f : X -> bool) (l : list X) (x : X) :
  In x l -> f x = true -> exists y, find f l = Some y.
Proof.
  intros Hin Hf. destruct (find f l) as [y|] eqn:E; [now exists y |].
  now rewrite (find_none f l E x Hin) in Hf.
Qed.

(** The listing branch of the exact resolution. *)
Lemma resolve_listed (cfg : Config) (corpusName : string) (w : World)
    (corpora : list CorpusRecord) :
  Pattern.isFullResourceName corpusName = false -> lists w corpora ->
  exec w (resolveCorpusResourceName cfg corpusName)
  = Some match match find (fun c => field_is (corpus_name c)
                                      (getCorpusResourceName cfg corpusName)) corpora with
               | Some c => Some c
               | None => find (fun c => field_is (corpus_displayName c) corpusName) corpora
               end with
         | Some c =>
             match corpus_name c with
             | Some n => if Js.nonempty n
                         then Some {| resourceName := n;
                                      displayName := corpus_displayName c |}
                         else None
             | None => None
             end
         | None => None
         end.
Proof.
  intros Hpat Hw. unfold resolveCorpusResourceName, find_corpus. rewrite Hpat. simpl.
  rewrite Hw. simpl.
  destruct (find _ corpora) as [c|]; [|destruct (find _ corpora) as [c|]; [|reflexivity]];
    (destruct (corpus_name c) as [n|]; [destruct (Js.nonempty n) |]; reflexivity).
Qed.

(** X5.  The resource name has priority: when a listed corpus carries the
    canonical name of the identifier, the exact resolution returns that
    name, even if a corpus listed earlier has the identifier as display
    name. *)
Theorem resolution_prefers_resource_name
    (cfg : Config) (corpusName : string) (w : World) (corpora : list CorpusRecord)
    (corpus : CorpusRecord) :
  Pattern.isFullResourceName corpusName = false -> lists w corpora ->
  In corpus corpora ->
  corpus_name corpus = Some (getCorpusResourceName cfg corpusName) ->
  exists h, exec w (resolveCorpusResourceName cfg corpusName) = Some (Some h)
            /\ resourceName h = getCorpusResourceName cfg corpusName.
Proof.
  intros Hpat Hw Hin Hname. rewrite (resolve_listed cfg corpusName w corpora Hpat Hw).
  destruct (find_is_some
              (fun c => field_is (corpus_name c) (getCorpusResourceName cfg corpusName))
              corpora corpus Hin) as [c Hc].
  { apply field_is_true, Hname. }
  rewrite Hc. apply find_some in Hc as [_ Hc]. apply field_is_true in Hc.
  rewrite Hc, (constructed_nonempty cfg corpusName Hpat). eexists. split; reflexivity.
Qed.

Lemma resolution_prefers_resource_name_witness :
  exists h,
    exec (world_of (Listed [{| corpus_name := Some "projects/p/locations/l/ragCorpora/7";
                               corpus_displayName := Some "2" |}; notes]))
         (resolveCorpusResourceName sample_cfg "2") = Some (Some h)
    /\ resourceName h = getCorpusResourceName sample_cfg "2".
Proof.
  apply (resolution_prefers_resource_name sample_cfg "2"
           (world_of (Listed [{| corpus_name := Some "projects/p/locations/l/ragCorpora/7";
                                 corpus_displayName := Some "2" |}; notes]))
           [{| corpus_name := Some "projects/p/locations/l/ragCorpora/7";
               corpus_displayName := Some "2" |}; notes] notes).
  - reflexivity.
  - reflexivity.
  - right. now left.
  - reflexivity.
Defined.

(** X6.  When every listed corpus has a non-empty resource name, the
    existence check (reading the listing) and the exact resolution agree
    on identifiers that are not of the full pattern: the check answers
    true exactly when the resolution returns a match. *)
Theorem check_agrees_with_resolution
    (cfg : Config) (corpusName : string) (toolContext : option ToolContext)
    (w : World) (corpora : list CorpusRecord) :
  unconfigured cfg = false -> cache_hit corpusName toolContext = false ->
  Pattern.isFullResourceName corpusName = false -> lists w corpora ->
  (forall corpus, In corpus corpora ->
     exists n, corpus_name corpus = Some n /\ n <> "") ->
  fst <$> exec w (checkCorpusExists cfg corpusName toolContext) = Some true
  <-> exists h, exec w (resolveCorpusResourceName cfg corpusName) = Some (Some h).
Proof.
  intros Hcfg Hmiss Hpat Hw Hnamed.
  rewrite (check_listed cfg corpusName toolContext w corpora Hcfg Hmiss Hw).
  rewrite (resolve_listed cfg corpusName w corpora Hpat Hw).
  assert (Hsome : forall c, In c corpora ->
            exists h, match corpus_name c with
                      | Some n => if Js.nonempty n
                                  then Some {| resourceName := n;
                                               displayName := corpus_displayName c |}
                                  else None
                      | None => None
                      end = Some h).
  { intros c Hc. destruct (Hnamed c Hc) as (n & -> & Hn).
    apply nonempty_true in Hn. rewrite Hn. eauto. }
  destruct (existsb (exact_match cfg corpusName) corpora) eqn:Hex.
  - split; [intros _ | reflexivity].
    apply existsb_exists in Hex as (c & Hc & Hm). unfold exact_match in Hm.
    destruct (find (fun c => field_is (corpus_name c) _) corpora) as [c1|] eqn:E1.
    + apply find_some in E1 as [Hc1 _]. destruct (Hsome c1 Hc1) as [h ->]. eauto.
    + assert (Hd : field_is (corpus_displayName c) corpusName = true).
      { apply orb_prop in Hm as [Hm|Hm]; [|exact Hm].
        now rewrite (find_none _ _ E1 c Hc) in Hm. }
      destruct (find_is_some (fun c => field_is (corpus_displayName c) corpusName)
                  corpora c Hc Hd) as [c2 E2].
      rewrite E2. apply find_some in E2 as [Hc2 _]. destruct (Hsome c2 Hc2) as [h ->]. eauto.
  - split; [discriminate |]. intros [h Hh]. exfalso.
    assert (Hno : forall c, In c corpora -> exact_match cfg corpusName c = false).
    { intros c Hc. destruct (exact_match cfg corpusName c) eqn:E; [|reflexivity].
      assert (existsb (exact_match cfg corpusName) corpora = true)
        by (apply existsb_exists; eauto).
      congruence. }
    destruct (find (fun c => field_is (corpus_name c) _) corpora) as [c1|] eqn:E1.
    + apply find_some in E1 as [Hc1 Hf]. specialize (Hno c1 Hc1).
      unfold exact_match in Hno. now rewrite Hf in Hno.
    + destruct (find (fun c => field_is (corpus_displayName c) corpusName) corpora)
        as [c2|] eqn:E2; [|discriminate].
      apply find_some in E2 as [Hc2 Hf]. specialize (Hno c2 Hc2).
      unfold exact_match in Hno. rewrite Hf, orb_true_r in Hno. discriminate.
Qed.

Lemma check_agrees_with_resolution_witness :
  fst <$> exec (world_of (Listed [notes_a; notes]))
            (checkCorpusExists sample_cfg "Notes" (with_state ∅)) = Some true
  <-> exists h, exec (world_of (Listed [notes_a; notes]))
                  (resolveCorpusResourceName sample_cfg "Notes") = Some (Some h).
Proof.
  apply (check_agrees_with_resolution sample_cfg "Notes" (with_state ∅)
           (world_of (Listed [notes_a; notes])) [notes_a; notes]); try reflexivity.
  intros corpus [<-|[<-|[]]]; eexists; (split; [reflexivity | discriminate]).
Defined.

End ExactResolution.

(** ** Which corpus the ranked resolver picks *)

Section ResolverChoice.










End ResolverChoice.

(** ** The query tool and the session state *)

Section QueryState.

Lemma canonical_of_match (corpus : CorpusRecord) :
  Js.or_else (text_of (displayName (match_of corpus))) (resourceName (match_of corpus))
  = canonical_name corpus.
Proof.
  unfold canonical_name, match_of. simpl.
  destruct (text_of (corpus_displayName corpus)); reflexivity.
Qed.

(** The corpus the resolver returns is that of the first hit of highest
    score in the listing it read. *)
Lemma findBest_first_highest (cfg : Config) (q : string) (w : World) (h : CorpusMatchResult) :
  exec w (findBestMatchingCorpus cfg q) = Some (Some h) ->
  exists corpora hit corpus,
    lists w corpora /\ first_highest (all_hits (normalize q) corpora) hit
    /\ In corpus corpora /\ snd hit = match_of corpus /\ h = snd hit.
Proof.
  unfold findBestMatchingCorpus.
  destruct (Js.nonempty (normalize q)); [|discriminate].
  destruct (unconfigured cfg); [discriminate |]. simpl.
  destruct (registry w) as [corpora|] eqn:Hw; [|discriminate]. simpl.
  destruct (best_of_spec (normalize q) corpora) as [[_ ->]|(hit & Hhit & ->)];
    [discriminate |].
  intros [= <-].
  destruct (first_highest_in _ _ Hhit) as [Hin _].
  apply in_all_hits in Hin as (corpus & cand & Hc & _ & _ & Hm).
  now exists corpora, hit, corpus.
Qed.

(** X10.  The query tool writes the session state on success only: every
    answer that is not a success returns the context it was given, and a
    success stores as [current_corpus] the display name of the matched
    corpus (its resource name when it has no display name), whatever
    [current_corpus] held.  The matched corpus is the listed corpus of the
    first candidate of highest score for the identifier in use (the
    trimmed corpus name, or [current_corpus] when that name is blank). *)
Theorem query_writes_state_on_success_only
    (cfg : Config) (corpusName query : string) (tool_context : option ToolContext)
    (w : World) (r : ToolResult) (tool_context' : option ToolContext) :
  exec w (ragQuery cfg corpusName query tool_context) = Some (r, tool_context') ->
  (status r <> success -> tool_context' = tool_context)
  /\ (status r = success ->
      exists toolContext identifier corpora hit corpus,
        tool_context = Some toolContext
        /\ resolved_input corpusName toolContext = Some (VStr identifier)
        /\ lists w corpora
        /\ first_highest (all_hits (normalize identifier) corpora) hit
        /\ In corpus corpora /\ snd hit = match_of corpus
        /\ tool_context' = snd (setCurrentCorpus (canonical_name corpus) tool_context)
        /\ forall st, state_of tool_context = Some st ->
             current_corpus_of tool_context' = Some (VStr (canonical_name corpus))).
Proof.
  unfold ragQuery.
  destruct (Js.nonempty (Js.trim query)); simpl;
    [|intros [= <- <-]; split; [reflexivity | discriminate]].
  destruct (unconfigured cfg);
    [intros [= <- <-]; split; [reflexivity | discriminate] |].
  destruct tool_context as [toolContext|];
    [|intros [= <- <-]; split; [reflexivity | discriminate]].
  destruct (resolved_input corpusName toolContext) as [[[]|[|c identifier]]|] eqn:Hinput;
    try (intros [= <- <-]; split; [reflexivity | discriminate]);
    [discriminate |].
  rewrite exec_bind.
  destruct (exec w (findBestMatchingCorpus cfg (String c identifier)))
    as [[h|]|] eqn:Hfound;
    [| intros [= <- <-]; split; [reflexivity | discriminate] | discriminate].
  apply findBest_first_highest in Hfound
    as (corpora & hit & corpus & Hw & Hhit & Hin & Hm & ->).
  rewrite Hm. simpl. destruct (retriever w) as [[|ctx ctxs]|msg];
    [intros [= <- <-]; split; [reflexivity | discriminate] |
    | intros [= <- <-]; split; [reflexivity | discriminate]].
  intros [= <- <-]. split; [intros H; now contradiction H |]. intros _.
  exists toolContext, (String c identifier), corpora, hit, corpus.
  rewrite <- canonical_of_match.
  split; [reflexivity |]. split; [exact Hinput |]. split; [exact Hw |].
  split; [exact Hhit |]. split; [exact Hin |]. split; [exact Hm |].
  split; [reflexivity |].
  intros st Hst. unfold setCurrentCorpus. unfold state_of in Hst |- *. rewrite Hst.
  unfold current_corpus_of. simpl. apply lookup_insert_eq.
Qed.

Lemma query_writes_state_on_success_only_witness :
  exists toolContext identifier corpora hit corpus,
    with_state {["current_corpus" := VStr "old"]} = Some toolContext
    /\ resolved_input "notes" toolContext = Some (VStr identifier)
    /\ lists {| registry := Listed [notes_a; research_notes];
                retriever := Retrieved [{| source_uri := "gs://b/f"; source_name := "f";
                                           text := "t" |}] |} corpora
    /\ first_highest (all_hits (normalize identifier) corpora) hit
    /\ In corpus corpora /\ snd hit = match_of corpus
    /\ snd (setCurrentCorpus "Notes A" (with_state {["current_corpus" := VStr "old"]}))
       = snd (setCurrentCorpus (canonical_name corpus)
                (with_state {["current_corpus" := VStr "old"]}))
    /\ forall st, state_of (with_state {["current_corpus" := VStr "old"]}) = Some st ->
         current_corpus_of
           (snd (setCurrentCorpus "Notes A"
                   (with_state {["current_corpus" := VStr "old"]})))
         = Some (VStr (canonical_name corpus)).
Proof.
  refine (proj2 (query_writes_state_on_success_only sample_cfg "notes" "what is new"
                   (with_state {["current_corpus" := VStr "old"]})
                   {| registry := Listed [notes_a; research_notes];
                      retriever := Retrieved [{| source_uri := "gs://b/f";
                                                 source_name := "f"; text := "t" |}] |}
                   (buildResponse success "Successfully queried corpus 'Notes A'")
                   (snd (setCurrentCorpus "Notes A"
                           (with_state {["current_corpus" := VStr "old"]}))) _) _);
    reflexivity.
Defined.

End QueryState.

(** * Properties of the path parser *)

Section PathParser.

Lemma merge_no_paths_l (r : ParsedPaths) : merge no_paths r = r.
Proof. now destruct r. Qed.

Lemma merge_no_paths_r (r : ParsedPaths) : merge r no_paths = r.
Proof. destruct r. unfold merge. simpl. now rewrite !app_nil_r. Qed.

Lemma merge_assoc (a b c : ParsedPaths) : merge (merge a b) c = merge a (merge b c).
Proof. unfold merge. simpl. now rewrite <- !app_assoc. Qed.

(** A turn of the loop only appends what the path gives on its own. *)
Lemma parse_path_merge (acc : ParsedPaths) (p : string) :
  parse_path acc p = merge acc (parse_path no_paths p).
Proof.
  unfold parse_path, merge, push.
  destruct (negb (Js.nonempty p) || String.eqb (Js.trim p) "");
    [|destruct (Url.search Url.docs_at p) as [id|];
      [|destruct (Url.search Url.drive_at p) as [id|];
        [destruct (String.eqb (Url.drive_url id) p)
        |destruct (Js.starts_with "gs://" p)]]];
    cbn [validated invalid conversions gcsPaths driveFileIds no_paths app];
    now rewrite ?app_nil_r.
Qed.

Lemma parse_fold (paths : list string) (acc : ParsedPaths) :
  fold_left parse_path paths acc = merge acc (parsePaths paths).
Proof.
  unfold parsePaths. revert acc. induction paths as [|p paths IH]; intros acc; simpl.
  - now rewrite merge_no_paths_r.
  - rewrite IH, (IH (parse_path no_paths p)), <- merge_assoc. f_equal.
    apply parse_path_merge.
Qed.

Lemma parsePaths_cons (p : string) (paths : list string) :
  parsePaths (p :: paths) = merge (parse_path no_paths p) (parsePaths paths).
Proof. unfold parsePaths at 1. simpl. apply parse_fold. Qed.

Lemma parsePaths_app (a b : list string) :
  parsePaths (a ++ b) = merge (parsePaths a) (parsePaths b).
Proof.
  unfold parsePaths at 1. rewrite fold_left_app. fold (parsePaths a). apply parse_fold.
Qed.

Lemma id_run_chars (s : string) : all_id_chars (fst (Url.id_run s)) = true.
Proof.
  induction s as [|c s IH]; simpl; [reflexivity |].
  destruct (is_id_char c) eqn:E; simpl; [now rewrite E, IH | reflexivity].
Qed.

Lemma captured_id_chars (s id : string) :
  Url.captured_id s = Some id -> id <> "" /\ all_id_chars id = true.
Proof.
  unfold Url.captured_id.
  destruct (Js.nonempty (fst (Url.id_run s))) eqn:E; simpl; [|discriminate].
  destruct (Url.at_boundary _); [|discriminate].
  intros [= <-]. split; [now apply nonempty_true | apply id_run_chars].
Qed.

Lemma docs_at_chars (s id : string) :
  Url.docs_at s = Some id -> id <> "" /\ all_id_chars id = true.
Proof.
  unfold Url.docs_at, Pattern.next.
  destruct (Pattern.literal _ s) as [s1|]; [|discriminate].
  destruct (Url.one_of _ s1) as [s2|]; [|discriminate].
  destruct (Pattern.literal _ s2) as [s3|]; [|discriminate].
  apply captured_id_chars.
Qed.

Lemma drive_at_chars (s id : string) :
  Url.drive_at s = Some id -> id <> "" /\ all_id_chars id = true.
Proof.
  unfold Url.drive_at, Pattern.next.
  destruct (Pattern.literal _ s) as [s1|]; [|discriminate].
  destruct (Url.one_of _ s1) as [s2|]; [|discriminate].
  apply captured_id_chars.
Qed.

Lemma search_sound (at_start : string -> option string) (P : string -> Prop) :
  (forall s id, at_start s = Some id -> P id) ->
  forall s id, Url.search at_start s = Some id -> P id.
Proof.
  intros H s. induction s as [|c s IH]; intros id; simpl.
  - destruct (at_start "") eqn:E; [|discriminate]. intros [= <-]. eapply H, E.
  - destruct (at_start (String c s)) eqn:E; [intros [= <-]; eapply H, E | apply IH].
Qed.

Lemma search_skip (at_start : string -> option string) (c : ascii) (r : string) :
  at_start (String c r) = None -> Url.search at_start (String c r) = Url.search at_start r.
Proof. intros H. simpl. now rewrite H. Qed.

Lemma search_here (at_start : string -> option string) (s id : string) :
  at_start s = Some id -> Url.search at_start s = Some id.
Proof. intros H. destruct s; simpl; now rewrite H. Qed.

(** A converted link has a colon at its sixth place: a text without colon
    holds neither kind of link. *)
Lemma colon_free_append (a b : string) :
  colon_free (a +:+ b) = colon_free a && colon_free b.
Proof.
  induction a as [|c a IH]; [reflexivity |].
  rewrite append_cons. simpl. now rewrite IH, andb_assoc.
Qed.

Lemma literal_colon (lit t : string) :
  colon_free lit = false -> colon_free t = true -> Pattern.literal lit t = None.
Proof.
  intros Hl Ht. destruct (Pattern.literal lit t) as [r|] eqn:E; [|reflexivity].
  apply literal_spec in E. subst t. rewrite colon_free_append, Hl in Ht. discriminate Ht.
Qed.

Lemma colon_free_tail (c : ascii) (t : string) :
  colon_free (String c t) = true -> colon_free t = true.
Proof. simpl. now intros [_ H]%andb_prop. Qed.

Lemma search_docs_colon_free (t : string) :
  colon_free t = true -> Url.search Url.docs_at t = None.
Proof.
  induction t as [|c t IH]; intros Ht.
  - reflexivity.
  - rewrite search_skip; [apply IH; eapply colon_free_tail, Ht |].
    unfold Url.docs_at.
    now rewrite (literal_colon "https://docs.google.com/" _ eq_refl Ht).
Qed.

Lemma id_chars_colon_free (id : string) : all_id_chars id = true -> colon_free id = true.
Proof.
  induction id as [|c id IH]; simpl; [reflexivity |].
  intros [Hc Hid]%andb_prop. rewrite (IH Hid), andb_true_r.
  destruct (Ascii.eqb_spec c ":"); [subst c; discriminate Hc | reflexivity].
Qed.

(** The run of id characters stops where the id stops. *)
Lemma id_run_append (id rest : string) :
  all_id_chars id = true ->
  match rest with EmptyString => true | String c _ => negb (is_id_char c) end = true ->
  Url.id_run (id +:+ rest) = (id, rest).
Proof.
  intros Hid Hrest. induction id as [|c id IH].
  - rewrite append_nil. destruct rest as [|c rest]; [reflexivity |]. simpl.
    apply negb_true_iff in Hrest. now rewrite Hrest.
  - simpl in Hid. apply andb_prop in Hid as [Hc Hid].
    rewrite append_cons. simpl. rewrite Hc, (IH Hid). reflexivity.
Qed.

Lemma captured_id_append (id rest : string) :
  id <> "" -> all_id_chars id = true -> Url.at_boundary rest = true ->
  Url.captured_id (id +:+ rest) = Some id.
Proof.
  intros Hne Hid Hb. unfold Url.captured_id. rewrite id_run_append; [simpl | exact Hid |].
  - apply nonempty_true in Hne. now rewrite Hne, Hb.
  - destruct rest as [|c rest]; [reflexivity |]. simpl in Hb.
    apply is_slash_true in Hb as ->. reflexivity.
Qed.

Lemma captured_id_whole (id : string) :
  id <> "" -> all_id_chars id = true -> Url.captured_id id = Some id.
Proof.
  intros Hne Hid. rewrite <- (append_empty_r id) at 1. now apply captured_id_append.
Qed.

Lemma trimEnd_keeps (c : ascii) (r : string) :
  Js.is_space c = false -> Js.trimEnd (String c r) <> "".
Proof. intros H. simpl. rewrite H. destruct (Js.trimEnd r); discriminate. Qed.

(** A path that starts with a letter is not blank. *)
Lemma not_blank (c : ascii) (r : string) :
  Js.is_space c = false ->
  negb (Js.nonempty (String c r)) || String.eqb (Js.trim (String c r)) "" = false.
Proof.
  intros H. unfold Js.trim. simpl Js.trimStart. rewrite H. simpl negb.
  apply String.eqb_neq, trimEnd_keeps, H.
Qed.

(** What the parser makes of a link it has produced. *)
Lemma reparse_drive_url (id : string) :
  id <> "" -> all_id_chars id = true ->
  parse_path no_paths (Url.drive_url id)
  = {| validated := [Url.drive_url id]; invalid := []; conversions := [];
       gcsPaths := []; driveFileIds := [id] |}.
Proof.
  intros Hne Hid.
  assert (Hshape : Url.drive_url id
                   = "https://drive.google.com/file/d/" +:+ id +:+ "/view") by reflexivity.
  assert (Hdocs : Url.search Url.docs_at (Url.drive_url id) = None).
  { rewrite Hshape, !append_cons, append_nil.
    repeat (rewrite search_skip; [|reflexivity]).
    apply search_docs_colon_free. rewrite colon_free_append.
    now rewrite (id_chars_colon_free _ Hid). }
  assert (Hdrive : Url.search Url.drive_at (Url.drive_url id) = Some id).
  { apply search_here. rewrite Hshape, !append_cons, append_nil.
    unfold Url.drive_at. simpl. now apply captured_id_append. }
  unfold parse_path. rewrite Hdocs, Hdrive, String.eqb_refl.
  rewrite Hshape at 1. rewrite append_cons, not_blank by reflexivity. reflexivity.
Qed.

Lemma parse_path_outcome (p : string) : path_outcome p (parse_path no_paths p).
Proof.
  assert (Hself : parse_path no_paths p = parse_path no_paths p) by reflexivity.
  revert Hself. generalize (parse_path no_paths p) at 2 3. unfold parse_path.
  destruct (negb (Js.nonempty p) || String.eqb (Js.trim p) "") eqn:Hblank.
  { intros r <-. apply path_blank. }
  destruct (Url.search Url.docs_at p) as [id|] eqn:Hdocs.
  { intros r <-. destruct (search_sound _ _ docs_at_chars p id Hdocs) as [H1 H2].
    now apply path_drive. }
  destruct (Url.search Url.drive_at p) as [id|] eqn:Hdrive.
  { intros r <-. destruct (search_sound _ _ drive_at_chars p id Hdrive) as [H1 H2].
    apply path_drive; try assumption.
    destruct (String.eqb (Url.drive_url id) p); simpl; lia. }
  destruct (Js.starts_with "gs://" p) eqn:Hgs.
  - intros r <-. apply path_gcs; [exact Hgs |].
    unfold parse_path. now rewrite Hblank, Hdocs, Hdrive, Hgs.
  - intros r <-. apply path_unknown.
Qed.

(** X11.  Every path is judged exactly once: a path is either validated
    or reported invalid, a validated path is either a Drive file or a
    storage object, and at most one conversion is reported per Drive
    file. *)
Theorem parsed_paths_are_partitioned (paths : list string) :
  (length (validated (parsePaths paths)) + length (invalid (parsePaths paths))
   = length paths)%nat
  /\ (length (driveFileIds (parsePaths paths)) + length (gcsPaths (parsePaths paths))
      = length (validated (parsePaths paths)))%nat
  /\ (length (conversions (parsePaths paths))
      <= length (driveFileIds (parsePaths paths)))%nat.
Proof.
  induction paths as [|p paths (IH1 & IH2 & IH3)]; [repeat split; simpl; lia |].
  rewrite parsePaths_cons. unfold merge.
  cbn [validated invalid conversions gcsPaths driveFileIds].
  rewrite !length_app.
  destruct (parse_path_outcome p);
    cbn [validated invalid conversions gcsPaths driveFileIds length]; lia.
Qed.

(** X12.  What the parser validates: each validated entry is either the
    Drive link built on one of the returned file ids -- a non-empty id
    made of [a-zA-Z0-9_-] -- or one of the given paths, unchanged, that
    starts with [gs://]; each invalid entry is one of the given paths
    followed by one of the two reasons. *)
Theorem validated_paths_shape (paths : list string) :
  (forall v, In v (validated (parsePaths paths)) ->
     (exists id, In id (driveFileIds (parsePaths paths)) /\ id <> ""
                 /\ all_id_chars id = true /\ v = Url.drive_url id)
     \/ (In v paths /\ In v (gcsPaths (parsePaths paths))
         /\ Js.starts_with "gs://" v = true))
  /\ (forall x, In x (invalid (parsePaths paths)) ->
        exists p, In p paths
                  /\ (x = p +:+ " (Not a valid or empty string)"
                      \/ x = p +:+ " (Invalid format)")).
Proof.
  induction paths as [|p paths [IHv IHi]]; [split; intros ? [] |].
  rewrite parsePaths_cons. unfold merge.
  cbn [validated invalid conversions gcsPaths driveFileIds].
  split.
  - intros v [Hv|Hv]%in_app_or.
    + destruct (parse_path_outcome p) as [| |id convs H1 H2 _|Hgs _];
        cbn [validated] in Hv; try destruct Hv as [<-|[]]; try destruct Hv.
      * left. exists id. repeat split; try assumption. apply in_or_app. left. now left.
      * right. repeat split; [now left | apply in_or_app; left; now left | exact Hgs].
    + destruct (IHv v Hv) as [(id & Hid & H)|(H1 & H2 & H3)].
      * left. exists id. split; [apply in_or_app; now right | exact H].
      * right. repeat split; [now right | apply in_or_app; now right | exact H3].
  - intros x [Hx|Hx]%in_app_or.
    + exists p. split; [now left |].
      destruct (parse_path_outcome p); cbn [invalid] in Hx;
        try destruct Hx as [<-|[]]; try destruct Hx; auto.
    + destruct (IHi x Hx) as (q & Hq & H). exists q. split; [now right | exact H].
Qed.

Lemma settled_merge (a b : ParsedPaths) : settled (merge a b) = merge (settled a) (settled b).
Proof. reflexivity. Qed.

(** X13.  Validation is stable: parsing the validated paths again
    validates every one of them as it stands, with the same file ids and
    storage paths, rejects nothing and converts nothing. *)
Theorem validated_paths_are_settled (paths : list string) :
  parsePaths (validated (parsePaths paths)) = settled (parsePaths paths).
Proof.
  induction paths as [|p paths IH]; [reflexivity |].
  rewrite parsePaths_cons, settled_merge. cbn [merge validated].
  rewrite parsePaths_app, IH. f_equal.
  destruct (parse_path_outcome p) as [| |id convs H1 H2 _|_ Hsame]; cbn [validated settled].
  - reflexivity.
  - reflexivity.
  - rewrite parsePaths_cons, (reparse_drive_url id H1 H2). reflexivity.
  - rewrite parsePaths_cons, Hsame. reflexivity.
Qed.

(** X14.  A Google Docs, Sheets or Slides link, whatever follows its id
    after a slash, becomes the Drive link of the same id and is reported
    as a conversion; a Drive [open?id=] link ending with its id does too. *)
Theorem document_links_become_drive_links (kind id tail : string) :
  In kind ["document"; "spreadsheets"; "presentation"] ->
  id <> "" -> all_id_chars id = true -> Url.at_boundary tail = true ->
  parsePaths ["https://docs.google.com/" +:+ kind +:+ "/d/" +:+ id +:+ tail]
  = {| validated := [Url.drive_url id]; invalid := [];
       conversions :=
         [{| original := "https://docs.google.com/" +:+ kind +:+ "/d/" +:+ id +:+ tail;
             converted := Url.drive_url id |}];
       gcsPaths := []; driveFileIds := [id] |}
  /\ parsePaths ["https://drive.google.com/open?id=" +:+ id]
     = {| validated := [Url.drive_url id]; invalid := [];
          conversions := [{| original := "https://drive.google.com/open?id=" +:+ id;
                             converted := Url.drive_url id |}];
          gcsPaths := []; driveFileIds := [id] |}.
Proof.
  intros Hkind Hne Hid Htail. split.
  - assert (Hdocs : Url.search Url.docs_at
                      ("https://docs.google.com/" +:+ kind +:+ "/d/" +:+ id +:+ tail)
                    = Some id).
    { apply search_here. unfold Url.docs_at.
      rewrite (proj2 (literal_spec "https://docs.google.com/" _ _) eq_refl).
      unfold Pattern.next.
      assert (Hone : Url.one_of ["document"; "spreadsheets"; "presentation"]
                       (kind +:+ "/d/" +:+ id +:+ tail) = Some ("/d/" +:+ id +:+ tail)).
      { destruct Hkind as [<-|[<-|[<-|[]]]]; reflexivity. }
      rewrite Hone. rewrite (proj2 (literal_spec "/d/" _ _) eq_refl).
      now apply captured_id_append. }
    unfold parsePaths. cbn [fold_left]. unfold parse_path. rewrite Hdocs.
    rewrite append_cons, not_blank by reflexivity. reflexivity.
  - assert (Hdocs : Url.search Url.docs_at ("https://drive.google.com/open?id=" +:+ id)
                    = None).
    { rewrite !append_cons, append_nil.
      repeat (rewrite search_skip; [|reflexivity]).
      apply search_docs_colon_free, id_chars_colon_free, Hid. }
    assert (Hdrive : Url.search Url.drive_at ("https://drive.google.com/open?id=" +:+ id)
                     = Some id).
    { apply search_here. rewrite !append_cons, append_nil.
      unfold Url.drive_at. simpl. now apply captured_id_whole. }
    assert (Hdiff : String.eqb (Url.drive_url id) ("https://drive.google.com/open?id=" +:+ id)
                    = false) by reflexivity.
    unfold parsePaths. cbn [fold_left]. unfold parse_path. rewrite Hdocs, Hdrive, Hdiff.
    rewrite append_cons, not_blank by reflexivity. reflexivity.
Qed.

Lemma document_links_become_drive_links_witness :
  parsePaths ["https://docs.google.com/spreadsheets/d/a1-B_2/edit#gid=0"]
  = {| validated := ["https://drive.google.com/file/d/a1-B_2/view"]; invalid := [];
       conversions :=
         [{| original := "https://docs.google.com/spreadsheets/d/a1-B_2/edit#gid=0";
             converted := "https://drive.google.com/file/d/a1-B_2/view" |}];
       gcsPaths := []; driveFileIds := ["a1-B_2"] |}.
Proof.
  refine (proj1 (document_links_become_drive_links "spreadsheets" "a1-B_2" "/edit#gid=0"
                   _ _ _ _)).
  - right. now left.
  - discriminate.
  - reflexivity.
  - reflexivity.
Defined.

End PathParser.

(** * Properties of the tools that change the registry *)

(** ** Runs *)

Section Runs.

Lemma runs_and_then {A B : Type} (t : tool A) (f : A -> tool B)
    (trace : list event) (result : option B) :
  runs (and_then t f) trace result ->
  (exists first a second,
      runs t first (Some a) /\ runs (f a) second result /\ trace = (first ++ second)%list)
  \/ (runs t trace None /\ result = None).
Proof.
  revert trace.
  induction t as [a|parent k IH|c q k IH|parent d k IH|n k IH|n k IH|parent c k IH
                 |n k IH|parent k IH|];
    intros trace; simpl.
  - intros H. left. exists [], a, trace. now repeat split.
  - intros (answer & rest & -> & H). destruct (IH answer rest H)
      as [(first & a & second & H1 & H2 & ->)|[H1 ->]].
    + left. exists (ListedCorpora parent answer :: first), a, second.
      repeat split; [|exact H2]. now exists answer, first.
    + right. split; [|reflexivity]. now exists answer, rest.
  - intros (answer & rest & -> & H). destruct (IH answer rest H)
      as [(first & a & second & H1 & H2 & ->)|[H1 ->]].
    + left. exists (RetrievedContexts c q answer :: first), a, second.
      repeat split; [|exact H2]. now exists answer, first.
    + right. split; [|reflexivity]. now exists answer, rest.
  - intros (answer & rest & -> & H). destruct (IH answer rest H)
      as [(first & a & second & H1 & H2 & ->)|[H1 ->]].
    + left. exists (CreatedCorpus parent d answer :: first), a, second.
      repeat split; [|exact H2]. now exists answer, first.
    + right. split; [|reflexivity]. now exists answer, rest.
  - intros (answer & rest & -> & H). destruct (IH answer rest H)
      as [(first & a & second & H1 & H2 & ->)|[H1 ->]].
    + left. exists (DeletedCorpus n answer :: first), a, second.
      repeat split; [|exact H2]. now exists answer, first.
    + right. split; [|reflexivity]. now exists answer, rest.
  - intros (answer & rest & -> & H). destruct (IH answer rest H)
      as [(first & a & second & H1 & H2 & ->)|[H1 ->]].
    + left. exists (DeletedFile n answer :: first), a, second.
      repeat split; [|exact H2]. now exists answer, first.
    + right. split; [|reflexivity]. now exists answer, rest.
  - intros (answer & rest & -> & H). destruct (IH answer rest H)
      as [(first & a & second & H1 & H2 & ->)|[H1 ->]].
    + left. exists (ImportedFiles parent c answer :: first), a, second.
      repeat split; [|exact H2]. now exists answer, first.
    + right. split; [|reflexivity]. now exists answer, rest.
  - intros (answer & rest & -> & H). destruct (IH answer rest H)
      as [(first & a & second & H1 & H2 & ->)|[H1 ->]].
    + left. exists (FetchedCorpus n answer :: first), a, second.
      repeat split; [|exact H2]. now exists answer, first.
    + right. split; [|reflexivity]. now exists answer, rest.
  - intros (answer & rest & -> & H). destruct (IH answer rest H)
      as [(first & a & second & H1 & H2 & ->)|[H1 ->]].
    + left. exists (ListedFiles parent answer :: first), a, second.
      repeat split; [|exact H2]. now exists answer, first.
    + right. split; [|reflexivity]. now exists answer, rest.
  - intros [-> ->]. right. now repeat split.
Qed.

Lemma runs_check (cfg : Config) (corpusName : string) (toolContext : option ToolContext)
    (trace : list event) (result : option (bool * option ToolContext)) :
  runs (lift (checkCorpusExists cfg corpusName toolContext)) trace result ->
  (trace = []
   /\ result = Some (negb (unconfigured cfg) && cache_hit corpusName toolContext, toolContext)
   /\ (unconfigured cfg = true \/ cache_hit corpusName toolContext = true))
  \/ (unconfigured cfg = false /\ cache_hit corpusName toolContext = false
      /\ exists answer,
           trace = [ListedCorpora (parent_of cfg) answer]
           /\ result = Some (check_answer cfg corpusName toolContext answer)).
Proof.
  unfold checkCorpusExists.
  destruct (unconfigured cfg); [intros [-> ->]; left; auto |].
  destruct (cache_hit corpusName toolContext); [intros [-> ->]; left; auto |].
  simpl. intros (answer & rest & -> & H). right. repeat split. exists answer.
  destruct answer as [corpora|]; simpl in H; destruct H as [-> ->]; split; try reflexivity.
  unfold check_answer. now rewrite scan_corpora_spec.
Qed.

Lemma runs_resolve (cfg : Config) (corpusName : string)
    (trace : list event) (result : option (option CorpusMatchResult)) :
  runs (lift (resolveCorpusResourceName cfg corpusName)) trace result ->
  (Pattern.isFullResourceName corpusName = true /\ trace = []
   /\ result = Some (Some {| resourceName := corpusName; displayName := None |}))
  \/ (Pattern.isFullResourceName corpusName = false
      /\ exists answer resolved,
           trace = [ListedCorpora (parent_of cfg) answer] /\ result = Some resolved
           /\ forall h, resolved = Some h -> resolved_in cfg corpusName answer h).
Proof.
  unfold resolveCorpusResourceName, find_corpus.
  destruct (Pattern.isFullResourceName corpusName); [intros [-> ->]; left; auto |].
  simpl. intros (answer & rest & -> & H). right. split; [reflexivity |].
  destruct answer as [corpora|]; simpl in H.
  - set (byName := fun c => field_is (corpus_name c) (getCorpusResourceName cfg corpusName))
      in H.
    set (byDisplay := fun c => field_is (corpus_displayName c) corpusName) in H.
    assert (Hfound : forall c, In c corpora -> exact_match cfg corpusName c = true ->
              runs (lift match corpus_name c with
                         | Some n =>
                             if Js.nonempty n
                             then Ret (Some {| resourceName := n;
                                               displayName := corpus_displayName c |})
                             else Ret None
                         | None => Ret None
                         end) rest result ->
              exists resolved,
                rest = [] /\ result = Some resolved
                /\ forall h, resolved = Some h ->
                     resolved_in cfg corpusName (Listed corpora) h).
    { intros c Hc Hm. destruct (corpus_name c) as [n|] eqn:En;
        [destruct (Js.nonempty n) |]; simpl; intros [-> ->]; eexists;
        (split; [reflexivity |]; split; [reflexivity |]); intros h [= <-].
      exists corpora, c. now repeat split. }
    destruct (find byName corpora) as [c|] eqn:E1.
    + apply find_some in E1 as [Hc Hf].
      destruct (Hfound c Hc) as (resolved & -> & -> & Hres); [| exact H |].
      * unfold exact_match. fold (byName c). now rewrite Hf.
      * now exists (Listed corpora), resolved.
    + destruct (find byDisplay corpora) as [c|] eqn:E2.
      * apply find_some in E2 as [Hc Hf].
        destruct (Hfound c Hc) as (resolved & -> & -> & Hres); [| exact H |].
        -- unfold exact_match. fold (byDisplay c). now rewrite Hf, orb_true_r.
        -- now exists (Listed corpora), resolved.
      * simpl in H. destruct H as [-> ->]. exists (Listed corpora), None.
        repeat split. discriminate.
  - destruct H as [-> ->]. exists ListingFailed, None. repeat split. discriminate.
Qed.

Lemma only_listings_nil : only_listings [].
Proof. intros e []. Qed.

Lemma only_listings_app (a b : list event) :
  only_listings a -> only_listings b -> only_listings (a ++ b).
Proof. intros Ha Hb e [H|H]%in_app_or; auto. Qed.

Lemma only_listings_one (parent : string) (answer : listing) :
  only_listings [ListedCorpora parent answer].
Proof. intros e [<-|[]]. eauto. Qed.

(** The guard, in any run: it only lists, it says true on a cache hit or
    on a listing that confirms, and it leaves the state alone when it says
    false. *)
Lemma not_confirmed_nil (cfg : Config) (corpusName : string) :
  ~ confirmed_by cfg corpusName [].
Proof. intros (parent & corpora & [] & _). Qed.

Lemma runs_guard {R : Type} (cfg : Config) (corpusName : string)
    (tool_context : option ToolContext) (otherwise : bool)
    (f : bool * option ToolContext -> tool R) (trace : list event) (result : option R) :
  runs (and_then (guard cfg corpusName tool_context otherwise) f) trace result ->
  exists front rest found toolContext,
    trace = (front ++ rest)%list /\ only_listings front
    /\ runs (f (found, toolContext)) rest result
    /\ (toolContext = tool_context \/ toolContext = record_match corpusName tool_context)
    /\ (found = false -> toolContext = tool_context)
    /\ (tool_context = None -> found = otherwise)
    /\ (found = true -> tool_context <> None ->
        unconfigured cfg = false
        /\ (cache_hit corpusName tool_context = true
            \/ confirmed_by cfg corpusName front))
    /\ (found = false -> unconfigured cfg = false ->
        cache_hit corpusName tool_context = false /\ ~ confirmed_by cfg corpusName front).
Proof.
  intros [(first & [found toolContext] & second & Hg & Hf & ->)|[Hg _]]%runs_and_then.
  - exists first, second, found, toolContext. split; [reflexivity |].
    destruct tool_context as [tc|]; simpl in Hg.
    + apply runs_check in Hg as [(-> & [= -> ->] & Hwhy)|(Hcfg & Hmiss & answer & -> & [= E])].
      * split; [apply only_listings_nil |]. split; [exact Hf |].
        split; [now left |]. split; [reflexivity |]. split; [discriminate |]. split.
        -- intros Hfound _. apply andb_prop in Hfound as [Hc Hh].
           apply negb_true_iff in Hc. auto.
        -- intros Hfound Hcfg. rewrite Hcfg in Hfound. simpl in Hfound.
           split; [exact Hfound | apply not_confirmed_nil].
      * split; [apply only_listings_one |]. split; [exact Hf |].
        unfold check_answer in E. destruct answer as [corpora|].
        -- destruct (existsb (exact_match cfg corpusName) corpora) eqn:Hex;
             injection E as -> ->.
           ++ split; [now right |]. split; [discriminate |]. split; [discriminate |].
              split; [|discriminate].
              intros _ _. split; [exact Hcfg |]. right.
              exists (parent_of cfg), corpora. split; [now left | exact Hex].
           ++ split; [now left |]. split; [reflexivity |]. split; [discriminate |].
              split; [discriminate |]. intros _ _. split; [exact Hmiss |].
              intros (parent & corpora' & [[= _ <-]|[]] & Hex'). congruence.
        -- injection E as -> ->. split; [now left |]. split; [reflexivity |].
           split; [discriminate |]. split; [discriminate |].
           intros _ _. split; [exact Hmiss |].
           intros (parent & corpora' & [[=]|[]] & _).
    + destruct Hg as [-> [= -> ->]].
      split; [apply only_listings_nil |]. split; [exact Hf |].
      split; [now left |]. split; [reflexivity |]. split; [reflexivity |]. split.
      * intros _ H. now contradiction H.
      * intros _ _. split; [reflexivity | apply not_confirmed_nil].
  - exfalso. destruct tool_context as [tc|]; simpl in Hg.
    + apply runs_check in Hg as [(_ & H & _)|(_ & _ & answer & _ & H)]; discriminate H.
    + destruct Hg as [_ H]. discriminate H.
Qed.

(** The exact resolution, in any run: it lists at most once and what it
    returns is the identifier or comes from that listing. *)
Lemma runs_resolution {R : Type} (cfg : Config) (corpusName : string)
    (f : option CorpusMatchResult -> tool R) (trace : list event) (result : option R) :
  runs (and_then (lift (resolveCorpusResourceName cfg corpusName)) f) trace result ->
  exists front rest resolved,
    trace = (front ++ rest)%list /\ only_listings front
    /\ runs (f resolved) rest result
    /\ forall h, resolved = Some h -> resolved_from cfg corpusName front h.
Proof.
  intros [(first & resolved & second & Hr & Hf & ->)|[Hr _]]%runs_and_then.
  - exists first, second, resolved. split; [reflexivity |].
    apply runs_resolve in Hr
      as [(Hpat & -> & [= ->])|(Hpat & answer & resolved' & -> & [= <-] & Hin)].
    + split; [apply only_listings_nil |]. split; [exact Hf |].
      intros h [= <-]. left. now split.
    + split; [apply only_listings_one |]. split; [exact Hf |].
      intros h Hh. right. exists (parent_of cfg), answer. split; [now left | now apply Hin].
  - exfalso. apply runs_resolve in Hr as [(_ & _ & H)|(_ & answer & resolved & _ & H & _)];
      discriminate H.
Qed.

End Runs.

(** ** Deleting a corpus *)

Section DeleteCorpus.

Lemma confirmed_by_app (cfg : Config) (corpusName : string) (a b : list event) :
  confirmed_by cfg corpusName a -> confirmed_by cfg corpusName (a ++ b).
Proof.
  intros (parent & corpora & Hin & Hex). exists parent, corpora.
  split; [apply in_or_app; now left | exact Hex].
Qed.

Lemma resolved_from_app (cfg : Config) (corpusName : string) (a b : list event)
    (h : CorpusMatchResult) :
  resolved_from cfg corpusName b h -> resolved_from cfg corpusName (a ++ b) h.
Proof.
  intros [H|(parent & answer & Hin & Hres)]; [now left | right].
  exists parent, answer. split; [apply in_or_app; now right | exact Hres].
Qed.

Lemma not_a_listing_deleted (trace : list event) (n : string) (a : completion) :
  only_listings trace -> ~ In (DeletedCorpus n a) trace.
Proof. intros H Hin. destruct (H _ Hin) as (parent & answer & E). discriminate E. Qed.

(** Every run of [deleteCorpus]: it stops with an error before any
    deletion, or it makes one deletion call after its listings. *)
Lemma deleteCorpus_runs (cfg : Config) (corpusName : string)
    (tool_context : option ToolContext) (trace : list event)
    (result : option (ToolResult * option ToolContext)) :
  runs (deleteCorpus cfg corpusName tool_context) trace result ->
  exists res toolContext' toolContext,
    result = Some (res, toolContext')
    /\ (toolContext = tool_context \/ toolContext = record_match corpusName tool_context)
    /\ ((only_listings trace /\ status res = error /\ toolContext' = toolContext)
        \/ exists front h answer,
             trace = (front ++ [DeletedCorpus (resourceName h) answer])%list
             /\ only_listings front
             /\ resolved_from cfg corpusName front h
             /\ (tool_context <> None ->
                 cache_hit corpusName tool_context = true
                 \/ confirmed_by cfg corpusName front)
             /\ unconfigured cfg = false
             /\ match answer with
                | Completed =>
                    status res = success
                    /\ toolContext' = invalidateCorpusExistsState corpusName toolContext
                | Failed _ => status res = error /\ toolContext' = toolContext
                end).
Proof.
  unfold deleteCorpus. destruct (unconfigured cfg) eqn:Hcfg.
  { intros [-> ->]. eexists _, _, tool_context. split; [reflexivity |].
    split; [now left |]. left. split; [apply only_listings_nil | now split]. }
  intros H. apply (runs_guard cfg corpusName tool_context true) in H
    as (front & rest & found & toolContext & -> & Hfront & H & Hctx & _ & _ & Hwhy & _).
  cbn [fst snd] in H. destruct found; cbn [negb] in H.
  - apply runs_resolution in H as (front2 & rest2 & resolved & -> & Hfront2 & H & Hres).
    destruct resolved as [h|].
    + destruct H as (answer & rest3 & -> & H).
      destruct answer as [|msg]; destruct H as [-> ->];
        eexists _, _, toolContext; (split; [reflexivity |]); (split; [exact Hctx |]);
        right; exists (front ++ front2)%list, h; eexists;
        (split; [now rewrite app_assoc |]);
        (split; [now apply only_listings_app |]);
        (split; [apply resolved_from_app; now apply Hres |]);
        (split; [intros Hsome; destruct (Hwhy eq_refl Hsome) as [_ [Hhit|Hconf]];
                 [now left | right; now apply confirmed_by_app] |]);
        (split; [reflexivity |]); now split.
    + destruct H as [-> ->]. eexists _, _, toolContext. split; [reflexivity |].
      split; [exact Hctx |]. left. rewrite app_nil_r.
      split; [now apply only_listings_app | now split].
  - destruct H as [-> ->]. eexists _, _, toolContext. split; [reflexivity |].
    split; [exact Hctx |]. left. rewrite app_nil_r. split; [exact Hfront | now split].
Qed.

(** X15.  [deleteCorpus] deletes only what it resolved: in every run a
    deletion call is the last call, comes after listing calls only, and
    names either the identifier itself (when it is of the full pattern) or
    the resource name of a listed corpus that matches the identifier
    exactly; with a tool context it is made only after a cache hit or a
    listing that confirms the identifier. *)
Theorem corpus_deletion_is_guarded
    (cfg : Config) (corpusName : string) (tool_context : option ToolContext)
    (trace : list event) (result : option (ToolResult * option ToolContext))
    (n : string) (a : completion) :
  runs (deleteCorpus cfg corpusName tool_context) trace result ->
  In (DeletedCorpus n a) trace ->
  exists front h,
    trace = (front ++ [DeletedCorpus n a])%list /\ only_listings front
    /\ n = resourceName h /\ resolved_from cfg corpusName front h
    /\ (tool_context <> None ->
        cache_hit corpusName tool_context = true \/ confirmed_by cfg corpusName front).
Proof.
  intros Hrun Hin.
  destruct (deleteCorpus_runs _ _ _ _ _ Hrun)
    as (res & ctx' & ctx & _ & _ & [(Hl & _)|(front & h & answer & -> & Hl & Hres & Hwhy & _)]).
  - now apply not_a_listing_deleted in Hin.
  - apply in_app_or in Hin as [Hin|[[= <- <-]|[]]].
    + now apply not_a_listing_deleted in Hin.
    + exists front, h. now repeat split.
Qed.

Lemma corpus_deletion_is_guarded_witness :
  exists front h,
    [ListedCorpora "projects/p/locations/l" (Listed [notes_a; notes]);
     ListedCorpora "projects/p/locations/l" (Listed [notes_a; notes]);
     DeletedCorpus "projects/p/locations/l/ragCorpora/2" Completed]
    = (front ++ [DeletedCorpus "projects/p/locations/l/ragCorpora/2" Completed])%list
    /\ only_listings front
    /\ "projects/p/locations/l/ragCorpora/2" = resourceName h
    /\ resolved_from sample_cfg "Notes" front h
    /\ (with_state ∅ <> None ->
        cache_hit "Notes" (with_state ∅) = true \/ confirmed_by sample_cfg "Notes" front).
Proof.
  apply (corpus_deletion_is_guarded sample_cfg "Notes" (with_state ∅) _
           (Some (buildResponse success "Successfully deleted corpus 'Notes'",
                  invalidateCorpusExistsState "Notes" (record_match "Notes" (with_state ∅))))).
  - simpl. eexists (Listed [notes_a; notes]), _. split; [reflexivity |].
    simpl. eexists (Listed [notes_a; notes]), _. split; [reflexivity |].
    simpl. eexists Completed, _. split; [reflexivity |]. now split.
  - right. right. now left.
Defined.

Lemma record_match_keeps_current (corpusName : string) (toolContext : option ToolContext)
    (v : jsval) :
  current_corpus_of toolContext = Some v -> truthy v = true ->
  current_corpus_of (record_match corpusName toolContext) = Some v.
Proof.
  unfold current_corpus_of, record_match.
  destruct (state_of toolContext) as [st|] eqn:E; [|discriminate].
  intros Hv Ht. simpl.
  assert (Hh : holds (<[exists_key corpusName := VBool true]> st) "current_corpus" = true).
  { rewrite holds_insert_ne by apply exists_key_not_current. unfold holds. now rewrite Hv. }
  rewrite Hh. simpl. rewrite lookup_insert_ne by apply exists_key_not_current. exact Hv.
Qed.

Lemma invalidate_keeps_current (corpusName : string) (toolContext : option ToolContext) :
  current_corpus_of (invalidateCorpusExistsState corpusName toolContext)
  = current_corpus_of toolContext.
Proof.
  unfold current_corpus_of, invalidateCorpusExistsState.
  destruct (state_of toolContext) as [st|] eqn:E; [|now rewrite E].
  destruct (holds st (exists_key corpusName)); [|now rewrite E].
  simpl. apply lookup_insert_ne, exists_key_not_current.
Qed.

(** X16.  A successful deletion clears the memoised existence: the
    deletion call completed, the flag of the identifier no longer counts
    as a cache hit, and the next existence check of that identifier reads
    the registry. *)
Theorem successful_deletion_resets_cache
    (cfg : Config) (corpusName : string) (tool_context : option ToolContext)
    (trace : list event) (res : ToolResult) (toolContext' : option ToolContext) :
  runs (deleteCorpus cfg corpusName tool_context) trace (Some (res, toolContext')) ->
  status res = success ->
  (exists n, In (DeletedCorpus n Completed) trace)
  /\ cache_hit corpusName toolContext' = false
  /\ exists k, checkCorpusExists cfg corpusName toolContext'
               = ListRagCorpora (parent_of cfg) k.
Proof.
  intros Hrun Hok.
  destruct (deleteCorpus_runs _ _ _ _ _ Hrun)
    as (res' & ctx' & ctx & [= <- <-] & _
        & [(_ & Herr & _)|(front & h & answer & -> & _ & _ & _ & Hcfg & Hans)]).
  - congruence.
  - destruct answer as [|msg]; [|destruct Hans; congruence].
    destruct Hans as [_ ->].
    split; [exists (resourceName h); apply in_or_app; right; now left |].
    split; [apply cache_miss_after_invalidate |].
    unfold checkCorpusExists. rewrite Hcfg, cache_miss_after_invalidate. eauto.
Qed.

Lemma successful_deletion_resets_cache_witness :
  cache_hit "Notes"
    (invalidateCorpusExistsState "Notes" (record_match "Notes" (with_state ∅))) = false.
Proof.
  refine (proj1 (proj2 (successful_deletion_resets_cache sample_cfg "Notes" (with_state ∅)
           [ListedCorpora "projects/p/locations/l" (Listed [notes]);
            ListedCorpora "projects/p/locations/l" (Listed [notes]);
            DeletedCorpus "projects/p/locations/l/ragCorpora/2" Completed]
           (buildResponse success "Successfully deleted corpus 'Notes'")
           (invalidateCorpusExistsState "Notes" (record_match "Notes" (with_state ∅)))
           _ _))).
  - simpl. eexists (Listed [notes]), _. split; [reflexivity |].
    simpl. eexists (Listed [notes]), _. split; [reflexivity |].
    simpl. eexists Completed, _. split; [reflexivity |]. now split.
  - reflexivity.
Defined.

(** X17.  [deleteCorpus] never moves a [current_corpus] that is set: in
    every run, whatever the outcome, a truthy [current_corpus] is the same
    afterwards -- also when it names the corpus that was just deleted. *)
Theorem deletion_keeps_current_corpus
    (cfg : Config) (corpusName : string) (tool_context : option ToolContext)
    (trace : list event) (res : ToolResult) (toolContext' : option ToolContext)
    (v : jsval) :
  runs (deleteCorpus cfg corpusName tool_context) trace (Some (res, toolContext')) ->
  current_corpus_of tool_context = Some v -> truthy v = true ->
  current_corpus_of toolContext' = Some v.
Proof.
  intros Hrun Hv Ht.
  destruct (deleteCorpus_runs _ _ _ _ _ Hrun)
    as (res' & ctx' & ctx & [= <- <-] & Hctx & Hshape).
  assert (Hcur : current_corpus_of ctx = Some v).
  { destruct Hctx as [-> | ->]; [exact Hv | now apply record_match_keeps_current]. }
  destruct Hshape as [(_ & _ & ->)|(front & h & answer & _ & _ & _ & _ & _ & Hans)];
    [exact Hcur |].
  destruct answer as [|msg]; destruct Hans as [_ ->]; [|exact Hcur].
  now rewrite invalidate_keeps_current.
Qed.

Lemma deletion_keeps_current_corpus_witness :
  current_corpus_of
    (invalidateCorpusExistsState "Notes"
       (record_match "Notes" (with_state {["current_corpus" := VStr "Notes"]})))
  = Some (VStr "Notes").
Proof.
  refine (deletion_keeps_current_corpus sample_cfg "Notes"
            (with_state {["current_corpus" := VStr "Notes"]})
            [ListedCorpora "projects/p/locations/l" (Listed [notes]);
             ListedCorpora "projects/p/locations/l" (Listed [notes]);
             DeletedCorpus "projects/p/locations/l/ragCorpora/2" Completed]
            (buildResponse success "Successfully deleted corpus 'Notes'")
            (invalidateCorpusExistsState "Notes"
               (record_match "Notes" (with_state {["current_corpus" := VStr "Notes"]})))
            (VStr "Notes") _ _ _).
  - simpl. eexists (Listed [notes]), _. split; [reflexivity |].
    simpl. eexists (Listed [notes]), _. split; [reflexivity |].
    simpl. eexists Completed, _. split; [reflexivity |]. now split.
  - reflexivity.
  - reflexivity.
Defined.

End DeleteCorpus.

(** ** Creating a corpus *)

Section CreateCorpus.

Lemma not_a_listing_created (trace : list event) (parent d : string) (a : creation) :
  only_listings trace -> ~ In (CreatedCorpus parent d a) trace.
Proof. intros H Hin. destruct (H _ Hin) as (parent' & answer & E). discriminate E. Qed.

(** Every run of [createCorpus]. *)
Lemma createCorpus_runs (cfg : Config) (corpusName : string)
    (tool_context : option ToolContext) (trace : list event)
    (result : option (ToolResult * option ToolContext)) :
  runs (createCorpus cfg corpusName tool_context) trace result ->
  exists res toolContext',
    result = Some (res, toolContext')
    /\ ((only_listings trace /\ status res = error /\ toolContext' = tool_context)
        \/ (only_listings trace /\ status res = info
            /\ (toolContext' = tool_context
                \/ toolContext' = record_match corpusName tool_context))
        \/ exists front answer,
             trace = (front ++ [CreatedCorpus (parent_of cfg)
                                  (Js.map_chars clean_char corpusName) answer])%list
             /\ only_listings front
             /\ cache_hit corpusName tool_context = false
             /\ ~ confirmed_by cfg corpusName front
             /\ unconfigured cfg = false
             /\ match answer with
                | CreationFailed _ => status res = error /\ toolContext' = tool_context
                | Created _ =>
                    match tool_context with
                    | None => status res = success /\ toolContext' = None
                    | Some tc =>
                        match state tc with
                        | None => status res = error /\ toolContext' = tool_context
                        | Some st =>
                            status res = success
                            /\ toolContext'
                               = with_state (<["current_corpus" := VStr corpusName]>
                                               (<[exists_key corpusName := VBool true]> st))
                        end
                    end
                end).
Proof.
  unfold createCorpus. destruct (unconfigured cfg) eqn:Hcfg.
  { intros [-> ->]. eexists _, _. split; [reflexivity |].
    left. split; [apply only_listings_nil | now split]. }
  intros H. apply (runs_guard cfg corpusName tool_context false) in H
    as (front & rest & found & toolContext & -> & Hfront & H & Hctx & Hsame & _ & _ & Hnot).
  cbn [fst snd] in H. destruct found.
  - destruct H as [-> ->]. eexists _, _. split; [reflexivity |].
    right. left. rewrite app_nil_r. now repeat split.
  - rewrite (Hsame eq_refl) in H. destruct (Hnot eq_refl Hcfg) as [Hmiss Hnc].
    destruct H as (answer & rest' & -> & H).
    assert (Hend : exists res toolContext',
               rest' = [] /\ result = Some (res, toolContext')
               /\ match answer with
                  | CreationFailed _ => status res = error /\ toolContext' = tool_context
                  | Created _ =>
                      match tool_context with
                      | None => status res = success /\ toolContext' = None
                      | Some tc =>
                          match state tc with
                          | None => status res = error /\ toolContext' = tool_context
                          | Some st =>
                              status res = success
                              /\ toolContext'
                                 = with_state (<["current_corpus" := VStr corpusName]>
                                                 (<[exists_key corpusName := VBool true]> st))
                          end
                      end
                  end).
    { destruct answer as [response|msg].
      - destruct tool_context as [[[st|]]|]; destruct H as [-> ->];
          eexists _, _; (split; [reflexivity |]); (split; [reflexivity |]); now split.
      - destruct H as [-> ->]. eexists _, _. split; [reflexivity |].
        split; [reflexivity |]. now split. }
    destruct Hend as (res & ctx' & -> & -> & Hans).
    exists res, ctx'. split; [reflexivity |]. right. right.
    exists front, answer. now repeat split.
Qed.

(** X18.  [createCorpus] asks for a creation at most once, as its last
    call, under the configured parent and with the identifier cleaned --
    every character outside [a-zA-Z0-9_-] replaced by an underscore -- as
    display name; and only when the existence check did not confirm the
    identifier: no cached flag and no listing with an exact match. *)
Theorem creation_request_shape
    (cfg : Config) (corpusName : string) (tool_context : option ToolContext)
    (trace : list event) (result : option (ToolResult * option ToolContext))
    (parent d : string) (a : creation) :
  runs (createCorpus cfg corpusName tool_context) trace result ->
  In (CreatedCorpus parent d a) trace ->
  (exists front, trace = (front ++ [CreatedCorpus parent d a])%list /\ only_listings front
                 /\ ~ confirmed_by cfg corpusName front)
  /\ parent = parent_of cfg
  /\ d = Js.map_chars clean_char corpusName
  /\ all_id_chars d = true /\ String.length d = String.length corpusName
  /\ cache_hit corpusName tool_context = false.
Proof.
  intros Hrun Hin.
  destruct (createCorpus_runs _ _ _ _ _ Hrun)
    as (res & ctx' & _ & [(Hl & _)|[(Hl & _)|(front & answer & -> & Hl & Hmiss & Hnc & _)]]).
  - now apply not_a_listing_created in Hin.
  - now apply not_a_listing_created in Hin.
  - apply in_app_or in Hin as [Hin|[[= <- <- <-]|[]]].
    + now apply not_a_listing_created in Hin.
    + split; [now exists front |]. repeat split; try assumption.
      * apply clean_all_id_chars.
      * apply length_map_chars.
Qed.

Lemma creation_request_shape_witness :
  "projects/p/locations/l" = parent_of sample_cfg
  /\ "my_notes_" = Js.map_chars clean_char "my notes!"
  /\ all_id_chars "my_notes_" = true.
Proof.
  destruct (creation_request_shape sample_cfg "my notes!" (with_state ∅)
              [ListedCorpora "projects/p/locations/l" (Listed [notes]);
               CreatedCorpus "projects/p/locations/l" "my_notes_"
                 (Created {| corpus_name := Some "projects/p/locations/l/ragCorpora/8";
                             corpus_displayName := Some "my_notes_" |})]
              (Some (buildResponse success "Successfully created corpus 'my notes!'",
                     with_state (<["current_corpus" := VStr "my notes!"]>
                                   (<[exists_key "my notes!" := VBool true]> ∅))))
              "projects/p/locations/l" "my_notes_"
              (Created {| corpus_name := Some "projects/p/locations/l/ragCorpora/8";
                          corpus_displayName := Some "my_notes_" |}))
    as (_ & H1 & H2 & H3 & _).
  - simpl. eexists (Listed [notes]), _. split; [reflexivity |].
    simpl. eexists _, _. split; [reflexivity |]. now split.
  - right. now left.
  - now repeat split.
Defined.

(** X19.  A created corpus is remembered and becomes the current one: when
    [createCorpus] succeeds on a context with a state, the existence flag
    of the identifier is true, [current_corpus] is the identifier
    (whatever it held), no other key has changed, and the next existence
    check of the identifier answers true without any call. *)
Theorem created_corpus_is_remembered
    (cfg : Config) (corpusName : string) (st : State)
    (trace : list event) (res : ToolResult) (toolContext' : option ToolContext) :
  runs (createCorpus cfg corpusName (with_state st)) trace (Some (res, toolContext')) ->
  status res = success ->
  exists st',
    toolContext' = with_state st'
    /\ st' !! exists_key corpusName = Some (VBool true)
    /\ st' !! "current_corpus" = Some (VStr corpusName)
    /\ (forall k, k <> exists_key corpusName -> k <> "current_corpus" -> st' !! k = st !! k)
    /\ checkCorpusExists cfg corpusName toolContext' = Ret (true, toolContext').
Proof.
  intros Hrun Hok.
  destruct (createCorpus_runs _ _ _ _ _ Hrun)
    as (res' & ctx' & [= <- <-]
        & [(_ & Herr & _)|[(_ & Hinfo & _)|(front & answer & _ & _ & _ & _ & Hcfg & Hans)]]);
    [congruence | congruence |].
  destruct answer as [response|msg]; [|destruct Hans; congruence].
  simpl in Hans. destruct Hans as [_ ->].
  pose proof (exists_key_not_current corpusName) as Hne.
  eexists. split; [reflexivity |].
  assert (Hflag : (<["current_corpus" := VStr corpusName]>
                     (<[exists_key corpusName := VBool true]> st)) !! exists_key corpusName
                  = Some (VBool true)).
  { rewrite lookup_insert_ne by congruence. apply lookup_insert_eq. }
  split; [exact Hflag |]. split; [apply lookup_insert_eq |]. split.
  - intros k Hk Hc. rewrite lookup_insert_ne by congruence. now apply lookup_insert_ne.
  - unfold checkCorpusExists, cache_hit, with_state, holds. simpl.
    now rewrite Hcfg, Hflag.
Qed.

Lemma created_corpus_is_remembered_witness :
  exists st',
    with_state (<["current_corpus" := VStr "Plans"]>
                  (<[exists_key "Plans" := VBool true]> {["current_corpus" := VStr "Notes"]}))
    = with_state st'
    /\ st' !! exists_key "Plans" = Some (VBool true)
    /\ st' !! "current_corpus" = Some (VStr "Plans")
    /\ (forall k, k <> exists_key "Plans" -> k <> "current_corpus" ->
          st' !! k = ({["current_corpus" := VStr "Notes"]} : State) !! k)
    /\ checkCorpusExists sample_cfg "Plans" (with_state st') = Ret (true, with_state st').
Proof.
  destruct (created_corpus_is_remembered sample_cfg "Plans"
              {["current_corpus" := VStr "Notes"]}
              [ListedCorpora "projects/p/locations/l" (Listed [notes]);
               CreatedCorpus "projects/p/locations/l" "Plans"
                 (Created {| corpus_name := Some "projects/p/locations/l/ragCorpora/8";
                             corpus_displayName := Some "Plans" |})]
              (buildResponse success "Successfully created corpus 'Plans'")
              (with_state (<["current_corpus" := VStr "Plans"]>
                             (<[exists_key "Plans" := VBool true]>
                                {["current_corpus" := VStr "Notes"]}))))
    as (st' & E & H1 & H2 & H3 & H4).
  - simpl. eexists (Listed [notes]), _. split; [reflexivity |].
    simpl. eexists _, _. split; [reflexivity |]. now split.
  - reflexivity.
  - exists st'. rewrite <- E at 2 3. now repeat split.
Defined.

(** X20.  [createCorpus] writes the state only when it answers success or
    that the corpus already exists: every run that ends with an error
    returns the context it was given. *)
Theorem failed_creation_leaves_state
    (cfg : Config) (corpusName : string) (tool_context : option ToolContext)
    (trace : list event) (res : ToolResult) (toolContext' : option ToolContext) :
  runs (createCorpus cfg corpusName tool_context) trace (Some (res, toolContext')) ->
  status res = error -> toolContext' = tool_context.
Proof.
  intros Hrun Herr.
  destruct (createCorpus_runs _ _ _ _ _ Hrun)
    as (res' & ctx' & [= <- <-]
        & [(_ & _ & ->)|[(_ & Hinfo & _)|(front & answer & _ & _ & _ & _ & _ & Hans)]]);
    [reflexivity | congruence |].
  destruct answer as [response|msg]; [|now destruct Hans].
  destruct tool_context as [[[st|]]|]; destruct Hans as [H ->]; congruence.
Qed.

Lemma failed_creation_leaves_state_witness :
  with_state ({["current_corpus" := VStr "Notes"]} : State)
  = with_state {["current_corpus" := VStr "Notes"]}.
Proof.
  apply (failed_creation_leaves_state sample_cfg "Plans"
           (with_state {["current_corpus" := VStr "Notes"]})
           [ListedCorpora "projects/p/locations/l" ListingFailed;
            CreatedCorpus "projects/p/locations/l" "Plans" (CreationFailed "quota")]
           (buildResponse error "Error creating corpus: quota")).
  - simpl. eexists ListingFailed, _. split; [reflexivity |].
    simpl. eexists _, _. split; [reflexivity |]. now split.
  - reflexivity.
Defined.

End CreateCorpus.

(** ** Deleting a document *)

Section DeleteDocument.

Lemma not_a_listing_file (trace : list event) (n : string) (a : completion) :
  only_listings trace -> ~ In (DeletedFile n a) trace.
Proof. intros H Hin. destruct (H _ Hin) as (parent & answer & E). discriminate E. Qed.

(** X21.  [deleteDocument] deletes one file of the corpus it resolved: in
    every run a file deletion is the last call, comes after listing calls
    only, and names [<corpus>/ragFiles/<document id>] where [<corpus>] is
    the identifier itself (when it is of the full pattern) or the resource
    name of a listed corpus that matches the identifier exactly; with a
    tool context it is made only after a cache hit or a confirming
    listing.  The tool itself writes nothing into the state: the context
    it returns is the given one, or the one in which the check recorded
    the existence. *)
Theorem document_deletion_is_guarded
    (cfg : Config) (corpusName documentId : string) (tool_context : option ToolContext)
    (trace : list event) (result : option (ToolResult * option ToolContext)) :
  runs (deleteDocument cfg corpusName documentId tool_context) trace result ->
  (exists res toolContext',
      result = Some (res, toolContext')
      /\ (toolContext' = tool_context
          \/ toolContext' = record_match corpusName tool_context))
  /\ forall n a, In (DeletedFile n a) trace ->
       exists front h,
         trace = (front ++ [DeletedFile n a])%list /\ only_listings front
         /\ n = resourceName h +:+ "/ragFiles/" +:+ documentId
         /\ resolved_from cfg corpusName front h
         /\ (tool_context <> None ->
             cache_hit corpusName tool_context = true
             \/ confirmed_by cfg corpusName front).
Proof.
  unfold deleteDocument. destruct (unconfigured cfg) eqn:Hcfg.
  { intros [-> ->]. split; [eexists _, _; split; [reflexivity | now left] |].
    intros n a []. }
  intros H. apply (runs_guard cfg corpusName tool_context true) in H
    as (front & rest & found & toolContext & -> & Hfront & H & Hctx & _ & _ & Hwhy & _).
  cbn [fst snd] in H. destruct found; cbn [negb] in H.
  - apply runs_resolution in H as (front2 & rest2 & resolved & -> & Hfront2 & H & Hres).
    destruct resolved as [h|].
    + destruct H as (answer & rest3 & -> & H).
      assert (Hend : rest3 = [] /\ exists res, result = Some (res, toolContext))
        by (destruct answer; destruct H as [-> ->]; split; eauto).
      destruct Hend as [-> [res ->]].
      split; [eexists _, _; split; [reflexivity | exact Hctx] |].
      intros n a Hin. rewrite app_assoc in Hin.
      apply in_app_or in Hin as [Hin|[[= <- <-]|[]]].
      * exfalso. revert Hin. apply not_a_listing_file. now apply only_listings_app.
      * exists (front ++ front2)%list, h. split; [now rewrite app_assoc |].
        split; [now apply only_listings_app |]. split; [reflexivity |].
        split; [apply resolved_from_app; now apply Hres |].
        intros Hsome. destruct (Hwhy eq_refl Hsome) as [_ [Hhit|Hconf]];
          [now left | right; now apply confirmed_by_app].
    + destruct H as [-> ->].
      split; [eexists _, _; split; [reflexivity | exact Hctx] |].
      intros n a Hin. exfalso. revert Hin. apply not_a_listing_file.
      rewrite app_nil_r. now apply only_listings_app.
  - destruct H as [-> ->].
    split; [eexists _, _; split; [reflexivity | exact Hctx] |].
    intros n a Hin. exfalso. revert Hin. apply not_a_listing_file. now rewrite app_nil_r.
Qed.

Lemma document_deletion_is_guarded_witness :
  exists front h,
    [ListedCorpora "projects/p/locations/l" (Listed [notes]);
     ListedCorpora "projects/p/locations/l" (Listed [notes]);
     DeletedFile "projects/p/locations/l/ragCorpora/2/ragFiles/77" Completed]
    = (front ++ [DeletedFile "projects/p/locations/l/ragCorpora/2/ragFiles/77" Completed])%list
    /\ only_listings front
    /\ "projects/p/locations/l/ragCorpora/2/ragFiles/77"
       = resourceName h +:+ "/ragFiles/" +:+ "77"
    /\ resolved_from sample_cfg "Notes" front h
    /\ (with_state ∅ <> None ->
        cache_hit "Notes" (with_state ∅) = true \/ confirmed_by sample_cfg "Notes" front).
Proof.
  refine (proj2 (document_deletion_is_guarded sample_cfg "Notes" "77" (with_state ∅) _
                   (Some (buildResponse success
                            "Successfully deleted document '77' from corpus 'Notes'",
                          record_match "Notes" (with_state ∅))) _) _ Completed _).
  - simpl. eexists (Listed [notes]), _. split; [reflexivity |].
    simpl. eexists (Listed [notes]), _. split; [reflexivity |].
    simpl. eexists Completed, _. split; [reflexivity |]. now split.
  - right. right. now left.
Defined.

End DeleteDocument.

(** ** Adding data *)

Section AddData.

Lemma drive_ids_chars (paths : list string) (id : string) :
  In id (driveFileIds (parsePaths paths)) -> id <> "" /\ all_id_chars id = true.
Proof.
  induction paths as [|p paths IH]; [intros [] |].
  rewrite parsePaths_cons. cbn [merge driveFileIds]. intros [Hin|Hin]%in_app_or; [|auto].
  destruct (parse_path_outcome p) as [| |id' convs H1 H2 _|_ _]; cbn [driveFileIds] in Hin;
    try destruct Hin as [<-|[]]; try destruct Hin. now split.
Qed.

(** Without Drive file there is no conversion, and all that is validated
    is a storage path. *)
Lemma no_drive_ids (paths : list string) :
  driveFileIds (parsePaths paths) = [] ->
  conversions (parsePaths paths) = []
  /\ length (gcsPaths (parsePaths paths)) = length (validated (parsePaths paths)).
Proof.
  induction paths as [|p paths IH]; [now split |].
  rewrite parsePaths_cons. cbn [merge validated conversions gcsPaths driveFileIds].
  intros [Hp Hrest]%app_eq_nil. destruct (IH Hrest) as [IHc IHl].
  rewrite IHc, app_nil_r, !length_app, IHl.
  destruct (parse_path_outcome p) as [| |id convs _ _ _|_ _];
    cbn [driveFileIds] in Hp; try discriminate Hp; now split.
Qed.

Lemma unusable_not_validated (p : string) :
  unusable p -> validated (parse_path no_paths p) = [].
Proof.
  intros (Hdocs & Hdrive & Hgs). unfold parse_path.
  destruct (negb (Js.nonempty p) || String.eqb (Js.trim p) ""); [reflexivity |].
  now rewrite Hdocs, Hdrive, Hgs.
Qed.

Lemma all_unusable (paths : list string) :
  (forall p, In p paths -> unusable p) -> validated (parsePaths paths) = [].
Proof.
  induction paths as [|p paths IH]; intros H; [reflexivity |].
  rewrite parsePaths_cons. cbn [merge validated].
  rewrite (unusable_not_validated p) by (apply H; now left).
  apply IH. intros q Hq. apply H. now right.
Qed.

(** X22.  [addData] stops at once, with an error, without any call and
    with the context as given, when none of the paths holds a Docs or
    Drive link or starts with [gs://] (blank paths included), and also
    when it is called without a tool context. *)
Theorem add_data_stops_without_input
    (cfg : Config) (corpusName : string) (paths : list string)
    (tool_context : option ToolContext) :
  (forall p, In p paths -> unusable p) \/ tool_context = None ->
  exists errorMessage,
    addData cfg corpusName paths tool_context
    = Done (buildResponse error errorMessage, tool_context).
Proof.
  intros H. unfold addData. destruct (unconfigured cfg); [eauto |].
  destruct H as [H| ->].
  - rewrite (all_unusable paths H). eauto.
  - destruct (validated (parsePaths paths)); simpl; eauto.
Qed.

Lemma add_data_stops_without_input_witness :
  exists errorMessage,
    addData sample_cfg "Notes" ["  "; "https://example.org/file.pdf"] (with_state ∅)
    = Done (buildResponse error errorMessage, with_state ∅).
Proof.
  apply (add_data_stops_without_input sample_cfg "Notes"
           ["  "; "https://example.org/file.pdf"] (with_state ∅)).
  left. intros p [<-|[<-|[]]]; repeat split.
Defined.

Lemma not_a_listing_import (trace : list event) (parent : string) (c : ImportConfig)
    (a : import_call) :
  only_listings trace -> ~ In (ImportedFiles parent c a) trace.
Proof. intros H Hin. destruct (H _ Hin) as (parent' & answer & E). discriminate E. Qed.

(** Every run of [addData]. *)
Lemma addData_runs (cfg : Config) (corpusName : string) (paths : list string)
    (tool_context : option ToolContext) (trace : list event)
    (result : option (ToolResult * option ToolContext)) :
  runs (addData cfg corpusName paths tool_context) trace result ->
  exists res toolContext',
    result = Some (res, toolContext')
    /\ ((only_listings trace /\ status res = error)
        \/ exists front h,
             only_listings front /\ resolved_from cfg corpusName front h
             /\ (cache_hit corpusName tool_context = true
                 \/ confirmed_by cfg corpusName front)
             /\ ((driveFileIds (parsePaths paths) = [] /\ trace = front
                  /\ (status res = success ->
                      message res = added_message corpusName (JsNumber 0) (parsePaths paths)))
                 \/ (driveFileIds (parsePaths paths) <> []
                     /\ exists answer,
                          trace = (front ++ [ImportedFiles (resourceName h)
                                               (drive_config (parsePaths paths))
                                               answer])%list))).
Proof.
  unfold addData. destruct (unconfigured cfg) eqn:Hcfg.
  { intros [-> ->]. eexists _, _. split; [reflexivity |].
    left. split; [apply only_listings_nil | reflexivity]. }
  destruct (validated (parsePaths paths)) as [|v vs] eqn:Hval.
  { intros [-> ->]. eexists _, _. split; [reflexivity |].
    left. split; [apply only_listings_nil | reflexivity]. }
  intros H. apply (runs_guard cfg corpusName tool_context false) in H
    as (front & rest & found & toolContext & -> & Hfront & H & Hctx & _ & Hnone & Hwhy & _).
  cbn [fst snd] in H. destruct found; cbn [negb] in H.
  - assert (Hsome : tool_context <> None) by (intros E; now specialize (Hnone E)).
    destruct (Hwhy eq_refl Hsome) as [_ Hguard].
    apply runs_resolution in H as (front2 & rest2 & resolved & -> & Hfront2 & H & Hres).
    destruct resolved as [h|].
    + unfold import_configs in H.
      destruct (driveFileIds (parsePaths paths)) as [|id ids] eqn:Hids.
      * simpl in H.
        assert (Hend : rest2 = []
                       /\ exists res toolContext',
                            result = Some (res, toolContext')
                            /\ (status res = success ->
                                message res = added_message corpusName (JsNumber 0) (parsePaths paths))).
        { destruct toolContext as [[[st|]]|]; destruct H as [-> ->];
            (split; [reflexivity |]); eexists _, _; (split; [reflexivity |]);
            first [reflexivity | discriminate]. }
        destruct Hend as (-> & res & ctx' & -> & Hmsg).
        exists res, ctx'. split; [reflexivity |]. right.
        exists (front ++ front2)%list, h.
        split; [now apply only_listings_app |].
        split; [apply resolved_from_app; now apply Hres |].
        split; [destruct Hguard; [now left | right; now apply confirmed_by_app] |].
        left. split; [reflexivity |]. split; [now rewrite app_nil_r | exact Hmsg].
      * simpl in H. destruct H as (answer & rest3 & -> & H).
        assert (Hend : rest3 = [] /\ exists res toolContext', result = Some (res, toolContext')).
        { destruct answer as [msg| |[[value|]|]]; simpl in H;
            destruct toolContext as [[[st|]]|]; destruct H as [-> ->]; split; eauto. }
        destruct Hend as (-> & res & ctx' & ->).
        exists res, ctx'. split; [reflexivity |]. right.
        exists (front ++ front2)%list, h.
        split; [now apply only_listings_app |].
        split; [apply resolved_from_app; now apply Hres |].
        split; [destruct Hguard; [now left | right; now apply confirmed_by_app] |].
        right. split; [discriminate |]. exists answer.
        unfold drive_config. rewrite Hids. now rewrite app_assoc.
    + destruct H as [-> ->]. eexists _, _. split; [reflexivity |]. left.
      rewrite app_nil_r. split; [now apply only_listings_app | reflexivity].
  - destruct H as [-> ->]. eexists _, _. split; [reflexivity |]. left.
    rewrite app_nil_r. split; [exact Hfront | reflexivity].
Qed.

(** X23.  What [addData] imports: in every run an import call is the last
    call, comes after listing calls only, is addressed to the corpus that
    was resolved (after a cache hit or a confirming listing), and carries
    exactly the Drive file ids of the parsed paths -- at least one, each a
    non-empty id made of [a-zA-Z0-9_-] -- with the default chunking (512,
    overlap 100) and embedding rate (1000). *)
Theorem only_drive_files_are_imported
    (cfg : Config) (corpusName : string) (paths : list string)
    (tool_context : option ToolContext) (trace : list event)
    (result : option (ToolResult * option ToolContext))
    (parent : string) (config : ImportConfig) (a : import_call) :
  runs (addData cfg corpusName paths tool_context) trace result ->
  In (ImportedFiles parent config a) trace ->
  (exists front h,
      trace = (front ++ [ImportedFiles parent config a])%list /\ only_listings front
      /\ parent = resourceName h /\ resolved_from cfg corpusName front h
      /\ (cache_hit corpusName tool_context = true \/ confirmed_by cfg corpusName front))
  /\ resourceIds config = driveFileIds (parsePaths paths)
  /\ resourceIds config <> []
  /\ (forall id, In id (resourceIds config) -> id <> "" /\ all_id_chars id = true)
  /\ chunkSize config = 512%nat /\ chunkOverlap config = 100%nat
  /\ maxEmbeddingRequestsPerMin config = 1000%nat.
Proof.
  intros Hrun Hin.
  destruct (addData_runs _ _ _ _ _ _ Hrun)
    as (res & ctx' & _ & [(Hl & _)|(front & h & Hl & Hres & Hguard
                                   & [(_ & -> & _)|(Hids & answer & ->)])]).
  - now apply not_a_listing_import in Hin.
  - now apply not_a_listing_import in Hin.
  - apply in_app_or in Hin as [Hin|[[= <- <- <-]|[]]].
    + now apply not_a_listing_import in Hin.
    + split; [exists front, h; now repeat split |].
      split; [reflexivity |]. split; [exact Hids |].
      split; [intros id; apply drive_ids_chars |]. now repeat split.
Qed.

Lemma only_drive_files_are_imported_witness :
  resourceIds (drive_config (parsePaths ["gs://bucket/a.pdf";
                                         "https://docs.google.com/document/d/D1/edit"]))
  = driveFileIds (parsePaths ["gs://bucket/a.pdf";
                              "https://docs.google.com/document/d/D1/edit"])
  /\ resourceIds (drive_config (parsePaths ["gs://bucket/a.pdf";
                                           "https://docs.google.com/document/d/D1/edit"]))
     <> [].
Proof.
  destruct (only_drive_files_are_imported sample_cfg "Notes"
              ["gs://bucket/a.pdf"; "https://docs.google.com/document/d/D1/edit"]
              (with_state ∅)
              [ListedCorpora "projects/p/locations/l" (Listed [notes]);
               ListedCorpora "projects/p/locations/l" (Listed [notes]);
               ImportedFiles "projects/p/locations/l/ragCorpora/2"
                 (drive_config (parsePaths ["gs://bucket/a.pdf";
                                            "https://docs.google.com/document/d/D1/edit"]))
                 (Started (Resolved (LongCount 1)))]
              (Some (buildResponse success
                       "Successfully added 01 file(s) to corpus 'Notes' (Converted Google Docs URLs to Drive format)",
                     record_match "Notes" (with_state ∅)))
              "projects/p/locations/l/ragCorpora/2"
              (drive_config (parsePaths ["gs://bucket/a.pdf";
                                         "https://docs.google.com/document/d/D1/edit"]))
              (Started (Resolved (LongCount 1))))
    as (_ & H1 & H2 & _).
  - hnf. eexists (Listed [notes]), _. split; [reflexivity |].
    hnf. eexists (Listed [notes]), _. split; [reflexivity |].
    hnf. eexists (Started (Resolved (LongCount 1))), _. split; [reflexivity |].
    hnf. split; reflexivity.
  - right. right. now left.
  - now split.
Defined.

(** X24.  Storage paths are validated but never sent: when the parsed
    paths hold no Drive file, no run of [addData] makes an import call
    (it only lists), every validated path is a [gs://] path, and a run
    that succeeds reports the number of validated paths as added. *)
Theorem storage_paths_are_not_imported
    (cfg : Config) (corpusName : string) (paths : list string)
    (tool_context : option ToolContext) (trace : list event)
    (res : ToolResult) (toolContext' : option ToolContext) :
  driveFileIds (parsePaths paths) = [] ->
  runs (addData cfg corpusName paths tool_context) trace (Some (res, toolContext')) ->
  only_listings trace
  /\ length (gcsPaths (parsePaths paths)) = length (validated (parsePaths paths))
  /\ (status res = success ->
      message res
      = "Successfully added " +:+ decimal (length (validated (parsePaths paths)))
        +:+ " file(s) to corpus '" +:+ corpusName +:+ "'").
Proof.
  intros Hids Hrun.
  destruct (no_drive_ids paths Hids) as [Hconv Hsplit].
  split; [|split; [exact Hsplit |]];
    destruct (addData_runs _ _ _ _ _ _ Hrun)
      as (res' & ctx' & [= <- <-]
          & [(Hl & Herr)|(front & h & Hl & _ & _ & [(_ & -> & Hmsg)|(Hne & _)])]);
    try congruence; try assumption.
  intros Hok. rewrite (Hmsg Hok). unfold added_message, files_added.
  now rewrite Hconv.
Qed.

Lemma storage_paths_are_not_imported_witness :
  only_listings [ListedCorpora "projects/p/locations/l" (Listed [notes]);
                 ListedCorpora "projects/p/locations/l" (Listed [notes])]
  /\ length (gcsPaths (parsePaths ["gs://bucket/a.pdf"; "gs://bucket/b.pdf"]))
     = length (validated (parsePaths ["gs://bucket/a.pdf"; "gs://bucket/b.pdf"]))
  /\ (status (buildResponse success "Successfully added 2 file(s) to corpus 'Notes'")
      = success ->
      message (buildResponse success "Successfully added 2 file(s) to corpus 'Notes'")
      = "Successfully added "
        +:+ decimal (length (validated (parsePaths ["gs://bucket/a.pdf";
                                                    "gs://bucket/b.pdf"])))
        +:+ " file(s) to corpus '" +:+ "Notes" +:+ "'").
Proof.
  apply (storage_paths_are_not_imported sample_cfg "Notes"
           ["gs://bucket/a.pdf"; "gs://bucket/b.pdf"] (with_state ∅)
           [ListedCorpora "projects/p/locations/l" (Listed [notes]);
            ListedCorpora "projects/p/locations/l" (Listed [notes])]
           (buildResponse success "Successfully added 2 file(s) to corpus 'Notes'")
           (record_match "Notes" (with_state ∅))).
  - reflexivity.
  - hnf. eexists (Listed [notes]), _. split; [reflexivity |].
    hnf. eexists (Listed [notes]), _. split; [reflexivity |].
    hnf. split; reflexivity.
Defined.

End AddData.

(** ** What the query tool asks the services *)

Section QueryCalls.

Lemma runs_lift_bind {A B : Type} (p : prog A) (f : A -> prog B)
    (trace : list event) (result : option B) :
  runs (lift (bind p f)) trace result ->
  (exists first a second,
      runs (lift p) first (Some a) /\ runs (lift (f a)) second result
      /\ trace = (first ++ second)%list)
  \/ (runs (lift p) trace None /\ result = None).
Proof.
  revert trace. induction p as [a|parent k IH|c q k IH|]; intros trace; simpl.
  - intros H. left. exists [], a, trace. now repeat split.
  - intros (answer & rest & -> & H). destruct (IH answer rest H)
      as [(first & a & second & H1 & H2 & ->)|[H1 ->]].
    + left. exists (ListedCorpora parent answer :: first), a, second.
      repeat split; [|exact H2]. now exists answer, first.
    + right. split; [|reflexivity]. now exists answer, rest.
  - intros (answer & rest & -> & H). destruct (IH answer rest H)
      as [(first & a & second & H1 & H2 & ->)|[H1 ->]].
    + left. exists (RetrievedContexts c q answer :: first), a, second.
      repeat split; [|exact H2]. now exists answer, first.
    + right. split; [|reflexivity]. now exists answer, rest.
  - intros [-> ->]. right. now repeat split.
Qed.

Lemma best_of_has_hit (nq : string) (corpora : list CorpusRecord) (h : CorpusMatchResult) :
  fst (best_of nq corpora) = Some h ->
  exists corpus, In corpus corpora /\ h = match_of corpus /\ has_hit nq corpus.
Proof.
  destruct (best_of_spec nq corpora) as [[_ ->]|(hit & Hhit & ->)]; [discriminate |].
  intros [= <-]. apply first_highest_in in Hhit as [Hin _].
  apply in_all_hits in Hin as (c & cand & Hc & Hcand & Hs & Hm).
  exists c. repeat split; [exact Hc | exact Hm |]. exists cand. split; [exact Hcand |].
  congruence.
Qed.

(** The resolver, in any run. *)
Lemma runs_findBest (cfg : Config) (q : string) (trace : list event)
    (result : option (option CorpusMatchResult)) :
  runs (lift (findBestMatchingCorpus cfg q)) trace result ->
  exists found,
    result = Some found
    /\ ((trace = [] /\ found = None)
        \/ exists answer,
             trace = [ListedCorpora (parent_of cfg) answer]
             /\ forall h, found = Some h ->
                  exists corpora corpus,
                    answer = Listed corpora /\ In corpus corpora
                    /\ h = match_of corpus /\ has_hit (normalize q) corpus).
Proof.
  unfold findBestMatchingCorpus.
  destruct (Js.nonempty (normalize q)); simpl;
    [|intros [-> ->]; exists None; split; [reflexivity | now left]].
  destruct (unconfigured cfg); simpl;
    [intros [-> ->]; exists None; split; [reflexivity | now left] |].
  intros (answer & rest & -> & H). destruct answer as [corpora|]; destruct H as [-> ->];
    eexists; (split; [reflexivity |]); right; eexists; (split; [reflexivity |]).
  - intros h Hh. destruct (best_of_has_hit _ _ _ Hh) as (c & Hc & Hm & Hhit).
    now exists corpora, c.
  - discriminate.
Qed.

(** X25.  [ragQuery] retrieves only from a corpus it has just seen: in
    every run a retrieval call follows exactly one listing call, carries
    the trimmed question, and is addressed to the resource name of a
    corpus of that listing, one of whose candidates contains the
    identifier in use (the trimmed corpus name, or [current_corpus] when
    that name is blank). *)
Theorem retrieval_targets_listed_corpus
    (cfg : Config) (corpusName query : string) (tool_context : option ToolContext)
    (trace : list event) (result : option (ToolResult * option ToolContext))
    (c q : string) (a : retrieval) :
  runs (lift (ragQuery cfg corpusName query tool_context)) trace result ->
  In (RetrievedContexts c q a) trace ->
  q = Js.trim query
  /\ exists toolContext identifier corpora corpus,
       tool_context = Some toolContext
       /\ resolved_input corpusName toolContext = Some (VStr identifier)
       /\ trace = [ListedCorpora (parent_of cfg) (Listed corpora); RetrievedContexts c q a]
       /\ In corpus corpora /\ has_hit (normalize identifier) corpus
       /\ c = text_of (corpus_name corpus).
Proof.
  unfold ragQuery.
  destruct (Js.nonempty (Js.trim query)); simpl; [|intros [-> _] []].
  destruct (unconfigured cfg); [intros [-> _] [] |].
  destruct tool_context as [toolContext|]; [|intros [-> _] []].
  destruct (resolved_input corpusName toolContext) as [[[]|[|ch identifier]]|] eqn:Hin;
    try (intros [-> _] []).
  intros [(first & found & second & Hfind & Hrest & ->)|[Hfind _]]%runs_lift_bind Hev.
  - apply runs_findBest in Hfind as (found' & [= <-] & Hfound).
    destruct found as [h|].
    + destruct Hfound as [[_ [=]]|(answer & -> & Hh)].
      destruct (Hh h eq_refl) as (corpora & corpus & -> & Hc & -> & Hhit).
      simpl in Hrest. destruct Hrest as (answer & rest & -> & Hrest).
      assert (Hnil : rest = []) by (destruct answer as [[|x xs]|msg]; now destruct Hrest).
      subst rest. destruct Hev as [[=]|[[= <- <- <-]|[]]].
      split; [reflexivity |].
      exists toolContext, (String ch identifier), corpora, corpus. now repeat split.
    + simpl in Hrest. destruct Hrest as [-> _]. rewrite app_nil_r in Hev.
      destruct Hfound as [[-> _]|(answer & -> & _)]; [destruct Hev |].
      destruct Hev as [[=]|[]].
  - apply runs_findBest in Hfind as (found' & [=] & _).
Qed.

Lemma retrieval_targets_listed_corpus_witness :
  "what is new" = Js.trim " what is new "
  /\ exists toolContext identifier corpora corpus,
       with_state ∅ = Some toolContext
       /\ resolved_input "notes" toolContext = Some (VStr identifier)
       /\ [ListedCorpora "projects/p/locations/l" (Listed [research_notes]);
           RetrievedContexts "projects/p/locations/l/ragCorpora/3" "what is new"
             (Retrieved [])]
          = [ListedCorpora (parent_of sample_cfg) (Listed corpora);
             RetrievedContexts "projects/p/locations/l/ragCorpora/3" "what is new"
               (Retrieved [])]
       /\ In corpus corpora /\ has_hit (normalize identifier) corpus
       /\ "projects/p/locations/l/ragCorpora/3" = text_of (corpus_name corpus).
Proof.
  apply (retrieval_targets_listed_corpus sample_cfg "notes" " what is new " (with_state ∅)
           [ListedCorpora "projects/p/locations/l" (Listed [research_notes]);
            RetrievedContexts "projects/p/locations/l/ragCorpora/3" "what is new"
              (Retrieved [])]
           (Some (buildResponse warning
                    "No results found in corpus 'Research Notes' for query: 'what is new'",
                  with_state ∅))).
  - hnf. eexists (Listed [research_notes]), _. split; [reflexivity |].
    hnf. eexists (Retrieved []), _. split; [reflexivity |].
    hnf. split; reflexivity.
  - right. now left.
Defined.

End QueryCalls.

(** ** Import batches *)

Section ImportBatch.

Lemma count_from_text (operations : list import_result) (s : string) :
  fold_left (fun total op =>
               match op with
               | Resolved count => add_count total count
               | Rejected => total
               end) operations (JsText s)
  = JsText (s +:+ counts_text (counts_of operations)).
Proof.
  revert s. induction operations as [|op operations IH]; intros s; simpl.
  - now rewrite append_empty_r.
  - destruct op as [[value|]|]; simpl; rewrite ?IH, ?append_assoc; reflexivity.
Qed.

(** The second loop in closed form. *)
Lemma count_imported_total (operations : list import_result) :
  count_imported operations = reported_total (counts_of operations).
Proof.
  unfold count_imported.
  induction operations as [|op operations IH]; simpl; [reflexivity |].
  destruct op as [[value|]|]; simpl.
  - rewrite count_from_text. now rewrite !append_assoc.
  - exact IH.
  - exact IH.
Qed.

Lemma runs_start_imports (parent : string) (configs : list ImportConfig)
    (operations : list import_result) (trace : list event)
    (result : option (string + list import_result)) :
  runs (start_imports parent configs operations) trace result ->
  (exists answers,
      length answers = length configs /\ Forall call_went_through answers
      /\ trace = import_events parent configs answers
      /\ result = Some (inr (operations ++ kept answers)%list))
  \/ (exists before config after answers errorMessage,
        configs = (before ++ config :: after)%list
        /\ length answers = length before /\ Forall call_went_through answers
        /\ trace = (import_events parent before answers
                    ++ [ImportedFiles parent config (ImportCallFailed errorMessage)])%list
        /\ result = Some (inl errorMessage)).
Proof.
  revert operations trace.
  induction configs as [|config configs IH]; intros operations trace; simpl.
  - intros [-> ->]. left. exists []. repeat split; [constructor |].
    now rewrite app_nil_r.
  - intros (answer & rest & -> & H).
    assert (Hnext : forall ops,
              call_went_through answer ->
              kept [answer] = ops ->
              runs (start_imports parent configs (operations ++ ops)) rest result ->
              (exists answers,
                  length answers = S (length configs) /\ Forall call_went_through answers
                  /\ ImportedFiles parent config answer :: rest
                     = import_events parent (config :: configs) answers
                  /\ result = Some (inr (operations ++ kept answers)%list))
              \/ (exists before config' after answers errorMessage,
                    config :: configs = (before ++ config' :: after)%list
                    /\ length answers = length before /\ Forall call_went_through answers
                    /\ ImportedFiles parent config answer :: rest
                       = (import_events parent before answers
                          ++ [ImportedFiles parent config' (ImportCallFailed errorMessage)])%list
                    /\ result = Some (inl errorMessage))).
    { intros ops Hok Hops Hrun.
      destruct (IH _ _ Hrun) as [(answers & Hlen & Hall & -> & ->)
                                |(before & config' & after & answers & msg
                                  & -> & Hlen & Hall & -> & ->)].
      - left. exists (answer :: answers). split; [simpl; lia |].
        split; [now constructor |]. split; [reflexivity |].
        replace (kept (answer :: answers)) with (kept [answer] ++ kept answers)%list
          by (unfold kept; simpl; now rewrite app_nil_r).
        now rewrite Hops, app_assoc.
      - right. exists (config :: before), config', after, (answer :: answers), msg.
        split; [reflexivity |]. split; [simpl; lia |].
        split; [now constructor |]. now split. }
    destruct answer as [msg| |op].
    + destruct H as [-> ->]. right. exists [], config, configs, [], msg.
      repeat split. constructor.
    + apply (Hnext []); [discriminate | reflexivity | now rewrite app_nil_r].
    + apply (Hnext [op]); [discriminate | reflexivity | exact H].
Qed.

Lemma number_total (counts : list files_count) (n : nat) :
  reported_total counts = JsNumber n ->
  n = O /\ forall value, ~ In (LongCount value) counts.
Proof.
  induction counts as [|[value|] counts IH]; simpl.
  - intros [= <-]. split; [reflexivity | intros value []].
  - discriminate.
  - intros H. destruct (IH H) as [-> Hno]. split; [reflexivity |].
    intros value [E|Hin]; [discriminate E | now apply (Hno value)].
Qed.

(** X26.  A batch of imports: [runImportOperations] calls the service once
    per configuration, in order.  If every call goes through, what it
    returns is not the sum of the counts: a count is a [Long] object, which
    [+=] appends as text.  The result is the number 0 as long as no
    response carries a count, and else the text made of [0] and of the
    counts of the responses, in order, from the first one that carries a
    count on ([0] for a later response without count); an operation that
    is missing or rejects adds nothing.  So one import that reports 23
    files gives the text [023].  If a call throws, no further call is made
    and the exception leaves the function. *)
Theorem import_batch_outcome
    (parent : string) (configs : list ImportConfig) (trace : list event)
    (result : option (string + jstotal)) :
  runs (runImportOperations parent configs) trace result ->
  (exists answers,
      length answers = length configs /\ Forall call_went_through answers
      /\ trace = import_events parent configs answers
      /\ result = Some (inr (reported_total (counts_of (kept answers))))
      /\ (forall n, result = Some (inr (JsNumber n)) ->
           n = O /\ forall value, ~ In (LongCount value) (counts_of (kept answers)))
      /\ (forall value, counts_of (kept answers) = [LongCount value] ->
           result = Some (inr (JsText ("0" +:+ long_text value)))))
  \/ (exists before config after answers errorMessage,
        configs = (before ++ config :: after)%list
        /\ length answers = length before /\ Forall call_went_through answers
        /\ trace = (import_events parent before answers
                    ++ [ImportedFiles parent config (ImportCallFailed errorMessage)])%list
        /\ result = Some (inl errorMessage)).
Proof.
  unfold runImportOperations.
  intros [(first & started & second & Hstart & Hend & ->)|[Hstart _]]%runs_and_then.
  - apply runs_start_imports in Hstart
      as [(answers & Hlen & Hall & -> & [= ->])
         |(before & config & after & answers & msg & -> & Hlen & Hall & -> & [= ->])];
      destruct Hend as [-> ->]; rewrite app_nil_r.
    + left. exists answers. simpl. rewrite count_imported_total.
      split; [exact Hlen |]. split; [exact Hall |]. split; [reflexivity |].
      split; [reflexivity |]. split.
      * intros n [= H]. now apply number_total.
      * intros value ->. simpl. now rewrite append_empty_r.
    + right. exists before, config, after, answers, msg. now repeat split.
  - exfalso. apply runs_start_imports in Hstart
      as [(answers & _ & _ & _ & H)|(before & config & after & answers & msg & _ & _ & _ & _ & H)];
      discriminate H.
Qed.

Lemma import_batch_outcome_witness :
  (exists answers,
      length answers = 3%nat /\ Forall call_went_through answers
      /\ import_events "c"
           [drive_config no_paths; drive_config no_paths; drive_config no_paths]
           [Started (Resolved (LongCount 2)); Started Rejected; Started (Resolved (LongCount 3))]
         = import_events "c"
             [drive_config no_paths; drive_config no_paths; drive_config no_paths] answers
      /\ (Some (inr (JsText "023")) : option (string + jstotal))
         = Some (inr (reported_total (counts_of (kept answers))))
      /\ (forall n, (Some (inr (JsText "023")) : option (string + jstotal))
                    = Some (inr (JsNumber n)) ->
           n = O /\ forall value, ~ In (LongCount value) (counts_of (kept answers)))
      /\ (forall value, counts_of (kept answers) = [LongCount value] ->
           (Some (inr (JsText "023")) : option (string + jstotal))
           = Some (inr (JsText ("0" +:+ long_text value)))))
  \/ (exists before config after answers errorMessage,
        [drive_config no_paths; drive_config no_paths; drive_config no_paths]
        = (before ++ config :: after)%list
        /\ length answers = length before /\ Forall call_went_through answers
        /\ import_events "c"
             [drive_config no_paths; drive_config no_paths; drive_config no_paths]
             [Started (Resolved (LongCount 2)); Started Rejected;
              Started (Resolved (LongCount 3))]
           = (import_events "c" before answers
              ++ [ImportedFiles "c" config (ImportCallFailed errorMessage)])%list
        /\ (Some (inr (JsText "023")) : option (string + jstotal)) = Some (inl errorMessage)).
Proof.
  apply (import_batch_outcome "c"
           [drive_config no_paths; drive_config no_paths; drive_config no_paths]
           (import_events "c"
              [drive_config no_paths; drive_config no_paths; drive_config no_paths]
              [Started (Resolved (LongCount 2)); Started Rejected;
               Started (Resolved (LongCount 3))])
           (Some (inr (JsText "023")))).
  hnf. eexists _, _. split; [reflexivity |].
  hnf. eexists _, _. split; [reflexivity |].
  hnf. eexists _, _. split; [reflexivity |].
  hnf. split; reflexivity.
Defined.

End ImportBatch.

(** ** Describing a corpus *)

Section CorpusInfo.

Lemma not_a_listing_fetch (trace : list event) (n : string) (a : fetched) :
  only_listings trace -> ~ In (FetchedCorpus n a) trace.
Proof. intros H Hin. destruct (H _ Hin) as (parent & answer & E). discriminate E. Qed.

(** X27.  [getCorpusInfo] once the corpus is fetched: in every run in
    which [getRagCorpus] answers with a corpus, that call was addressed to
    the resolved resource name after listing calls only, it is followed by
    one [listRagFiles] call on the same name, and the tool succeeds
    whatever that last call answers; the name it shows is the display name
    just fetched, else the one of the resolution, else the identifier. *)
Theorem corpus_info_after_fetch
    (cfg : Config) (corpusName : string) (tool_context : option ToolContext)
    (trace : list event) (result : option (ToolResult * option ToolContext))
    (n : string) (corpus : CorpusRecord) :
  runs (getCorpusInfo cfg corpusName tool_context) trace result ->
  In (FetchedCorpus n (Fetched corpus)) trace ->
  exists front h files res toolContext',
    trace = (front ++ [FetchedCorpus n (Fetched corpus); ListedFiles n files])%list
    /\ only_listings front
    /\ n = resourceName h /\ resolved_from cfg corpusName front h
    /\ result = Some (res, toolContext') /\ status res = success
    /\ message res
       = "Successfully retrieved information for corpus '"
         +:+ Js.or_else (text_of (corpus_displayName corpus))
               (Js.or_else (text_of (displayName h)) corpusName)
         +:+ "'".
Proof.
  unfold getCorpusInfo. destruct (unconfigured cfg) eqn:Hcfg; [intros [-> _] [] |].
  intros H. apply (runs_guard cfg corpusName tool_context true) in H
    as (front & rest & found & toolContext & -> & Hfront & H & _).
  cbn [fst snd] in H. destruct found; cbn [negb] in H.
  - apply runs_resolution in H as (front2 & rest2 & resolved & -> & Hfront2 & H & Hres).
    assert (Hl : only_listings (front ++ front2)) by now apply only_listings_app.
    destruct resolved as [h|].
    + destruct H as (answer & rest3 & -> & H). intros Hin. rewrite app_assoc in Hin.
      apply in_app_or in Hin as [Hin|Hin]; [now apply not_a_listing_fetch in Hin |].
      destruct answer as [corpus'|msg].
      * destruct H as (files & rest4 & -> & [-> ->]).
        destruct Hin as [[= <- <-]|[[=]|[]]].
        exists (front ++ front2)%list, h, files. eexists _, _.
        split; [now rewrite app_assoc |]. split; [exact Hl |]. split; [reflexivity |].
        split; [apply resolved_from_app; now apply Hres |]. now repeat split.
      * destruct H as [-> _]. destruct Hin as [[=]|[]].
    + destruct H as [-> _]. rewrite app_nil_r. intros Hin.
      now apply not_a_listing_fetch in Hin.
  - destruct H as [-> _]. rewrite app_nil_r. intros Hin.
    now apply not_a_listing_fetch in Hin.
Qed.

Lemma corpus_info_after_fetch_witness :
  exists front h files res toolContext',
    [ListedCorpora "projects/p/locations/l" (Listed [notes]);
     ListedCorpora "projects/p/locations/l" (Listed [notes]);
     FetchedCorpus "projects/p/locations/l/ragCorpora/2"
       (Fetched {| corpus_name := Some "projects/p/locations/l/ragCorpora/2";
                   corpus_displayName := None |});
     ListedFiles "projects/p/locations/l/ragCorpora/2" FileListingFailed]
    = (front ++ [FetchedCorpus "projects/p/locations/l/ragCorpora/2"
                   (Fetched {| corpus_name := Some "projects/p/locations/l/ragCorpora/2";
                               corpus_displayName := None |});
                 ListedFiles "projects/p/locations/l/ragCorpora/2" files])%list
    /\ only_listings front
    /\ "projects/p/locations/l/ragCorpora/2" = resourceName h
    /\ resolved_from sample_cfg "Notes" front h
    /\ Some (buildResponse success "Successfully retrieved information for corpus 'Notes'",
             record_match "Notes" (with_state ∅)) = Some (res, toolContext')
    /\ status res = success
    /\ message res
       = "Successfully retrieved information for corpus '"
         +:+ Js.or_else (text_of (corpus_displayName
                                    {| corpus_name := Some "projects/p/locations/l/ragCorpora/2";
                                       corpus_displayName := None |}))
               (Js.or_else (text_of (displayName h)) "Notes")
         +:+ "'".
Proof.
  apply (corpus_info_after_fetch sample_cfg "Notes" (with_state ∅)).
  - hnf. eexists (Listed [notes]), _. split; [reflexivity |].
    hnf. eexists (Listed [notes]), _. split; [reflexivity |].
    hnf. eexists _, _. split; [reflexivity |].
    hnf. eexists _, _. split; [reflexivity |].
    hnf. split; reflexivity.
  - right. right. now left.
Defined.

End CorpusInfo.
